(** * libpersimq: a persistent single-process message queue

    A shallow embedding of [persimq.c] (the ring-buffer storage engine of
    libpersimq) and the properties of its specification that were checked
    against it.

    Platform assumptions, all taken from the declarations of the source:
    - [off_t] is a signed 64-bit integer and [size_t] an unsigned 64-bit
      integer (LP64); mixed [off_t]/[size_t] arithmetic is therefore done
      on unsigned 64-bit values, as the usual arithmetic conversions say;
    - multi-byte fields are stored little-endian;
    - [TFileHeader] is packed (4 + 5 * 8 + 1 = 45 bytes) and
      [TMessageHeader] has its natural layout (3 + 1 + 4 = 8 bytes).

    Bytes are integers in [0, 256); a buffer or a file is a list of bytes. *)

From Stdlib Require Import ZArith Lia Bool.
From stdpp Require Import base list.

#[local] Open Scope Z_scope.

(** ** Machine integers *)

Definition u8 (z : Z) : Z := z mod 2 ^ 8.
Definition u32 (z : Z) : Z := z mod 2 ^ 32.

(** Conversion to [size_t] / [uint64_t]. *)
Definition u64 (z : Z) : Z := z mod 2 ^ 64.

(** Conversion to [off_t] (two's complement). *)
Definition s64 (z : Z) : Z := (z + 2 ^ 63) mod 2 ^ 64 - 2 ^ 63.

Definition OFF_MAX : Z := 2 ^ 63 - 1.
Definition OFF_MIN : Z := - 2 ^ 63.
Definition SIZE_MAX : Z := 2 ^ 64 - 1.

Definition is_off_t (z : Z) : Prop := OFF_MIN <= z <= OFF_MAX.
Definition is_size_t (z : Z) : Prop := 0 <= z <= SIZE_MAX.

(** ** Layout constants *)

Definition sizeof_TFileHeader : Z := 45.
Definition sizeof_TMessageHeader : Z := 8.

(** [static const off_t wrap_lo_margin = sizeof(TFileHeader);] *)
Definition wrap_lo_margin : Z := sizeof_TFileHeader.

(** ** Checksum *)

(** One turn of the inner loop of [eval_crc8]:
    [crc = (crc & 0x80) ? (crc << 1) ^ 0x8C : (crc << 1);] on a [uint8_t]. *)
Definition crc8_bit (crc : Z) : Z :=
  if Z.eqb (Z.land crc 128) 0
  then u8 (Z.shiftl crc 1)
  else u8 (Z.lxor (Z.shiftl crc 1) 140).

(** One turn of the outer loop: [crc ^= data[byte_idx]] and eight bit turns. *)
Definition crc8_byte (crc b : Z) : Z :=
  Nat.iter 8 crc8_bit (Z.lxor crc b).

Definition eval_crc8 (data : list Z) : Z :=
  fold_left crc8_byte data 0.

(** ** Address mapper *)

(** [offset_roll]. The sum [sub_offset + increment] mixes [off_t] and
    [size_t], so it and the remainder are computed on unsigned 64-bit
    values; the result is converted back to [off_t].  A [wrap_hi_margin]
    equal to [wrap_lo_margin] makes the C program divide by zero; every
    statement below assumes [wrap_lo_margin < wrap_hi_margin]. *)
Definition offset_roll (current_offset wrap_hi_margin increment : Z) : Z :=
  let sub_offset :=
    if current_offset <? wrap_lo_margin
    then wrap_lo_margin
    else s64 (current_offset - wrap_lo_margin) in
  let sub_margin := s64 (wrap_hi_margin - wrap_lo_margin) in
  s64 (u64 (u64 (u64 sub_offset + increment) mod u64 sub_margin)
       + u64 wrap_lo_margin).

(** The address mapper as the specification words it: the offset is
    clamped up to the start of the data region, the increment is added
    modulo the length of the region, and the start is added back. *)
Definition advance_spec (currentOffset dataRegionEnd increment : Z) : Z :=
  let dataRegionStart := wrap_lo_margin in
  let normalized := Z.max currentOffset dataRegionStart in
  dataRegionStart
  + ((normalized - dataRegionStart) + increment) mod (dataRegionEnd - dataRegionStart).

(** ** The backing file

    The queue lives in one regular file.  The operating system is modelled
    as far as the library uses it: a file is its contents and the position
    of the one descriptor open on it.  A regular file transfers every byte
    it is asked for, except that a read stops at the end of the file, and
    the system calls themselves never fail for lack of resources. *)

Record file : Type := mkFile { f_data : list Z; f_pos : Z }.

(** [open(path, O_RDWR | O_CREAT, ...)]: the descriptor returned for the
    file whose contents are [disk] (empty when it has just been created).
    Descriptors 0 to 2 are the standard streams. *)
Definition os_open (disk : list Z) : Z * file := (3, mkFile disk 0).

(** [lseek(fd, offset, SEEK_SET)]. *)
Definition os_lseek (f : file) (offset : Z) : Z * file :=
  if offset <? 0 then (-1, f) else (offset, mkFile (f_data f) offset).

(** [ftruncate(fd, length)]: cuts the file or pads it with zero bytes. *)
Definition os_ftruncate (f : file) (length : Z) : Z * file :=
  if length <? 0 then (-1, f)
  else (0, mkFile (resize (Z.to_nat length) 0 (f_data f)) (f_pos f)).

(** [read(fd, buf, count)]: the bytes read and their number. *)
Definition os_read (f : file) (count : Z) : Z * list Z * file :=
  let chunk := take (Z.to_nat count) (drop (Z.to_nat (f_pos f)) (f_data f)) in
  let n := Z.of_nat (length chunk) in
  (n, chunk, mkFile (f_data f) (f_pos f + n)).

(** The contents of a file after [chunk] has been written at position [p]:
    a hole between the end of the file and the position is filled with
    zero bytes. *)
Definition overwrite (old : list Z) (p : nat) (chunk : list Z) : list Z :=
  take p old ++ replicate (p - length old) 0 ++ chunk ++ drop (p + length chunk) old.

(** [write(fd, buf, count)]; writing nothing changes nothing. *)
Definition os_write (f : file) (buf : list Z) (count : Z) : Z * file :=
  let chunk := take (Z.to_nat count) buf in
  let n := Z.of_nat (length chunk) in
  if n =? 0 then (0, f)
  else (n, mkFile (overwrite (f_data f) (Z.to_nat (f_pos f)) chunk) (f_pos f + n)).

(** [fsync], [flock] and [close] succeed and leave the contents alone. *)
Definition os_fsync (f : file) : Z := 0.
Definition os_close (f : file) : Z := 0.

(** [multiread]: the [do ... while (length)] loop around [read].  [data]
    collects what has been stored in the buffer so far.  Every turn that
    does not return consumes at least one byte, so [length] turns and one
    more are enough (see [multiread_loop_fuel]). *)
Fixpoint multiread_loop (fuel : nat) (f : file) (data : list Z) (length : Z)
  : bool * file * list Z :=
  match fuel with
  | O => (false, f, data)
  | S fuel' =>
      let '(result, chunk, f') := os_read f length in
      if result <=? 0 then (false, f', data)
      else
        let length' := u64 (length - result) in
        let data' := data ++ chunk in
        if length' =? 0 then (true, f', data')
        else multiread_loop fuel' f' data' length'
  end.

(** The caller's buffer contents do not matter to a read: what comes back
    is what the loop stored. *)
Definition multiread (f : file) (data : list Z) (length : Z)
  : bool * file * list Z :=
  multiread_loop (S (Z.to_nat length)) f [] length.

(** [multiwrite]: the same loop around [write]; [data] is what is left to
    write ([data += result]). *)
Fixpoint multiwrite_loop (fuel : nat) (f : file) (data : list Z) (length : Z)
  : bool * file :=
  match fuel with
  | O => (false, f)
  | S fuel' =>
      let '(result, f') := os_write f data length in
      if result <=? 0 then (false, f')
      else
        let length' := u64 (length - result) in
        if length' =? 0 then (true, f')
        else multiwrite_loop fuel' f' (drop (Z.to_nat result) data) length'
  end.

(** A write leaves the caller's buffer as it is. *)
Definition multiwrite (f : file) (data : list Z) (length : Z)
  : bool * file * list Z :=
  let '(ok, f') := multiwrite_loop (S (Z.to_nat length)) f data length in
  (ok, f', data).

(** ** Wrapped I/O *)

(** [wrapped_io].  The result is: the boolean returned, the file, the
    buffer [data] after the call (for a read, the bytes stored in it), and
    the value assigned through [next_offset] ([None] when the function
    returns before the assignment). Note that [&=] does not short-cut. *)
Definition wrapped_io (f : file) (data : list Z) (length offset wrap_hi_margin : Z)
    (do_write : bool) : bool * file * list Z * option Z :=
  let io_function := if do_write then multiwrite else multiread in
  let offset := offset_roll offset wrap_hi_margin 0 in
  let first_chunk_size := u64 (wrap_hi_margin - offset) in
  if u64 (wrap_hi_margin - wrap_lo_margin) <=? length then (false, f, data, None)
  else if length <=? first_chunk_size then
    let '(pos, f1) := os_lseek f offset in
    let result := 0 <=? pos in
    let '(ok, f2, data') := io_function f1 data length in
    let result := result && ok in
    (result, f2, data', Some (offset_roll offset wrap_hi_margin length))
  else
    let '(pos, f1) := os_lseek f offset in
    let result := 0 <=? pos in
    let '(ok, f2, data1) := io_function f1 data first_chunk_size in
    let result := result && ok in
    let '(pos, f3) := os_lseek f2 wrap_lo_margin in
    let result := result && (0 <=? pos) in
    let '(ok, f4, data2) :=
      io_function f3 (drop (Z.to_nat first_chunk_size) data)
                  (u64 (length - first_chunk_size)) in
    let result := result && ok in
    (result, f4,
     (if do_write then data else data1 ++ data2),
     Some (offset_roll offset wrap_hi_margin length)).

(** The transfer the specification compares [wrapped_io] with: the data
    region [[wrap_lo_margin, wrap_hi_margin)] is a ring, and the bytes are
    moved one at a time, stepping from the last offset of the region back
    to its first. *)
Definition ring_next (wrap_hi_margin offset : Z) : Z :=
  if offset + 1 <? wrap_hi_margin then offset + 1 else wrap_lo_margin.

Fixpoint naive_write (contents : list Z) (wrap_hi_margin offset : Z) (data : list Z)
  : list Z :=
  match data with
  | [] => contents
  | b :: data' =>
      naive_write (<[Z.to_nat offset := b]> contents) wrap_hi_margin
                  (ring_next wrap_hi_margin offset) data'
  end.

Fixpoint naive_read (contents : list Z) (wrap_hi_margin offset : Z) (length : nat)
  : list Z :=
  match length with
  | O => []
  | S length' =>
      match contents !! Z.to_nat offset with
      | Some b => b :: naive_read contents wrap_hi_margin
                                  (ring_next wrap_hi_margin offset) length'
      | None => []
      end
  end.

(** The blocks a wrapped write leaves in the file: one when the span ends
    before the end of the region, two otherwise. *)
Definition wrapped_blocks (contents : list Z) (hi off : Z) (data : list Z) : list Z :=
  if Z.of_nat (length data) <=? hi - off
  then overwrite contents (Z.to_nat off) data
  else overwrite
         (overwrite contents (Z.to_nat off) (take (Z.to_nat (hi - off)) data))
         (Z.to_nat wrap_lo_margin)
         (drop (Z.to_nat (hi - off)) data).

(** What a wrapped read stores: one block or two. *)
Definition wrapped_read (contents : list Z) (hi off : Z) (n : nat) : list Z :=
  if Z.of_nat n <=? hi - off
  then take n (drop (Z.to_nat off) contents)
  else take (Z.to_nat (hi - off)) (drop (Z.to_nat off) contents)
       ++ take (n - Z.to_nat (hi - off)) (drop (Z.to_nat wrap_lo_margin) contents).

(** Where the ring position is after [k] steps. *)
Fixpoint ring_advance (wrap_hi_margin offset : Z) (k : nat) : Z :=
  match k with
  | O => offset
  | S k' => ring_advance wrap_hi_margin (ring_next wrap_hi_margin offset) k'
  end.

(** ** On-disk records *)

(** Little-endian encoding of an unsigned field of [n] bytes. *)
Fixpoint le_encode (n : nat) (z : Z) : list Z :=
  match n with
  | O => []
  | S n' => z mod 256 :: le_encode n' (z / 256)
  end.

Fixpoint le_decode (bytes : list Z) : Z :=
  match bytes with
  | [] => 0
  | b :: bytes' => b + 256 * le_decode bytes'
  end.

(** The tags ["lPmQ"] and ["PMQ"]. *)
Definition FILE_ID : list Z := [108; 80; 109; 81].
Definition MESSAGE_ID : list Z := [80; 77; 81].

Record TFileHeader : Type := mkFileHeader {
  fh_ID : list Z;
  fh_append_ptr : Z;
  fh_extract_ptr : Z;
  fh_count_bytes : Z;
  fh_count_messages : Z;
  fh_file_size : Z;
  fh_crc : Z
}.

Record TMessageHeader : Type := mkMessageHeader {
  mh_ID : list Z;
  mh_message_crc : Z;
  mh_message_size : Z
}.

(** The bytes of a [TFileHeader] in memory, which are its bytes on disk. *)
Definition TFileHeader_bytes (h : TFileHeader) : list Z :=
  take 4 (fh_ID h ++ replicate 4 0)
  ++ le_encode 8 (fh_append_ptr h)
  ++ le_encode 8 (fh_extract_ptr h)
  ++ le_encode 8 (fh_count_bytes h)
  ++ le_encode 8 (fh_count_messages h)
  ++ le_encode 8 (fh_file_size h)
  ++ [fh_crc h].

Definition TFileHeader_of_bytes (bytes : list Z) : TFileHeader :=
  mkFileHeader (take 4 bytes)
               (le_decode (take 8 (drop 4 bytes)))
               (le_decode (take 8 (drop 12 bytes)))
               (le_decode (take 8 (drop 20 bytes)))
               (le_decode (take 8 (drop 28 bytes)))
               (le_decode (take 8 (drop 36 bytes)))
               (nth 44 bytes 0).

Definition TMessageHeader_bytes (h : TMessageHeader) : list Z :=
  take 3 (mh_ID h ++ replicate 3 0)
  ++ [mh_message_crc h]
  ++ le_encode 4 (mh_message_size h).

Definition TMessageHeader_of_bytes (bytes : list Z) : TMessageHeader :=
  mkMessageHeader (take 3 bytes) (nth 3 bytes 0) (le_decode (take 4 (drop 4 bytes))).

(** [strncmp]: compares at most [n] characters and stops after a NUL. *)
Fixpoint strncmp (s1 s2 : list Z) (n : nat) : Z :=
  match n with
  | O => 0
  | S n' =>
      let c1 := hd 0 s1 in
      let c2 := hd 0 s2 in
      if c1 =? c2
      then if c1 =? 0 then 0 else strncmp (tl s1) (tl s2) n'
      else c1 - c2
  end.

(** [memcmp]: compares [n] bytes. *)
Fixpoint memcmp (s1 s2 : list Z) (n : nat) : Z :=
  match n with
  | O => 0
  | S n' =>
      let c1 := hd 0 s1 in
      let c2 := hd 0 s2 in
      if c1 =? c2 then memcmp (tl s1) (tl s2) n' else c1 - c2
  end.

(** ** The queue handle *)

Record T_PERSIMQ : Type := mkMQ {
  fd : Z;
  append_ptr : Z;
  extract_ptr : Z;
  count_bytes : Z;
  count_messages : Z;
  file_size : Z
}.

Definition set_fd (v : Z) (mq : T_PERSIMQ) : T_PERSIMQ :=
  mkMQ v (append_ptr mq) (extract_ptr mq) (count_bytes mq) (count_messages mq)
       (file_size mq).

Definition set_append_ptr (v : Z) (mq : T_PERSIMQ) : T_PERSIMQ :=
  mkMQ (fd mq) v (extract_ptr mq) (count_bytes mq) (count_messages mq)
       (file_size mq).

(** ** Queries *)

Definition PERSIMQ_is_open (mq : T_PERSIMQ) : bool := negb (fd mq =? 0).

Definition PERSIMQ_is_empty (mq : T_PERSIMQ) : bool := count_bytes mq =? 0.

Definition PERSIMQ_messages_available (mq : T_PERSIMQ) : Z := count_messages mq.

Definition PERSIMQ_bytes_available (mq : T_PERSIMQ) : Z :=
  u64 (u64 (count_bytes mq) - u64 (sizeof_TMessageHeader * u64 (count_messages mq))).

Definition PERSIMQ_bytes_free (mq : T_PERSIMQ) : Z :=
  u64 (u64 (file_size mq) - u64 (u64 (count_bytes mq) + sizeof_TFileHeader)).

(** ** Persistence and recovery *)

(** The header record [PERSIMQ_sync] builds from the handle: the fields,
    then the checksum of the 44 bytes before the checksum field. *)
Definition sync_header (mq : T_PERSIMQ) : TFileHeader :=
  let header :=
    mkFileHeader FILE_ID (u64 (append_ptr mq)) (u64 (extract_ptr mq))
                 (u64 (count_bytes mq)) (u64 (count_messages mq))
                 (u64 (file_size mq)) 0 in
  mkFileHeader (fh_ID header) (fh_append_ptr header) (fh_extract_ptr header)
               (fh_count_bytes header) (fh_count_messages header)
               (fh_file_size header)
               (eval_crc8 (take 44 (TFileHeader_bytes header))).

(** [PERSIMQ_sync]: the header record of the handle is written at offset 0. *)
Definition PERSIMQ_sync (mq : T_PERSIMQ) (f : file) : bool * file :=
  if fd mq =? 0 then (false, f)
  else
    let '(pos, f1) := os_lseek f 0 in
    let result := 0 <=? pos in
    let header := sync_header mq in
    let '(ok, f2, _) := multiwrite f1 (TFileHeader_bytes header) sizeof_TFileHeader in
    let result := result && ok in
    let result := result && (0 <=? os_fsync f2) in
    (result, f2).

(** [PERSIMQ_open].  [mq] is the caller's structure before the call and
    [disk] the contents of the file at [mqfile_path] (nothing for a file
    that does not exist yet).  The comparison of the sanity check is
    unsigned. *)
Definition PERSIMQ_open (mq : T_PERSIMQ) (disk : list Z) (mqfile_size : Z)
  : bool * T_PERSIMQ * file :=
  if u64 mqfile_size <=? sizeof_TFileHeader + sizeof_TMessageHeader + 1
  then (false, mq, mkFile disk 0)
  else
    let '(new_fd, f) := os_open disk in
    let mq := set_fd new_fd mq in
    let '(r, f) := os_ftruncate f mqfile_size in
    if negb (r =? 0) then (false, mq, f)
    else
      let '(pos, f) := os_lseek f 0 in
      if pos <? 0 then (false, set_fd 0 mq, f)
      else
        let '(ok, f, bytes) := multiread f [] sizeof_TFileHeader in
        if negb ok then (false, set_fd 0 mq, f)
        else
          let header := TFileHeader_of_bytes bytes in
          let crc := eval_crc8 (take 44 bytes) in
          if (strncmp (fh_ID header) FILE_ID 4 =? 0)
             && (crc =? fh_crc header)
             && (u64 mqfile_size =? fh_file_size header)
          then
            (true,
             mkMQ (fd mq) (s64 (fh_append_ptr header)) (s64 (fh_extract_ptr header))
                  (s64 (fh_count_bytes header)) (s64 (fh_count_messages header))
                  mqfile_size,
             f)
          else
            (true,
             mkMQ (fd mq) sizeof_TFileHeader sizeof_TFileHeader 0 0 mqfile_size,
             f).

(** [PERSIMQ_close]: the handle itself is left as it is. *)
Definition PERSIMQ_close (mq : T_PERSIMQ) (f : file) : bool * file :=
  if fd mq =? 0 then (true, f)
  else
    let '(ok, f1) := PERSIMQ_sync mq f in
    (ok && (0 <=? os_close f1), f1).

Definition PERSIMQ_drop (mq : T_PERSIMQ) (f : file) : bool * file :=
  if fd mq =? 0 then (true, f) else (0 <=? os_close f, f).

Definition PERSIMQ_clear (mq : T_PERSIMQ) (f : file) : bool * T_PERSIMQ * file :=
  if fd mq =? 0 then (false, mq, f)
  else
    let mq := mkMQ (fd mq) sizeof_TFileHeader sizeof_TFileHeader 0 0 (file_size mq) in
    let '(ok, f1) := PERSIMQ_sync mq f in
    (ok, mq, f1).

(** ** Queue operations *)

(** The header record [push] writes before a message: the tag, the
    checksum of the payload and its length as a [uint32_t]. *)
Definition push_header (message : list Z) : TMessageHeader :=
  mkMessageHeader MESSAGE_ID (eval_crc8 message) (u32 (Z.of_nat (length message))).

(** [PERSIMQ_push].  The message is the [message_size] bytes at [message];
    the length field of the record is a [uint32_t]. *)
Definition PERSIMQ_push (mq : T_PERSIMQ) (f : file) (message : list Z)
  : bool * T_PERSIMQ * file :=
  let message_size := Z.of_nat (length message) in
  if fd mq =? 0 then (false, mq, f)
  else if PERSIMQ_bytes_free mq <? u64 (sizeof_TMessageHeader + message_size)
  then (false, mq, f)
  else
    let header := push_header message in
    let '(ok, f1, _, _) :=
      wrapped_io f (TMessageHeader_bytes header) sizeof_TMessageHeader
                 (append_ptr mq) (file_size mq) true in
    if negb ok then (false, set_fd 0 mq, f1)
    else
      let '(ok, f2, _, next_offset) :=
        wrapped_io f1 message message_size
                   (offset_roll (append_ptr mq) (file_size mq) sizeof_TMessageHeader)
                   (file_size mq) true in
      let mq :=
        match next_offset with
        | Some p => set_append_ptr p mq
        | None => mq
        end in
      if negb ok then (false, set_fd 0 mq, f2)
      else
        (true,
         mkMQ (fd mq) (append_ptr mq) (extract_ptr mq)
              (s64 (u64 (count_bytes mq) + u64 (sizeof_TMessageHeader + message_size)))
              (s64 (count_messages mq + 1))
              (file_size mq),
         f2).

(** [PERSIMQ_read_message_header]; its callers always pass a header to
    fill in, which is returned. *)
Definition PERSIMQ_read_message_header (mq : T_PERSIMQ) (f : file) (offset : Z)
  : bool * T_PERSIMQ * file * TMessageHeader :=
  if fd mq =? 0 then (false, mq, f, mkMessageHeader [] 0 0)
  else
    let offset := offset_roll offset (file_size mq) 0 in
    let '(ok, f1, bytes, _) :=
      wrapped_io f [] sizeof_TMessageHeader offset (file_size mq) false in
    let header := TMessageHeader_of_bytes bytes in
    if negb ok then (false, set_fd 0 mq, f1, header)
    else if negb (memcmp (mh_ID header) MESSAGE_ID 3 =? 0)
    then (false, set_fd 0 mq, f1, header)
    else (true, mq, f1, header).

Definition PERSIMQ_pop (mq : T_PERSIMQ) (f : file) : bool * T_PERSIMQ * file :=
  if fd mq =? 0 then (false, mq, f)
  else if PERSIMQ_messages_available mq =? 0 then (false, mq, f)
  else
    let '(ok, mq1, f1, header) :=
      PERSIMQ_read_message_header mq f (extract_ptr mq) in
    if negb ok then (false, mq1, f1)
    else
      let record_size := u64 (mh_message_size header + sizeof_TMessageHeader) in
      (true,
       mkMQ (fd mq1) (append_ptr mq1)
            (offset_roll (extract_ptr mq1) (file_size mq1) record_size)
            (s64 (u64 (count_bytes mq1) - record_size))
            (s64 (count_messages mq1 - 1))
            (file_size mq1),
       f1).

(** The loop of the long option of [PERSIMQ_pop_n]:
    [for (...) result &= PERSIMQ_pop(mq);], which pops on after a failure. *)
Fixpoint pop_n_loop (n : nat) (result : bool) (mq : T_PERSIMQ) (f : file)
  : bool * T_PERSIMQ * file :=
  match n with
  | O => (result, mq, f)
  | S n' =>
      let '(ok, mq1, f1) := PERSIMQ_pop mq f in
      pop_n_loop n' (result && ok) mq1 f1
  end.

(** [PERSIMQ_pop_n]; the comparison with the message count is unsigned. *)
Definition PERSIMQ_pop_n (mq : T_PERSIMQ) (f : file) (pop_count : Z)
  : bool * T_PERSIMQ * file :=
  if u64 (count_messages mq) <=? pop_count
  then
    (true,
     mkMQ (fd mq) (append_ptr mq) (append_ptr mq) 0 0 (file_size mq),
     f)
  else pop_n_loop (Z.to_nat pop_count) true mq f.

(** [PERSIMQ_read_message_data]; the last component is what the call
    stored in the caller's buffer. *)
Definition PERSIMQ_read_message_data (mq : T_PERSIMQ) (f : file)
    (message_size message_crc extract_ptr : Z)
  : bool * T_PERSIMQ * file * list Z :=
  let '(ok, f1, buffer, _) :=
    wrapped_io f [] message_size extract_ptr (file_size mq) false in
  if negb ok then (false, set_fd 0 mq, f1, buffer)
  else
    let crc := eval_crc8 (take (Z.to_nat message_size) buffer) in
    if negb (crc =? message_crc) then (false, set_fd 0 mq, f1, buffer)
    else (true, mq, f1, buffer).

(** [PERSIMQ_get].  [want_size] says whether the [message_size] pointer is
    non-null; the results are the boolean, the handle, the file, what was
    stored in the buffer, and what was stored through [message_size]. *)
Definition PERSIMQ_get (mq : T_PERSIMQ) (f : file) (buffer_size : Z)
    (want_size : bool)
  : bool * T_PERSIMQ * file * list Z * option Z :=
  if fd mq =? 0 then (false, mq, f, [], None)
  else if PERSIMQ_messages_available mq =? 0 then (false, mq, f, [], None)
  else
    let '(ok, mq1, f1, header) :=
      PERSIMQ_read_message_header mq f (extract_ptr mq) in
    if negb ok then (false, mq1, f1, [], None)
    else
      let message_size :=
        if want_size then Some (mh_message_size header) else None in
      if buffer_size <? mh_message_size header
      then (false, mq1, f1, [], message_size)
      else
        let '(ok, mq2, f2, buffer) :=
          PERSIMQ_read_message_data mq1 f1 (mh_message_size header)
            (mh_message_crc header)
            (s64 (u64 (extract_ptr mq1) + sizeof_TMessageHeader)) in
        (ok, mq2, f2, buffer, message_size).

(** How the loop of [PERSIMQ_get_all] is left: by [return false] from
    inside, or through its end or a [break], with the loop variables. *)
Inductive get_all_exit : Type :=
| GetAllReturn (mq : T_PERSIMQ) (f : file) (buffer : list Z)
| GetAllLeave (result : bool) (mq : T_PERSIMQ) (f : file) (buffer : list Z)
              (buffer_size message_idx : Z).

(** The [while] loop of [PERSIMQ_get_all].  [buffer] is what has been
    stored in the caller's buffer so far and [buffer_size] the room left.
    [message_idx] grows by one each turn and the loop stops when it reaches
    [max_messages], so [max_messages] turns are enough. *)
Fixpoint get_all_loop (fuel : nat) (mq : T_PERSIMQ) (f : file) (max_messages : Z)
    (result : bool) (buffer : list Z) (buffer_size message_idx current_ptr : Z)
  : get_all_exit :=
  match fuel with
  | O => GetAllLeave result mq f buffer buffer_size message_idx
  | S fuel' =>
      if (message_idx <? u64 (count_messages mq)) && (message_idx <? max_messages)
      then
        let message_idx := message_idx + 1 in
        let '(ok, mq1, f1, header) :=
          PERSIMQ_read_message_header mq f current_ptr in
        if negb ok then GetAllReturn mq1 f1 buffer
        else if buffer_size <? mh_message_size header
        then GetAllLeave result mq1 f1 buffer buffer_size message_idx
        else
          let '(ok, mq2, f2, stored) :=
            PERSIMQ_read_message_data mq1 f1 (mh_message_size header)
              (mh_message_crc header)
              (s64 (u64 current_ptr + sizeof_TMessageHeader)) in
          let result := result && ok in
          if negb result
          then GetAllLeave result mq2 f2 (buffer ++ stored) buffer_size message_idx
          else
            get_all_loop fuel' mq2 f2 max_messages result
              (buffer ++ stored)
              (u64 (buffer_size - mh_message_size header))
              message_idx
              (offset_roll current_ptr (file_size mq2)
                 (u64 (mh_message_size header + sizeof_TMessageHeader)))
      else GetAllLeave result mq f buffer buffer_size message_idx
  end.

(** [PERSIMQ_get_all].  The results are the boolean, the handle, the file,
    what was stored in the buffer, and what was stored through
    [total_size] and [messages_read] (nothing on the early returns). *)
Definition PERSIMQ_get_all (mq : T_PERSIMQ) (f : file) (buffer_size max_messages : Z)
  : bool * T_PERSIMQ * file * list Z * option Z * option Z :=
  if fd mq =? 0 then (false, mq, f, [], None, None)
  else if PERSIMQ_messages_available mq =? 0 then (false, mq, f, [], None, None)
  else
    let total_size_used := buffer_size in
    match get_all_loop (S (Z.to_nat max_messages)) mq f max_messages true []
                       buffer_size 0 (extract_ptr mq) with
    | GetAllReturn mq1 f1 buffer => (false, mq1, f1, buffer, None, None)
    | GetAllLeave result mq1 f1 buffer buffer_size' message_idx =>
        (result, mq1, f1, buffer,
         Some (u64 (total_size_used - buffer_size')), Some message_idx)
    end.

(** ** The reader program *)

(** The [while (!PERSIMQ_is_empty(&mq))] loop of [main] in
    persimq_reader.c.  [printed] is the list of the messages printed so
    far, each one the first [mes_size] bytes of the 256-byte buffer.  The
    boolean is [false] when the program leaves through
    [exit(EXIT_FAILURE)]; [None] means that [fuel] turns were not enough. *)
Fixpoint reader_loop (fuel : nat) (mq : T_PERSIMQ) (f : file)
    (printed : list (list Z)) : option (bool * T_PERSIMQ * file * list (list Z)) :=
  match fuel with
  | O => None
  | S fuel' =>
      if PERSIMQ_is_empty mq then Some (true, mq, f, printed)
      else
        let '(ok, mq1, f1, buf, stored_size) := PERSIMQ_get mq f 256 true in
        let mes_size := match stored_size with Some n => n | None => 0 end in
        if negb ok then Some (false, mq1, f1, printed)
        else
          let printed := printed ++ [take (Z.to_nat mes_size) buf] in
          let '(ok, mq2, f2) := PERSIMQ_pop mq1 f1 in
          if negb ok then Some (false, mq2, f2, printed)
          else reader_loop fuel' mq2 f2 printed
  end.

(** [main] of persimq_reader.c once the options are parsed and the file
    found: [disk] is the contents of the file, whose length [stat] gives,
    [queue_clear] the option [-e] and [print_max] the option [-n]; [mq0]
    is the structure on the stack before [open] fills it.  The results
    are whether the program ends normally, the messages printed, and the
    contents of the file at the end. *)
Definition reader_main (mq0 : T_PERSIMQ) (disk : list Z) (queue_clear : bool)
    (print_max : Z) (fuel : nat) : option (bool * list (list Z) * list Z) :=
  let st_size := Z.of_nat (length disk) in
  let '(ok, mq, f) := PERSIMQ_open mq0 disk st_size in
  if negb ok then Some (false, [], f_data f)
  else
    match reader_loop fuel mq f [] with
    | None => None
    | Some (false, _, f1, printed) => Some (false, printed, f_data f1)
    | Some (true, mq1, f1, printed) =>
        let '(ok, f2) :=
          if queue_clear then PERSIMQ_close mq1 f1 else PERSIMQ_drop mq1 f1 in
        Some (ok, printed, f_data f2)
    end.

(** The message of the example program: [char message[] = "Test message !!!"],
    pushed with [sizeof(message)], that is with its terminator. *)
Definition example_message : list Z :=
  [84; 101; 115; 116; 32; 109; 101; 115; 115; 97; 103; 101; 32; 33; 33; 33; 0].

(** The 128-byte file a queue holding that one message is closed on: the
    file header (append pointer 70, extract pointer 45, 25 bytes, one
    message, size 128, checksum), the record at offset 45, and zeros. *)
Definition example_file : list Z :=
  [108; 80; 109; 81; 70; 0; 0; 0; 0; 0; 0; 0; 45; 0; 0; 0; 0; 0; 0; 0;
   25; 0; 0; 0; 0; 0; 0; 0; 1; 0; 0; 0; 0; 0; 0; 0; 128; 0; 0; 0; 0; 0;
   0; 0; 36]
  ++ [80; 77; 81; 4; 17; 0; 0; 0] ++ example_message ++ replicate 58 0.

(** The observation the specification compares [pop_n] and [clear] by:
    zero counts and the two pointers at the same place. *)
Definition emptied (mq : T_PERSIMQ) : Prop :=
  count_bytes mq = 0 /\ count_messages mq = 0 /\ append_ptr mq = extract_ptr mq.

(** When the specification lets [open] trust the header found in the
    first 45 bytes of the file: the magic tag matches, the stored checksum
    is the CRC8 of the 44 bytes before it, and the recorded file size is
    the requested size. *)
Definition header_trusted (bytes : list Z) (size : Z) : Prop :=
  take 4 bytes = FILE_ID
  /\ nth 44 bytes 0 = eval_crc8 (take 44 bytes)
  /\ le_decode (take 8 (drop 36 bytes)) = size.

(** An open handle and its file in a state the operations keep: the file
    has the configured size, which [open] accepted, both pointers are in
    the data region and the counts are within what the region can hold.
    The size leaves room for [extract_ptr + sizeof(header)] in an [off_t]. *)
Definition queue_ok (mq : T_PERSIMQ) (f : file) : Prop :=
  fd mq <> 0
  /\ sizeof_TFileHeader + sizeof_TMessageHeader + 1 < file_size mq
     <= OFF_MAX - sizeof_TMessageHeader
  /\ Z.of_nat (length (f_data f)) = file_size mq
  /\ wrap_lo_margin <= append_ptr mq < file_size mq
  /\ wrap_lo_margin <= extract_ptr mq < file_size mq
  /\ 0 <= count_bytes mq <= file_size mq - wrap_lo_margin
  /\ 0 <= count_messages mq < OFF_MAX.

(** ** The queue as a list of messages *)

(** A record as [push] lays it out: the message header, then the payload. *)
Definition record_bytes (m : list Z) : list Z :=
  TMessageHeader_bytes (push_header m) ++ m.

Definition record_size (m : list Z) : Z :=
  sizeof_TMessageHeader + Z.of_nat (length m).

Fixpoint records_size (msgs : list (list Z)) : Z :=
  match msgs with
  | [] => 0
  | m :: rest => record_size m + records_size rest
  end.

(** The records of [msgs] lie one after the other in the ring, from
    [offset] on. *)
Fixpoint records_at (contents : list Z) (hi offset : Z) (msgs : list (list Z))
  : Prop :=
  match msgs with
  | [] => True
  | m :: rest =>
      naive_read contents hi offset (length (record_bytes m)) = record_bytes m
      /\ records_at contents hi (offset_roll offset hi (record_size m)) rest
  end.

(** The handle and the file hold the messages [msgs], oldest first: the
    handle is in order, the counts are those of [msgs], the records lie in
    the ring from the extract pointer on and the append pointer is right
    behind them.  A payload has at least one byte and its length fits the
    32-bit length field. *)
Definition queue_holds (mq : T_PERSIMQ) (f : file) (msgs : list (list Z)) : Prop :=
  queue_ok mq f
  /\ Forall (fun m => 0 < Z.of_nat (length m) < 2 ^ 32) msgs
  /\ count_messages mq = Z.of_nat (length msgs)
  /\ count_bytes mq = records_size msgs
  /\ append_ptr mq
     = offset_roll (extract_ptr mq) (file_size mq) (records_size msgs)
  /\ records_at (f_data f) (file_size mq) (extract_ptr mq) msgs.

(** The sum of the payload lengths. *)
Fixpoint payload_size (msgs : list (list Z)) : Z :=
  match msgs with
  | [] => 0
  | m :: rest => Z.of_nat (length m) + payload_size rest
  end.

(** ** Machine integer facts *)

Lemma u64_range z : 0 <= u64 z < 2 ^ 64.
Proof. unfold u64. apply Z.mod_pos_bound. lia. Qed.

Lemma u64_id z : 0 <= z < 2 ^ 64 -> u64 z = z.
Proof. intros H. unfold u64. apply Z.mod_small. exact H. Qed.

Lemma s64_id z : - 2 ^ 63 <= z < 2 ^ 63 -> s64 z = z.
Proof. intros H. unfold s64. rewrite Z.mod_small; lia. Qed.

Lemma s64_range z : - 2 ^ 63 <= s64 z < 2 ^ 63.
Proof.
  unfold s64. pose proof (Z.mod_pos_bound (z + 2 ^ 63) (2 ^ 64)) as H. lia.
Qed.

(** ** On-disk record facts *)

Lemma le_encode_length (n : nat) : forall z, length (le_encode n z) = n.
Proof.
  induction n as [| n IH]; intros z; simpl; [reflexivity |].
  rewrite IH. reflexivity.
Qed.

Lemma le_decode_encode (n : nat) : forall z,
  0 <= z < 256 ^ Z.of_nat n -> le_decode (le_encode n z) = z.
Proof.
  induction n as [| n IH]; intros z Hz.
  - change (256 ^ Z.of_nat 0) with 1 in Hz. cbn [le_encode le_decode]. lia.
  - cbn [le_encode le_decode].
    rewrite IH.
    + pose proof (Z.div_mod z 256 ltac:(lia)). lia.
    + rewrite Nat2Z.inj_succ, Z.pow_succ_r in Hz by lia.
      split; [apply Z.div_pos; lia |].
      apply Z.div_lt_upper_bound; lia.
Qed.

Lemma TFileHeader_bytes_length h : length (TFileHeader_bytes h) = 45%nat.
Proof.
  unfold TFileHeader_bytes.
  rewrite !length_app, length_take, !length_app, length_replicate, !le_encode_length.
  cbn [length]. lia.
Qed.

Lemma TMessageHeader_bytes_length h : length (TMessageHeader_bytes h) = 8%nat.
Proof.
  unfold TMessageHeader_bytes.
  rewrite !length_app, length_take, !length_app, length_replicate, !le_encode_length.
  cbn [length]. lia.
Qed.

Lemma TFileHeader_of_bytes_proj (bytes : list Z) :
  fh_ID (TFileHeader_of_bytes bytes) = take 4 bytes
  /\ fh_append_ptr (TFileHeader_of_bytes bytes) = le_decode (take 8 (drop 4 bytes))
  /\ fh_extract_ptr (TFileHeader_of_bytes bytes) = le_decode (take 8 (drop 12 bytes))
  /\ fh_count_bytes (TFileHeader_of_bytes bytes) = le_decode (take 8 (drop 20 bytes))
  /\ fh_count_messages (TFileHeader_of_bytes bytes)
     = le_decode (take 8 (drop 28 bytes))
  /\ fh_file_size (TFileHeader_of_bytes bytes) = le_decode (take 8 (drop 36 bytes))
  /\ fh_crc (TFileHeader_of_bytes bytes) = nth 44 bytes 0.
Proof. repeat split. Qed.

Lemma TFileHeader_roundtrip (h : TFileHeader) :
  length (fh_ID h) = 4%nat ->
  0 <= fh_append_ptr h < 2 ^ 64 ->
  0 <= fh_extract_ptr h < 2 ^ 64 ->
  0 <= fh_count_bytes h < 2 ^ 64 ->
  0 <= fh_count_messages h < 2 ^ 64 ->
  0 <= fh_file_size h < 2 ^ 64 ->
  TFileHeader_of_bytes (TFileHeader_bytes h) = h.
Proof.
  destruct h as [ID a e cb cm fs crc].
  cbn [fh_ID fh_append_ptr fh_extract_ptr fh_count_bytes fh_count_messages fh_file_size].
  intros HID Ha He Hcb Hcm Hfs.
  destruct ID as [| i0 [| i1 [| i2 [| i3 [| ? ?]]]]]; try discriminate HID.
  unfold TFileHeader_of_bytes, TFileHeader_bytes.
  cbn [fh_ID fh_append_ptr fh_extract_ptr fh_count_bytes fh_count_messages
       fh_file_size fh_crc app take drop nth le_encode replicate].
  f_equal; apply (le_decode_encode 8); assumption.
Qed.

(** The 44 bytes the checksum covers do not depend on the checksum field. *)
Lemma TFileHeader_bytes_crc (ID : list Z) (a e cb cm fs crc crc' : Z) :
  take 44 (TFileHeader_bytes (mkFileHeader ID a e cb cm fs crc))
  = take 44 (TFileHeader_bytes (mkFileHeader ID a e cb cm fs crc')).
Proof.
  unfold TFileHeader_bytes.
  cbn [fh_ID fh_append_ptr fh_extract_ptr fh_count_bytes fh_count_messages
       fh_file_size fh_crc].
  rewrite !app_assoc.
  rewrite !(take_app_le _ [_])
    by (rewrite !length_app, length_take, !length_app, length_replicate,
          !le_encode_length; lia).
  reflexivity.
Qed.

Lemma TMessageHeader_roundtrip (h : TMessageHeader) :
  length (mh_ID h) = 3%nat ->
  0 <= mh_message_size h < 2 ^ 32 ->
  TMessageHeader_of_bytes (TMessageHeader_bytes h) = h.
Proof.
  destruct h as [ID crc size]. cbn [mh_ID mh_message_size].
  intros HID Hsize.
  destruct ID as [| i0 [| i1 [| i2 [| ? ?]]]]; try discriminate HID.
  unfold TMessageHeader_of_bytes, TMessageHeader_bytes.
  cbn [mh_ID mh_message_crc mh_message_size app take drop nth le_encode replicate].
  f_equal. apply (le_decode_encode 4). assumption.
Qed.

Lemma strncmp_FILE_ID (s : list Z) :
  strncmp s FILE_ID 4 = 0 <-> take 4 s = FILE_ID.
Proof.
  unfold FILE_ID.
  destruct s as [| a [| b [| c [| d s]]]]; cbn;
    repeat match goal with
           | |- context [?x =? ?y] => destruct (Z.eqb_spec x y); subst; cbn
           end;
    split; intros H; try reflexivity; try discriminate H; try lia; congruence.
Qed.

Lemma memcmp_MESSAGE_ID (s : list Z) :
  memcmp s MESSAGE_ID 3 = 0 <-> take 3 s = MESSAGE_ID.
Proof.
  unfold MESSAGE_ID.
  destruct s as [| a [| b [| c s]]]; cbn;
    repeat match goal with
           | |- context [?x =? ?y] => destruct (Z.eqb_spec x y); subst; cbn
           end;
    split; intros H; try reflexivity; try discriminate H; try lia; congruence.
Qed.

(** ** Backing file facts *)

Lemma overwrite_length old (p : nat) chunk :
  (p + length chunk <= length old)%nat ->
  length (overwrite old p chunk) = length old.
Proof.
  intros H. unfold overwrite.
  rewrite !length_app, length_take, length_replicate, length_drop. lia.
Qed.

Lemma lookup_overwrite old (p : nat) chunk (i : nat) :
  (p + length chunk <= length old)%nat ->
  overwrite old p chunk !! i
  = if decide (p <= i < p + length chunk)%nat then chunk !! (i - p)%nat else old !! i.
Proof.
  intros H. unfold overwrite.
  replace (p - length old)%nat with 0%nat by lia. simpl.
  destruct (decide (i < p)%nat) as [Hlt | Hge].
  - rewrite lookup_app_l by (rewrite length_take; lia).
    rewrite lookup_take_lt by lia.
    case_decide; [lia | reflexivity].
  - rewrite lookup_app_r by (rewrite length_take; lia).
    rewrite length_take. replace (p `min` length old)%nat with p by lia.
    destruct (decide (i < p + length chunk)%nat) as [Hin | Hout].
    + rewrite lookup_app_l by lia. case_decide; [reflexivity | lia].
    + rewrite lookup_app_r by lia. rewrite lookup_drop.
      case_decide; [lia |]. f_equal. lia.
Qed.

Lemma overwrite_nil old (p : nat) :
  (p <= length old)%nat -> overwrite old p [] = old.
Proof.
  intros H. unfold overwrite.
  replace (p - length old)%nat with 0%nat by lia. simpl.
  rewrite Nat.add_0_r. apply take_drop.
Qed.

Lemma overwrite_cons old (p : nat) b chunk :
  (p + S (length chunk) <= length old)%nat ->
  overwrite old p (b :: chunk) = overwrite (<[p := b]> old) (S p) chunk.
Proof.
  intros H. apply list_eq. intros i.
  rewrite !lookup_overwrite by (rewrite ?length_insert; simpl; lia).
  simpl length.
  destruct (decide (i = p)) as [-> | Hne].
  - rewrite Nat.sub_diag. simpl.
    repeat case_decide; try lia.
    rewrite list_lookup_insert_eq by lia. reflexivity.
  - rewrite list_lookup_insert_ne by lia.
    repeat case_decide; try lia; try reflexivity.
    replace (i - p)%nat with (S (i - S p)) by lia. reflexivity.
Qed.

(** Reading back a block that was written, and reading beside it. *)
Lemma take_drop_overwrite_same old (p : nat) chunk :
  (p + length chunk <= length old)%nat ->
  take (length chunk) (drop p (overwrite old p chunk)) = chunk.
Proof.
  intros H. apply list_eq. intros i.
  destruct (decide (i < length chunk)%nat) as [Hi | Hi].
  - rewrite lookup_take_lt, lookup_drop, lookup_overwrite by lia.
    case_decide; [| lia]. f_equal. lia.
  - rewrite lookup_take_ge by lia. symmetry. apply lookup_ge_None. lia.
Qed.

Lemma take_drop_overwrite_other old (p : nat) chunk (q n : nat) :
  (p + length chunk <= length old)%nat ->
  (q + n <= p \/ p + length chunk <= q)%nat ->
  take n (drop q (overwrite old p chunk)) = take n (drop q old).
Proof.
  intros H Hdisjoint. apply list_eq. intros i.
  destruct (decide (i < n)%nat) as [Hi | Hi].
  - rewrite !lookup_take_lt, !lookup_drop, lookup_overwrite by lia.
    case_decide; [lia | reflexivity].
  - rewrite !lookup_take_ge by lia. reflexivity.
Qed.

(** A read inside the file returns all the bytes asked for. *)
Lemma os_read_inside f count :
  0 <= f_pos f -> 0 <= count ->
  f_pos f + count <= Z.of_nat (length (f_data f)) ->
  os_read f count
  = (count,
     take (Z.to_nat count) (drop (Z.to_nat (f_pos f)) (f_data f)),
     mkFile (f_data f) (f_pos f + count)).
Proof.
  intros Hpos Hcount Hin. unfold os_read.
  rewrite length_take, length_drop.
  replace (Z.of_nat (Z.to_nat count `min` (length (f_data f) - Z.to_nat (f_pos f))))
    with count by lia.
  reflexivity.
Qed.

(** The retry loop reads a non-empty span inside the file in one turn. *)
Lemma multiread_inside f data length :
  0 <= f_pos f -> 0 < length ->
  f_pos f + length <= Z.of_nat (List.length (f_data f)) ->
  multiread f data length
  = (true,
     mkFile (f_data f) (f_pos f + length),
     take (Z.to_nat length) (drop (Z.to_nat (f_pos f)) (f_data f))).
Proof.
  intros Hpos Hlen Hin. unfold multiread. cbn [multiread_loop].
  rewrite os_read_inside by lia.
  destruct (Z.leb_spec length 0) as [? | _]; [lia |].
  rewrite Z.sub_diag. reflexivity.
Qed.

(** A read of no bytes makes [read] return 0, which the loop takes for a
    failure. *)
Lemma multiread_zero f data :
  multiread f data 0 = (false, mkFile (f_data f) (f_pos f + 0), []).
Proof. reflexivity. Qed.

Lemma os_write_inside f buf count :
  0 < count <= Z.of_nat (length buf) ->
  os_write f buf count
  = (count,
     mkFile (overwrite (f_data f) (Z.to_nat (f_pos f)) (take (Z.to_nat count) buf))
            (f_pos f + count)).
Proof.
  intros Hcount. unfold os_write.
  rewrite length_take.
  replace (Z.of_nat (Z.to_nat count `min` length buf)) with count by lia.
  destruct (Z.eqb_spec count 0) as [? | _]; [lia | reflexivity].
Qed.

(** The retry loop writes a non-empty span in one turn. *)
Lemma multiwrite_inside f data length :
  0 < length <= Z.of_nat (List.length data) ->
  multiwrite f data length
  = (true,
     mkFile (overwrite (f_data f) (Z.to_nat (f_pos f)) (take (Z.to_nat length) data))
            (f_pos f + length),
     data).
Proof.
  intros Hlen. unfold multiwrite. cbn [multiwrite_loop].
  rewrite os_write_inside by lia.
  destruct (Z.leb_spec length 0) as [? | _]; [lia |].
  rewrite Z.sub_diag. reflexivity.
Qed.

Lemma multiwrite_zero f data :
  multiwrite f data 0 = (false, f, data).
Proof. reflexivity. Qed.

(** The retry loops never run out of turns: every turn that goes on has
    moved at least one byte, so with more turns than bytes asked for one
    turn more changes nothing. *)
Lemma multiread_loop_fuel (fuel : nat) : forall f data length,
  0 <= length < 2 ^ 64 ->
  (Z.to_nat length < fuel)%nat ->
  multiread_loop (S fuel) f data length = multiread_loop fuel f data length.
Proof.
  induction fuel as [| fuel IH]; intros f data length Hlen Hfuel; [lia |].
  change (multiread_loop (S (S fuel)) f data length)
    with (let '(result, chunk, f') := os_read f length in
          if result <=? 0 then (false, f', data)
          else
            let length' := u64 (length - result) in
            let data' := data ++ chunk in
            if length' =? 0 then (true, f', data')
            else multiread_loop (S fuel) f' data' length').
  change (multiread_loop (S fuel) f data length)
    with (let '(result, chunk, f') := os_read f length in
          if result <=? 0 then (false, f', data)
          else
            let length' := u64 (length - result) in
            let data' := data ++ chunk in
            if length' =? 0 then (true, f', data')
            else multiread_loop fuel f' data' length').
  unfold os_read.
  set (chunk := take (Z.to_nat length) (drop (Z.to_nat (f_pos f)) (f_data f))).
  assert (Hchunk : Z.of_nat (List.length chunk) <= length)
    by (unfold chunk; rewrite length_take; lia).
  destruct (Z.leb_spec (Z.of_nat (List.length chunk)) 0); [reflexivity |].
  cbv zeta.
  rewrite (u64_id (length - Z.of_nat (List.length chunk))) by lia.
  destruct (Z.eqb_spec (length - Z.of_nat (List.length chunk)) 0); [reflexivity |].
  apply IH; lia.
Qed.

Lemma multiwrite_loop_fuel (fuel : nat) : forall f data length,
  0 <= length < 2 ^ 64 ->
  (Z.to_nat length < fuel)%nat ->
  multiwrite_loop (S fuel) f data length = multiwrite_loop fuel f data length.
Proof.
  induction fuel as [| fuel IH]; intros f data length Hlen Hfuel; [lia |].
  change (multiwrite_loop (S (S fuel)) f data length)
    with (let '(result, f') := os_write f data length in
          if result <=? 0 then (false, f')
          else
            let length' := u64 (length - result) in
            if length' =? 0 then (true, f')
            else multiwrite_loop (S fuel) f' (drop (Z.to_nat result) data) length').
  change (multiwrite_loop (S fuel) f data length)
    with (let '(result, f') := os_write f data length in
          if result <=? 0 then (false, f')
          else
            let length' := u64 (length - result) in
            if length' =? 0 then (true, f')
            else multiwrite_loop fuel f' (drop (Z.to_nat result) data) length').
  unfold os_write.
  set (chunk := take (Z.to_nat length) data).
  assert (Hchunk : Z.of_nat (List.length chunk) <= length)
    by (unfold chunk; rewrite length_take; lia).
  destruct (Z.eqb_spec (Z.of_nat (List.length chunk)) 0) as [Hz | Hnz]; [reflexivity |].
  destruct (Z.leb_spec (Z.of_nat (List.length chunk)) 0); [reflexivity |].
  cbv zeta.
  rewrite (u64_id (length - Z.of_nat (List.length chunk))) by lia.
  destruct (Z.eqb_spec (length - Z.of_nat (List.length chunk)) 0); [reflexivity |].
  apply IH; lia.
Qed.

Lemma s64_u64 z : - 2 ^ 63 <= z < 2 ^ 63 -> s64 (u64 z) = z.
Proof.
  intros H. unfold s64, u64.
  rewrite Zplus_mod_idemp_l. rewrite Z.mod_small; lia.
Qed.

(** ** Address mapper facts *)

(** The closed form of [offset_roll] on offsets inside the file. *)
Lemma offset_roll_in_region c hi inc :
  wrap_lo_margin <= c <= OFF_MAX ->
  wrap_lo_margin < hi <= OFF_MAX ->
  0 <= inc -> c - wrap_lo_margin + inc < 2 ^ 64 ->
  offset_roll c hi inc
  = wrap_lo_margin + (c - wrap_lo_margin + inc) mod (hi - wrap_lo_margin).
Proof.
  unfold offset_roll, wrap_lo_margin, sizeof_TFileHeader, OFF_MAX.
  intros Hc Hhi Hinc Hsum.
  destruct (Z.ltb_spec c 45) as [Hlt | _]; [lia |].
  rewrite (s64_id (c - 45)) by lia.
  rewrite (s64_id (hi - 45)) by lia.
  rewrite (u64_id (c - 45)) by lia.
  rewrite (u64_id (c - 45 + inc)) by lia.
  rewrite (u64_id (hi - 45)) by lia.
  rewrite (u64_id 45) by lia.
  pose proof (Z.mod_pos_bound (c - 45 + inc) (hi - 45)) as Hm.
  rewrite u64_id by lia.
  rewrite s64_id by lia.
  lia.
Qed.

(** The closed form of [offset_roll] on offsets below the data region: the
    sub-offset is [wrap_lo_margin] itself, not zero. *)
Lemma offset_roll_below c hi inc :
  c < wrap_lo_margin ->
  wrap_lo_margin < hi <= OFF_MAX ->
  0 <= inc -> wrap_lo_margin + inc < 2 ^ 64 ->
  offset_roll c hi inc
  = wrap_lo_margin + (wrap_lo_margin + inc) mod (hi - wrap_lo_margin).
Proof.
  unfold offset_roll, wrap_lo_margin, sizeof_TFileHeader, OFF_MAX.
  intros Hc Hhi Hinc Hsum.
  destruct (Z.ltb_spec c 45) as [_ | Hge]; [| lia].
  rewrite (s64_id (hi - 45)) by lia.
  rewrite (u64_id 45) by lia.
  rewrite (u64_id (45 + inc)) by lia.
  rewrite (u64_id (hi - 45)) by lia.
  pose proof (Z.mod_pos_bound (45 + inc) (hi - 45)) as Hm.
  rewrite u64_id by lia.
  rewrite s64_id by lia.
  lia.
Qed.

(** On offsets at or above the start of the data region the code computes
    what the specification says. *)
Lemma offset_roll_advance_spec c hi inc :
  wrap_lo_margin <= c <= OFF_MAX ->
  wrap_lo_margin < hi <= OFF_MAX ->
  0 <= inc -> c - wrap_lo_margin + inc < 2 ^ 64 ->
  offset_roll c hi inc = advance_spec c hi inc.
Proof.
  intros Hc Hhi Hinc Hsum.
  rewrite offset_roll_in_region by assumption.
  unfold advance_spec. rewrite Z.max_l by lia. reflexivity.
Qed.

(** [offset_roll] stays inside the data region whatever it is given. *)
Lemma offset_roll_range c hi inc :
  wrap_lo_margin < hi <= OFF_MAX ->
  wrap_lo_margin <= offset_roll c hi inc < hi.
Proof.
  unfold offset_roll, wrap_lo_margin, sizeof_TFileHeader, OFF_MAX.
  intros Hhi.
  rewrite (s64_id (hi - 45)) by lia.
  rewrite (u64_id (hi - 45)) by lia.
  rewrite (u64_id 45) by lia.
  match goal with
  | |- context [u64 (?a mod ?b)] =>
      pose proof (Z.mod_pos_bound a b ltac:(lia)) as Hm;
      rewrite (u64_id (a mod b)) by lia
  end.
  rewrite s64_id by lia.
  lia.
Qed.

(** A zero increment leaves an offset of the data region where it is. *)
Lemma offset_roll_0_id c hi :
  wrap_lo_margin < hi <= OFF_MAX ->
  wrap_lo_margin <= c < hi ->
  offset_roll c hi 0 = c.
Proof.
  intros Hhi Hc.
  rewrite offset_roll_in_region; unfold OFF_MAX, wrap_lo_margin, sizeof_TFileHeader in *;
    try lia.
  rewrite Z.add_0_r, Z.mod_small by lia. lia.
Qed.

Lemma offset_roll_0_idemp c hi :
  wrap_lo_margin < hi <= OFF_MAX ->
  offset_roll (offset_roll c hi 0) hi 0 = offset_roll c hi 0.
Proof.
  intros Hhi. apply offset_roll_0_id; [assumption |].
  apply offset_roll_range. assumption.
Qed.

(** ** The ring *)

Lemma ring_next_range hi off :
  wrap_lo_margin < hi -> wrap_lo_margin <= off < hi ->
  wrap_lo_margin <= ring_next hi off < hi.
Proof.
  intros Hhi Hoff. unfold ring_next.
  destruct (Z.ltb_spec (off + 1) hi); lia.
Qed.

Lemma ring_advance_range hi k : forall off,
  wrap_lo_margin < hi -> wrap_lo_margin <= off < hi ->
  wrap_lo_margin <= ring_advance hi off k < hi.
Proof.
  induction k as [| k IH]; intros off Hhi Hoff; simpl; [assumption |].
  apply IH; [assumption |]. apply ring_next_range; assumption.
Qed.

Lemma ring_advance_inside hi k : forall off,
  off + Z.of_nat k < hi -> ring_advance hi off k = off + Z.of_nat k.
Proof.
  induction k as [| k IH]; intros off H; simpl ring_advance; [lia |].
  unfold ring_next. destruct (Z.ltb_spec (off + 1) hi); [| lia].
  rewrite IH by lia. lia.
Qed.

Lemma ring_advance_to_end hi (k : nat) off :
  (0 < k)%nat -> off + Z.of_nat k = hi ->
  ring_advance hi off k = wrap_lo_margin.
Proof.
  intros Hk H.
  destruct k as [| k]; [lia |].
  revert off H. clear Hk.
  induction k as [| k IH]; intros off H.
  - simpl. unfold ring_next. destruct (Z.ltb_spec (off + 1) hi); [lia | reflexivity].
  - change (ring_advance hi off (S (S k)))
      with (ring_advance hi (ring_next hi off) (S k)).
    unfold ring_next at 1. destruct (Z.ltb_spec (off + 1) hi); [| lia].
    apply IH. lia.
Qed.

(** Stepping through the ring byte by byte is what [offset_roll] computes
    in one go. *)
Lemma ring_advance_offset_roll hi (k : nat) : forall off,
  wrap_lo_margin < hi <= OFF_MAX ->
  wrap_lo_margin <= off < hi ->
  Z.of_nat k <= OFF_MAX ->
  ring_advance hi off k = offset_roll off hi (Z.of_nat k).
Proof.
  induction k as [| k IH]; intros off Hhi Hoff Hk.
  - simpl. symmetry. apply offset_roll_0_id; assumption.
  - simpl ring_advance.
    pose proof (ring_next_range hi off ltac:(lia) Hoff) as Hnext.
    rewrite IH by lia.
    rewrite !offset_roll_in_region;
      unfold OFF_MAX, wrap_lo_margin, sizeof_TFileHeader in *; try lia.
    f_equal. unfold ring_next, wrap_lo_margin, sizeof_TFileHeader.
    destruct (Z.ltb_spec (off + 1) hi) as [Hin | Hend].
    + f_equal; lia.
    + replace (off - 45 + Z.of_nat (S k)) with (Z.of_nat k + 1 * (hi - 45)) by lia.
      rewrite Z.mod_add by lia. f_equal; lia.
Qed.

Lemma naive_write_length data : forall contents hi off,
  length (naive_write contents hi off data) = length contents.
Proof.
  induction data as [| b data IH]; intros contents hi off; simpl; [reflexivity |].
  rewrite IH. apply length_insert.
Qed.

(** Inside the region the ring transfer is a plain block transfer. *)
Lemma naive_write_inside hi data : forall contents off,
  0 <= off -> off + Z.of_nat (length data) <= hi ->
  hi <= Z.of_nat (length contents) ->
  naive_write contents hi off data = overwrite contents (Z.to_nat off) data.
Proof.
  induction data as [| b data IH]; intros contents off Hoff Hin Hlen.
  - simpl. symmetry. apply overwrite_nil. lia.
  - simpl naive_write. simpl length in Hin.
    rewrite overwrite_cons by (simpl; lia).
    destruct data as [| b' data'].
    + simpl. symmetry. apply overwrite_nil. rewrite length_insert. lia.
    + unfold ring_next. simpl length in Hin.
      destruct (Z.ltb_spec (off + 1) hi); [| lia].
      rewrite IH by (rewrite ?length_insert; simpl length; lia).
      f_equal. lia.
Qed.

Lemma naive_write_app hi d1 : forall contents off d2,
  naive_write contents hi off (d1 ++ d2)
  = naive_write (naive_write contents hi off d1) hi
                (ring_advance hi off (length d1)) d2.
Proof.
  induction d1 as [| b d1 IH]; intros contents off d2; simpl; [reflexivity |].
  apply IH.
Qed.

Lemma naive_read_inside hi (n : nat) : forall contents off,
  0 <= off -> off + Z.of_nat n <= hi ->
  hi <= Z.of_nat (length contents) ->
  naive_read contents hi off n = take n (drop (Z.to_nat off) contents).
Proof.
  induction n as [| n IH]; intros contents off Hoff Hin Hlen; [reflexivity |].
  simpl naive_read.
  destruct (lookup_lt_is_Some_2 contents (Z.to_nat off) ltac:(lia)) as [b Hb].
  rewrite Hb.
  rewrite (drop_S _ _ _ Hb). simpl take. f_equal.
  destruct n as [| n'].
  - rewrite take_0. reflexivity.
  - unfold ring_next. destruct (Z.ltb_spec (off + 1) hi); [| lia].
    rewrite IH by lia. do 2 f_equal. lia.
Qed.

Lemma naive_read_app hi (n1 : nat) : forall contents off (n2 : nat),
  wrap_lo_margin < hi -> wrap_lo_margin <= off < hi ->
  hi <= Z.of_nat (length contents) ->
  naive_read contents hi off (n1 + n2)
  = naive_read contents hi off n1
    ++ naive_read contents hi (ring_advance hi off n1) n2.
Proof.
  induction n1 as [| n1 IH]; intros contents off n2 Hhi Hoff Hlen; [reflexivity |].
  simpl.
  assert (0 <= wrap_lo_margin) by (unfold wrap_lo_margin, sizeof_TFileHeader; lia).
  destruct (lookup_lt_is_Some_2 contents (Z.to_nat off) ltac:(lia)) as [b Hb].
  rewrite Hb. simpl. f_equal.
  apply IH; [assumption | | assumption].
  apply ring_next_range; assumption.
Qed.

Lemma naive_read_length hi (n : nat) : forall contents off,
  wrap_lo_margin < hi -> wrap_lo_margin <= off < hi ->
  hi <= Z.of_nat (length contents) ->
  length (naive_read contents hi off n) = n.
Proof.
  induction n as [| n IH]; intros contents off Hhi Hoff Hlen; [reflexivity |].
  simpl.
  assert (0 <= wrap_lo_margin) by (unfold wrap_lo_margin, sizeof_TFileHeader; lia).
  destruct (lookup_lt_is_Some_2 contents (Z.to_nat off) ltac:(lia)) as [b Hb].
  rewrite Hb. simpl. f_equal.
  apply IH; [assumption | | assumption].
  apply ring_next_range; assumption.
Qed.

(** ** Wrapped I/O facts *)

Lemma os_lseek_ok f offset :
  0 <= offset -> os_lseek f offset = (offset, mkFile (f_data f) offset).
Proof.
  intros H. unfold os_lseek.
  destruct (Z.ltb_spec offset 0); [lia | reflexivity].
Qed.

(** A transfer as long as the data region or longer is refused before any
    system call. *)
Lemma wrapped_io_too_long f data length offset hi do_write :
  wrap_lo_margin < hi <= OFF_MAX ->
  hi - wrap_lo_margin <= length ->
  wrapped_io f data length offset hi do_write = (false, f, data, None).
Proof.
  intros Hhi Hlen. unfold wrapped_io.
  rewrite (u64_id (hi - wrap_lo_margin))
    by (unfold OFF_MAX, wrap_lo_margin, sizeof_TFileHeader in *; lia).
  destruct (Z.leb_spec (hi - wrap_lo_margin) length); [reflexivity | lia].
Qed.

Lemma wrapped_io_write f data n offset hi :
  wrap_lo_margin < hi <= OFF_MAX ->
  Z.of_nat (length (f_data f)) = hi ->
  n = Z.of_nat (length data) ->
  0 < n < hi - wrap_lo_margin ->
  exists pos,
    wrapped_io f data n offset hi true
    = (true,
       mkFile (wrapped_blocks (f_data f) hi (offset_roll offset hi 0) data) pos,
       data,
       Some (offset_roll (offset_roll offset hi 0) hi n)).
Proof.
  intros Hhi Hsize -> Hlen.
  pose proof (offset_roll_range offset hi 0 Hhi) as Hoff.
  unfold wrapped_io, wrapped_blocks.
  set (off := offset_roll offset hi 0) in *.
  assert (Hlo : wrap_lo_margin = 45) by reflexivity.
  unfold OFF_MAX in Hhi.
  rewrite (u64_id (hi - wrap_lo_margin)) by lia.
  rewrite (u64_id (hi - off)) by lia.
  destruct (Z.leb_spec (hi - wrap_lo_margin) (Z.of_nat (length data))); [lia |].
  destruct (Z.leb_spec (Z.of_nat (length data)) (hi - off)) as [Hone | Htwo].
  - rewrite os_lseek_ok by lia.
    rewrite multiwrite_inside by lia.
    cbn [f_data f_pos].
    rewrite Nat2Z.id, firstn_all.
    destruct (Z.leb_spec 0 off); [| lia].
    eexists. reflexivity.
  - rewrite os_lseek_ok by lia.
    rewrite multiwrite_inside by lia.
    cbn [f_data f_pos].
    rewrite os_lseek_ok by lia.
    rewrite (u64_id (Z.of_nat (length data) - (hi - off))) by lia.
    rewrite multiwrite_inside by (rewrite length_drop; lia).
    cbn [f_data f_pos].
    rewrite (take_ge (drop _ _)) by (rewrite length_drop; lia).
    destruct (Z.leb_spec 0 off); [| lia].
    destruct (Z.leb_spec 0 wrap_lo_margin); [| lia].
    eexists. reflexivity.
Qed.

Lemma wrapped_io_read f data length offset hi :
  wrap_lo_margin < hi <= OFF_MAX ->
  Z.of_nat (List.length (f_data f)) = hi ->
  0 < length < hi - wrap_lo_margin ->
  exists pos,
    wrapped_io f data length offset hi false
    = (true,
       mkFile (f_data f) pos,
       wrapped_read (f_data f) hi (offset_roll offset hi 0) (Z.to_nat length),
       Some (offset_roll (offset_roll offset hi 0) hi length)).
Proof.
  intros Hhi Hsize Hlen.
  pose proof (offset_roll_range offset hi 0 Hhi) as Hoff.
  unfold wrapped_io, wrapped_read.
  set (off := offset_roll offset hi 0) in *.
  assert (Hlo : wrap_lo_margin = 45) by reflexivity.
  unfold OFF_MAX in Hhi.
  rewrite (u64_id (hi - wrap_lo_margin)) by lia.
  rewrite (u64_id (hi - off)) by lia.
  rewrite Z2Nat.id by lia.
  destruct (Z.leb_spec (hi - wrap_lo_margin) length); [lia |].
  destruct (Z.leb_spec length (hi - off)) as [Hone | Htwo].
  - rewrite os_lseek_ok by lia.
    rewrite multiread_inside by (cbn [f_data f_pos]; lia).
    cbn [f_data f_pos].
    destruct (Z.leb_spec 0 off); [| lia].
    eexists. reflexivity.
  - rewrite os_lseek_ok by lia.
    rewrite multiread_inside by (cbn [f_data f_pos]; lia).
    cbn [f_data f_pos].
    rewrite os_lseek_ok by lia.
    rewrite (u64_id (length - (hi - off))) by lia.
    rewrite multiread_inside by (cbn [f_data f_pos]; lia).
    cbn [f_data f_pos].
    destruct (Z.leb_spec 0 off); [| lia].
    destruct (Z.leb_spec 0 wrap_lo_margin); [| lia].
    replace (Z.to_nat (length - (hi - off)))
      with (Z.to_nat length - Z.to_nat (hi - off))%nat by lia.
    eexists. reflexivity.
Qed.

(** The blocks are what the byte-by-byte transfer over the ring leaves. *)
Lemma wrapped_blocks_naive contents hi off data :
  wrap_lo_margin < hi ->
  Z.of_nat (length contents) = hi ->
  wrap_lo_margin <= off < hi ->
  Z.of_nat (length data) <= hi - wrap_lo_margin ->
  wrapped_blocks contents hi off data = naive_write contents hi off data.
Proof.
  intros Hhi Hsize Hoff Hlen.
  assert (Hlo : wrap_lo_margin = 45) by reflexivity.
  unfold wrapped_blocks.
  destruct (Z.leb_spec (Z.of_nat (length data)) (hi - off)) as [Hone | Htwo].
  - symmetry. apply naive_write_inside; lia.
  - rewrite <- (take_drop (Z.to_nat (hi - off)) data) at 3.
    rewrite naive_write_app.
    rewrite length_take.
    rewrite ring_advance_to_end by lia.
    rewrite (naive_write_inside hi (take _ data)) by (rewrite ?length_take; lia).
    rewrite naive_write_inside;
      rewrite ?overwrite_length; rewrite ?length_drop, ?length_take; try lia.
    reflexivity.
Qed.

Lemma wrapped_read_naive contents hi off (n : nat) :
  wrap_lo_margin < hi ->
  Z.of_nat (length contents) = hi ->
  wrap_lo_margin <= off < hi ->
  Z.of_nat n <= hi - wrap_lo_margin ->
  wrapped_read contents hi off n = naive_read contents hi off n.
Proof.
  intros Hhi Hsize Hoff Hlen.
  assert (Hlo : wrap_lo_margin = 45) by reflexivity.
  unfold wrapped_read.
  destruct (Z.leb_spec (Z.of_nat n) (hi - off)) as [Hone | Htwo].
  - symmetry. apply naive_read_inside; lia.
  - pose proof (naive_read_app hi (Z.to_nat (hi - off)) contents off
                                (n - Z.to_nat (hi - off))
                                ltac:(lia) ltac:(lia) ltac:(lia)) as Happ.
    replace (Z.to_nat (hi - off) + (n - Z.to_nat (hi - off)))%nat with n in Happ by lia.
    rewrite Happ.
    rewrite ring_advance_to_end by lia.
    rewrite !naive_read_inside by lia.
    reflexivity.
Qed.

(** Reading back the span that was written returns the data, as long as
    the data are not longer than the region. *)
Lemma wrapped_read_blocks contents hi off data :
  wrap_lo_margin < hi ->
  Z.of_nat (length contents) = hi ->
  wrap_lo_margin <= off < hi ->
  Z.of_nat (length data) <= hi - wrap_lo_margin ->
  wrapped_read (wrapped_blocks contents hi off data) hi off (length data) = data.
Proof.
  intros Hhi Hsize Hoff Hlen.
  assert (Hlo : wrap_lo_margin = 45) by reflexivity.
  unfold wrapped_read, wrapped_blocks.
  destruct (Z.leb_spec (Z.of_nat (length data)) (hi - off)) as [Hone | Htwo].
  - apply list_eq. intros i.
    destruct (decide (i < length data)%nat) as [Hi | Hi].
    + rewrite lookup_take_lt, lookup_drop, lookup_overwrite by lia.
      case_decide; [| lia]. f_equal. lia.
    + rewrite lookup_take_ge by lia. symmetry. apply lookup_ge_None. lia.
  - set (k := Z.to_nat (hi - off)).
    transitivity (take k data ++ drop k data); [| apply take_drop].
    f_equal.
    + apply list_eq. intros i.
      destruct (decide (i < k)%nat) as [Hi | Hi].
      * rewrite !lookup_take_lt, lookup_drop by lia.
        rewrite !lookup_overwrite
          by (rewrite ?overwrite_length; rewrite ?length_take, ?length_drop; lia).
        rewrite length_drop, length_take.
        repeat case_decide; try lia.
        rewrite lookup_take_lt by lia. f_equal. lia.
      * rewrite !lookup_take_ge by lia. reflexivity.
    + apply list_eq. intros i.
      destruct (decide (i < length data - k)%nat) as [Hi | Hi].
      * rewrite lookup_take_lt, !lookup_drop by lia.
        rewrite lookup_overwrite
          by (rewrite ?overwrite_length; rewrite ?length_take, ?length_drop; lia).
        rewrite length_drop.
        case_decide; [| lia].
        rewrite lookup_drop. f_equal. lia.
      * rewrite lookup_take_ge by lia. symmetry. apply lookup_ge_None.
        rewrite length_drop. lia.
Qed.

(** C7 (address mapper, clamping). The specification says an offset below
    the start of the data region is clamped up to the start, so that
    [advance(c, e, 0)] returns the start (45).  For the 64-byte file of
    the example, [offset_roll(0, 64, 0)] returns 52: the clamped branch
    yields the absolute offset 45 where the relative offset 0 is meant,
    and 45 mod 19 = 7 is then added to the base. *)
Theorem C7_offset_roll_clamp_slip :
  offset_roll 0 64 0 = 52 /\ advance_spec 0 64 0 = 45.
Proof. split; vm_compute; reflexivity. Qed.

(** C8 (address mapper, range). For every non-negative current offset,
    every non-negative increment and every end of the data region
    strictly above its start, [offset_roll] returns an offset inside
    [[wrap_lo_margin, wrap_hi_margin)]. *)
Theorem C8_offset_roll_in_range (current_offset wrap_hi_margin increment : Z) :
  0 <= current_offset ->
  0 <= increment ->
  wrap_lo_margin < wrap_hi_margin <= OFF_MAX ->
  wrap_lo_margin <= offset_roll current_offset wrap_hi_margin increment
    < wrap_hi_margin.
Proof.
  intros _ _ Hhi. apply offset_roll_range. exact Hhi.
Qed.

Lemma C8_offset_roll_in_range_witness :
  wrap_lo_margin <= offset_roll 60 64 17 < 64.
Proof.
  apply (C8_offset_roll_in_range 60 64 17);
    unfold OFF_MAX, SIZE_MAX, wrap_lo_margin, sizeof_TFileHeader; lia.
Defined.

(** ** Queue operation facts *)

Lemma offset_roll_add c hi i j :
  wrap_lo_margin < hi <= OFF_MAX ->
  wrap_lo_margin <= c < hi ->
  0 <= i -> 0 <= j -> i + j <= OFF_MAX ->
  offset_roll (offset_roll c hi i) hi j = offset_roll c hi (i + j).
Proof.
  intros Hhi Hc Hi Hj Hij.
  pose proof (offset_roll_range c hi i Hhi) as Hr.
  rewrite (offset_roll_in_region (offset_roll c hi i));
    unfold OFF_MAX, wrap_lo_margin, sizeof_TFileHeader in *; try lia.
  rewrite !(offset_roll_in_region c);
    unfold OFF_MAX, wrap_lo_margin, sizeof_TFileHeader in *; try lia.
  f_equal.
  replace (45 + (c - 45 + i) mod (hi - 45) - 45 + j)
    with ((c - 45 + i) mod (hi - 45) + j) by lia.
  rewrite Zplus_mod_idemp_l. f_equal. lia.
Qed.

(** [push] on a queue with room for the record: the record (header, then
    payload) goes into the ring at the append pointer, which moves past
    it, and the counts grow. *)
Lemma PERSIMQ_push_spec (mq : T_PERSIMQ) (f : file) (message : list Z) :
  queue_ok mq f ->
  0 < Z.of_nat (length message) ->
  sizeof_TMessageHeader + Z.of_nat (length message)
    <= file_size mq - wrap_lo_margin - count_bytes mq ->
  exists pos,
    PERSIMQ_push mq f message
    = (true,
       mkMQ (fd mq)
            (offset_roll (append_ptr mq) (file_size mq)
                         (sizeof_TMessageHeader + Z.of_nat (length message)))
            (extract_ptr mq)
            (count_bytes mq + sizeof_TMessageHeader + Z.of_nat (length message))
            (count_messages mq + 1)
            (file_size mq),
       mkFile (naive_write (f_data f) (file_size mq) (append_ptr mq)
                 (TMessageHeader_bytes (push_header message) ++ message))
              pos).
Proof.
  intros (Hopen & Hfs & Hsize & Ha & He & Hcb & Hcm) Hn Hroom.
  assert (Hlo : wrap_lo_margin = 45) by reflexivity.
  unfold sizeof_TFileHeader, sizeof_TMessageHeader, OFF_MAX in *.
  assert (Hhi : wrap_lo_margin < file_size mq <= OFF_MAX) by (unfold OFF_MAX; lia).
  unfold PERSIMQ_push.
  destruct (Z.eqb_spec (fd mq) 0) as [? | _]; [contradiction |].
  unfold PERSIMQ_bytes_free, sizeof_TFileHeader, sizeof_TMessageHeader.
  rewrite (u64_id (file_size mq)), (u64_id (count_bytes mq)) by lia.
  rewrite (u64_id (count_bytes mq + 45)) by lia.
  rewrite (u64_id (file_size mq - (count_bytes mq + 45))) by lia.
  rewrite (u64_id (8 + Z.of_nat (length message))) by lia.
  destruct (Z.ltb_spec (file_size mq - (count_bytes mq + 45))
                       (8 + Z.of_nat (length message))) as [? | _]; [lia |].
  destruct (wrapped_io_write f (TMessageHeader_bytes (push_header message)) 8
              (append_ptr mq) (file_size mq) Hhi Hsize)
    as [p1 H1];
    [rewrite TMessageHeader_bytes_length; reflexivity | lia |].
  rewrite H1. clear H1. cbn [negb].
  rewrite (offset_roll_0_id (append_ptr mq)) by lia.
  pose proof (offset_roll_range (append_ptr mq) (file_size mq) 8 Hhi) as Hb.
  assert (Hsize1 :
    Z.of_nat (length (wrapped_blocks (f_data f) (file_size mq) (append_ptr mq)
                        (TMessageHeader_bytes (push_header message))))
    = file_size mq).
  { rewrite wrapped_blocks_naive
      by (rewrite ?TMessageHeader_bytes_length; lia).
    rewrite naive_write_length. exact Hsize. }
  destruct (wrapped_io_write
              (mkFile (wrapped_blocks (f_data f) (file_size mq) (append_ptr mq)
                         (TMessageHeader_bytes (push_header message))) p1)
              message (Z.of_nat (length message))
              (offset_roll (append_ptr mq) (file_size mq) 8)
              (file_size mq) Hhi Hsize1 eq_refl)
    as [p2 H2]; [lia |].
  rewrite H2. clear H2. cbn [negb f_data].
  rewrite (offset_roll_0_id (offset_roll (append_ptr mq) (file_size mq) 8)) by lia.
  rewrite offset_roll_add by (unfold OFF_MAX; lia).
  exists p2.
  cbn [set_append_ptr fd append_ptr extract_ptr count_bytes count_messages file_size].
  rewrite (u64_id (count_bytes mq)) by lia.
  rewrite (s64_id (count_bytes mq + (8 + Z.of_nat (length message)))) by lia.
  rewrite (s64_id (count_messages mq + 1)) by lia.
  rewrite !wrapped_blocks_naive;
    rewrite ?naive_write_length, ?TMessageHeader_bytes_length; try lia.
  rewrite naive_write_app, TMessageHeader_bytes_length.
  rewrite ring_advance_offset_roll by (unfold OFF_MAX; lia).
  change (Z.of_nat 8) with 8.
  rewrite (Z.add_assoc (count_bytes mq)). reflexivity.
Qed.

(** [sync] on an open queue writes the header record over the first 45
    bytes of the file. *)
Lemma PERSIMQ_sync_spec (mq : T_PERSIMQ) (f : file) :
  fd mq <> 0 ->
  PERSIMQ_sync mq f
  = (true, mkFile (overwrite (f_data f) 0 (TFileHeader_bytes (sync_header mq))) 45).
Proof.
  intros Hopen. unfold PERSIMQ_sync.
  destruct (Z.eqb_spec (fd mq) 0) as [? | _]; [contradiction |].
  rewrite os_lseek_ok by lia.
  rewrite multiwrite_inside
    by (rewrite TFileHeader_bytes_length; unfold sizeof_TFileHeader; lia).
  cbn [f_data f_pos].
  rewrite take_ge by (rewrite TFileHeader_bytes_length; unfold sizeof_TFileHeader; lia).
  reflexivity.
Qed.

Lemma PERSIMQ_close_spec (mq : T_PERSIMQ) (f : file) :
  fd mq <> 0 ->
  PERSIMQ_close mq f
  = (true, mkFile (overwrite (f_data f) 0 (TFileHeader_bytes (sync_header mq))) 45).
Proof.
  intros Hopen. unfold PERSIMQ_close.
  destruct (Z.eqb_spec (fd mq) 0) as [? | _]; [contradiction |].
  rewrite PERSIMQ_sync_spec by assumption. reflexivity.
Qed.

(** The check [open] makes on the header bytes is the one the
    specification words. *)
Lemma header_check_trusted (bytes : list Z) (size : Z) :
  (strncmp (take 4 bytes) FILE_ID 4 =? 0)
  && (eval_crc8 (take 44 bytes) =? nth 44 bytes 0)
  && (size =? le_decode (take 8 (drop 36 bytes))) = true
  <-> header_trusted bytes size.
Proof.
  unfold header_trusted.
  rewrite !andb_true_iff, !Z.eqb_eq, strncmp_FILE_ID, take_idemp.
  intuition congruence.
Qed.

(** [open] with a size it accepts. *)
Lemma PERSIMQ_open_accepted (mq0 : T_PERSIMQ) (disk : list Z) (size : Z) :
  sizeof_TFileHeader + sizeof_TMessageHeader + 1 < size <= OFF_MAX ->
  PERSIMQ_open mq0 disk size
  = let contents := resize (Z.to_nat size) 0 disk in
    let bytes := take 45 contents in
    if (strncmp (take 4 bytes) FILE_ID 4 =? 0)
       && (eval_crc8 (take 44 bytes) =? nth 44 bytes 0)
       && (size =? le_decode (take 8 (drop 36 bytes)))
    then (true,
          mkMQ 3
               (s64 (le_decode (take 8 (drop 4 bytes))))
               (s64 (le_decode (take 8 (drop 12 bytes))))
               (s64 (le_decode (take 8 (drop 20 bytes))))
               (s64 (le_decode (take 8 (drop 28 bytes))))
               size,
          mkFile contents 45)
    else (true, mkMQ 3 sizeof_TFileHeader sizeof_TFileHeader 0 0 size,
          mkFile contents 45).
Proof.
  unfold sizeof_TFileHeader, sizeof_TMessageHeader, OFF_MAX. intros Hsize.
  cbv zeta.
  unfold PERSIMQ_open, sizeof_TFileHeader, sizeof_TMessageHeader.
  rewrite (u64_id size) by lia.
  destruct (Z.leb_spec size (45 + 8 + 1)) as [? | _]; [lia |].
  unfold os_open, os_ftruncate.
  destruct (Z.ltb_spec size 0) as [? | _]; [lia |].
  cbn [negb Z.eqb].
  rewrite os_lseek_ok by lia.
  cbn [f_data f_pos].
  destruct (Z.ltb_spec 0 0) as [? | _]; [lia |].
  rewrite multiread_inside
    by (cbn [f_data f_pos]; rewrite ?length_resize; lia).
  cbn [f_data f_pos negb set_fd fd Z.to_nat Z.add].
  rewrite drop_0.
  change (Pos.to_nat 45) with 45%nat.
  unfold TFileHeader_of_bytes.
  cbn [fh_ID fh_append_ptr fh_extract_ptr fh_count_bytes fh_count_messages
       fh_file_size fh_crc].
  reflexivity.
Qed.

(** The header record [sync] writes is one [open] trusts. *)
Lemma sync_header_trusted (mq : T_PERSIMQ) :
  header_trusted (TFileHeader_bytes (sync_header mq)) (u64 (file_size mq)).
Proof.
  assert (Hrt : TFileHeader_of_bytes (TFileHeader_bytes (sync_header mq))
                = sync_header mq).
  { apply TFileHeader_roundtrip; try reflexivity; apply u64_range. }
  unfold header_trusted.
  destruct (TFileHeader_of_bytes_proj (TFileHeader_bytes (sync_header mq)))
    as (HID & _ & _ & _ & _ & Hfs & Hcrc).
  rewrite <- HID, <- Hfs, <- Hcrc.
  rewrite Hrt.
  split; [reflexivity |]. split; [| reflexivity].
  unfold sync_header. cbv zeta.
  cbn [fh_ID fh_append_ptr fh_extract_ptr fh_count_bytes fh_count_messages
       fh_file_size fh_crc].
  f_equal; apply TFileHeader_bytes_crc.
Qed.

(** Persistence of the handle: [open] on a file of the right size that
    starts with the header record [sync] wrote for a handle gives that
    handle back. *)
Lemma PERSIMQ_open_after_sync (mq0 mq : T_PERSIMQ) (contents : list Z) :
  sizeof_TFileHeader + sizeof_TMessageHeader + 1 < file_size mq <= OFF_MAX ->
  Z.of_nat (length contents) = file_size mq ->
  OFF_MIN <= append_ptr mq <= OFF_MAX ->
  OFF_MIN <= extract_ptr mq <= OFF_MAX ->
  OFF_MIN <= count_bytes mq <= OFF_MAX ->
  OFF_MIN <= count_messages mq <= OFF_MAX ->
  PERSIMQ_open mq0 (overwrite contents 0 (TFileHeader_bytes (sync_header mq)))
               (file_size mq)
  = (true,
     mkMQ 3 (append_ptr mq) (extract_ptr mq) (count_bytes mq) (count_messages mq)
          (file_size mq),
     mkFile (overwrite contents 0 (TFileHeader_bytes (sync_header mq))) 45).
Proof.
  intros Hfs Hsize Ha He Hcb Hcm.
  rewrite PERSIMQ_open_accepted by assumption.
  unfold sizeof_TFileHeader, sizeof_TMessageHeader, OFF_MAX, OFF_MIN in *.
  cbv zeta.
  rewrite resize_all_alt
    by (rewrite overwrite_length; rewrite ?TFileHeader_bytes_length; lia).
  assert (Hbytes : take 45 (overwrite contents 0 (TFileHeader_bytes (sync_header mq)))
                   = TFileHeader_bytes (sync_header mq)).
  { pose proof (take_drop_overwrite_same contents 0
                  (TFileHeader_bytes (sync_header mq))) as H.
    rewrite TFileHeader_bytes_length, drop_0 in H. apply H. lia. }
  rewrite Hbytes.
  pose proof (sync_header_trusted mq) as Htrust.
  rewrite (u64_id (file_size mq)) in Htrust by lia.
  apply header_check_trusted in Htrust. rewrite Htrust.
  assert (Hrt : TFileHeader_of_bytes (TFileHeader_bytes (sync_header mq))
                = sync_header mq).
  { apply TFileHeader_roundtrip; try reflexivity; apply u64_range. }
  destruct (TFileHeader_of_bytes_proj (TFileHeader_bytes (sync_header mq)))
    as (_ & Hfa & Hfe & Hfcb & Hfcm & _ & _).
  rewrite <- Hfa, <- Hfe, <- Hfcb, <- Hfcm.
  rewrite Hrt.
  unfold sync_header. cbv zeta.
  cbn [fh_append_ptr fh_extract_ptr fh_count_bytes fh_count_messages].
  rewrite !s64_u64 by lia.
  reflexivity.
Qed.

(** What [PERSIMQ_read_message_header] does on an open queue whose file
    has its configured size: it reads the eight bytes at the normalised
    offset, around the end of the data region if need be, and closes the
    queue when the tag is not ["PMQ"]. *)
Lemma PERSIMQ_read_message_header_open (mq : T_PERSIMQ) (f : file) (offset : Z) :
  fd mq <> 0 ->
  sizeof_TFileHeader + sizeof_TMessageHeader < file_size mq <= OFF_MAX ->
  Z.of_nat (length (f_data f)) = file_size mq ->
  exists pos,
    PERSIMQ_read_message_header mq f offset
    = let header :=
        TMessageHeader_of_bytes
          (naive_read (f_data f) (file_size mq)
                      (offset_roll offset (file_size mq) 0) 8) in
      if memcmp (mh_ID header) MESSAGE_ID 3 =? 0
      then (true, mq, mkFile (f_data f) pos, header)
      else (false, set_fd 0 mq, mkFile (f_data f) pos, header).
Proof.
  unfold sizeof_TFileHeader, sizeof_TMessageHeader. intros Hopen Hfs Hsize.
  assert (Hhi : wrap_lo_margin < file_size mq <= OFF_MAX)
    by (unfold wrap_lo_margin, sizeof_TFileHeader; lia).
  unfold PERSIMQ_read_message_header.
  destruct (Z.eqb_spec (fd mq) 0) as [? | _]; [contradiction |].
  destruct (wrapped_io_read f [] sizeof_TMessageHeader
              (offset_roll offset (file_size mq) 0) (file_size mq) Hhi Hsize)
    as [pos Hread].
  { unfold sizeof_TMessageHeader, wrap_lo_margin, sizeof_TFileHeader. lia. }
  rewrite Hread. clear Hread.
  rewrite offset_roll_0_idemp by assumption.
  rewrite wrapped_read_naive;
    try apply offset_roll_range;
    unfold sizeof_TMessageHeader, wrap_lo_margin, sizeof_TFileHeader in *;
    try lia.
  exists pos. cbn [negb Z.to_nat Pos.to_nat Pos.iter_op Init.Nat.add].
  destruct (memcmp _ _ _ =? 0); reflexivity.
Qed.

(** The ring does not reach into the header record. *)
Lemma naive_read_overwrite_header hi header (n : nat) : forall contents off,
  (length header <= 45)%nat -> (45 <= length contents)%nat ->
  wrap_lo_margin < hi -> wrap_lo_margin <= off < hi ->
  naive_read (overwrite contents 0 header) hi off n = naive_read contents hi off n.
Proof.
  induction n as [| n IH]; intros contents off Hh Hc Hhi Hoff; [reflexivity |].
  assert (Hlo : wrap_lo_margin = 45) by reflexivity.
  simpl. rewrite lookup_overwrite by lia.
  case_decide; [lia |].
  destruct (contents !! Z.to_nat off); [| reflexivity].
  f_equal. apply IH; try assumption. apply ring_next_range; assumption.
Qed.

(** What was written into the ring is read back from it. *)
Lemma naive_read_write contents hi off data :
  wrap_lo_margin < hi ->
  Z.of_nat (length contents) = hi ->
  wrap_lo_margin <= off < hi ->
  Z.of_nat (length data) <= hi - wrap_lo_margin ->
  naive_read (naive_write contents hi off data) hi off (length data) = data.
Proof.
  intros Hhi Hsize Hoff Hlen.
  rewrite <- wrapped_blocks_naive by assumption.
  rewrite <- wrapped_read_naive;
    rewrite ?wrapped_blocks_naive, ?naive_write_length by assumption;
    try assumption.
  rewrite <- (wrapped_blocks_naive contents) by assumption.
  apply wrapped_read_blocks; assumption.
Qed.

Lemma naive_read_write_app contents hi off d1 d2 :
  wrap_lo_margin < hi ->
  Z.of_nat (length contents) = hi ->
  wrap_lo_margin <= off < hi ->
  Z.of_nat (length (d1 ++ d2)) <= hi - wrap_lo_margin ->
  naive_read (naive_write contents hi off (d1 ++ d2)) hi off (length d1) = d1
  /\ naive_read (naive_write contents hi off (d1 ++ d2)) hi
                (ring_advance hi off (length d1)) (length d2) = d2.
Proof.
  intros Hhi Hsize Hoff Hlen.
  pose proof (naive_read_write contents hi off (d1 ++ d2) Hhi Hsize Hoff Hlen) as Hfull.
  rewrite length_app in Hfull.
  rewrite naive_read_app in Hfull
    by (rewrite ?naive_write_length; lia).
  apply app_inj_1 in Hfull; [exact Hfull |].
  apply naive_read_length; rewrite ?naive_write_length; lia.
Qed.

Lemma offset_roll_shift c hi i :
  wrap_lo_margin < hi <= OFF_MAX ->
  wrap_lo_margin <= c < hi ->
  0 <= i -> c + i <= OFF_MAX ->
  offset_roll (c + i) hi 0 = offset_roll c hi i.
Proof.
  intros Hhi Hc Hi Hci.
  rewrite !offset_roll_in_region;
    unfold OFF_MAX, wrap_lo_margin, sizeof_TFileHeader in *; try lia.
  do 2 f_equal. lia.
Qed.

(** [get] on a queue whose first record is intact: the payload comes
    back, and nothing changes but the position of the descriptor. *)
Lemma PERSIMQ_get_spec (mq : T_PERSIMQ) (f : file) (buffer_size : Z)
    (want_size : bool) (header : TMessageHeader) (payload : list Z) :
  queue_ok mq f ->
  count_messages mq <> 0 ->
  header = TMessageHeader_of_bytes
             (naive_read (f_data f) (file_size mq) (extract_ptr mq) 8) ->
  payload = naive_read (f_data f) (file_size mq)
              (offset_roll (extract_ptr mq) (file_size mq) sizeof_TMessageHeader)
              (Z.to_nat (mh_message_size header)) ->
  mh_ID header = MESSAGE_ID ->
  0 < mh_message_size header < file_size mq - wrap_lo_margin ->
  mh_message_size header <= buffer_size ->
  eval_crc8 payload = mh_message_crc header ->
  exists pos,
    PERSIMQ_get mq f buffer_size want_size
    = (true, mq, mkFile (f_data f) pos, payload,
       if want_size then Some (mh_message_size header) else None).
Proof.
  intros Hok Havail Hheader Hpayload Htag Hm Hbuf Hcrc.
  pose proof Hok as (Hopen & Hfs & Hsize & Ha & He & Hcb & Hcm).
  assert (Hlo : wrap_lo_margin = 45) by reflexivity.
  assert (Hhi : wrap_lo_margin < file_size mq <= OFF_MAX)
    by (unfold sizeof_TFileHeader, sizeof_TMessageHeader in Hfs; lia).
  destruct (PERSIMQ_read_message_header_open mq f (extract_ptr mq) Hopen
              ltac:(lia) Hsize) as [p1 Hhdr].
  cbv zeta in Hhdr.
  rewrite (offset_roll_0_id (extract_ptr mq)) in Hhdr by assumption.
  rewrite <- Hheader in Hhdr.
  rewrite Htag in Hhdr.
  change (memcmp MESSAGE_ID MESSAGE_ID 3 =? 0) with true in Hhdr.
  unfold PERSIMQ_get.
  destruct (Z.eqb_spec (fd mq) 0) as [? | _]; [contradiction |].
  unfold PERSIMQ_messages_available.
  destruct (Z.eqb_spec (count_messages mq) 0) as [? | _]; [contradiction |].
  rewrite Hhdr. cbn [negb].
  destruct (Z.ltb_spec buffer_size (mh_message_size header)) as [? | _]; [lia |].
  unfold PERSIMQ_read_message_data.
  unfold sizeof_TFileHeader, sizeof_TMessageHeader, OFF_MAX in *.
  rewrite (u64_id (extract_ptr mq)) by lia.
  rewrite (s64_id (extract_ptr mq + 8)) by lia.
  destruct (wrapped_io_read (mkFile (f_data f) p1) [] (mh_message_size header)
              (extract_ptr mq + 8) (file_size mq))
    as [p2 Hread]; [unfold OFF_MAX; lia | exact Hsize | lia |].
  rewrite Hread. clear Hread. cbn [negb f_data].
  rewrite offset_roll_shift by (unfold OFF_MAX; lia).
  pose proof (offset_roll_range (extract_ptr mq) (file_size mq) 8 ltac:(unfold OFF_MAX; lia)).
  rewrite wrapped_read_naive by lia.
  rewrite <- Hpayload.
  rewrite take_ge
    by (rewrite Hpayload, naive_read_length; lia).
  rewrite Hcrc, Z.eqb_refl. cbn [negb].
  exists p2. reflexivity.
Qed.

(** [pop] on a queue whose first record carries the tag: the extract
    pointer moves past the record and the counts shrink. *)
Lemma PERSIMQ_pop_spec (mq : T_PERSIMQ) (f : file) (header : TMessageHeader) :
  queue_ok mq f ->
  count_messages mq <> 0 ->
  header = TMessageHeader_of_bytes
             (naive_read (f_data f) (file_size mq) (extract_ptr mq) 8) ->
  mh_ID header = MESSAGE_ID ->
  0 <= mh_message_size header < 2 ^ 32 ->
  exists pos,
    PERSIMQ_pop mq f
    = (true,
       mkMQ (fd mq) (append_ptr mq)
            (offset_roll (extract_ptr mq) (file_size mq)
                         (mh_message_size header + sizeof_TMessageHeader))
            (s64 (count_bytes mq - (mh_message_size header + sizeof_TMessageHeader)))
            (count_messages mq - 1)
            (file_size mq),
       mkFile (f_data f) pos).
Proof.
  intros Hok Havail Hheader Htag Hm.
  pose proof Hok as (Hopen & Hfs & Hsize & Ha & He & Hcb & Hcm).
  assert (Hlo : wrap_lo_margin = 45) by reflexivity.
  assert (Hhi : wrap_lo_margin < file_size mq <= OFF_MAX)
    by (unfold sizeof_TFileHeader, sizeof_TMessageHeader in Hfs; lia).
  destruct (PERSIMQ_read_message_header_open mq f (extract_ptr mq) Hopen
              ltac:(lia) Hsize) as [p1 Hhdr].
  cbv zeta in Hhdr.
  rewrite (offset_roll_0_id (extract_ptr mq)) in Hhdr by assumption.
  rewrite <- Hheader in Hhdr.
  rewrite Htag in Hhdr.
  change (memcmp MESSAGE_ID MESSAGE_ID 3 =? 0) with true in Hhdr.
  unfold PERSIMQ_pop.
  destruct (Z.eqb_spec (fd mq) 0) as [? | _]; [contradiction |].
  unfold PERSIMQ_messages_available.
  destruct (Z.eqb_spec (count_messages mq) 0) as [? | _]; [contradiction |].
  rewrite Hhdr. cbn [negb].
  unfold sizeof_TFileHeader, sizeof_TMessageHeader, OFF_MAX in *.
  rewrite (u64_id (mh_message_size header + 8)) by lia.
  rewrite (u64_id (count_bytes mq)) by lia.
  rewrite (s64_id (count_messages mq - 1)) by lia.
  exists p1. reflexivity.
Qed.

(** Persistence of a message on an empty queue, wherever its pointers
    are in the ring: pushed, checkpointed by [close] and found again by
    [open], the message is what [get] returns, and [pop] empties the
    queue. *)
Lemma push_close_open_get_pop (mq mq0 : T_PERSIMQ) (f : file) (message : list Z)
    (buffer_size : Z) (want_size : bool) :
  queue_ok mq f ->
  count_bytes mq = 0 -> count_messages mq = 0 ->
  extract_ptr mq = append_ptr mq ->
  0 < Z.of_nat (length message) < 2 ^ 32 ->
  sizeof_TMessageHeader + Z.of_nat (length message)
    <= file_size mq - wrap_lo_margin ->
  Z.of_nat (length message) <= buffer_size ->
  exists mq2 f2 f3 mq4 f4 f5 mq6 f6,
    PERSIMQ_push mq f message = (true, mq2, f2)
    /\ PERSIMQ_close mq2 f2 = (true, f3)
    /\ Z.of_nat (length (f_data f3)) = file_size mq
    /\ PERSIMQ_open mq0 (f_data f3) (file_size mq) = (true, mq4, f4)
    /\ PERSIMQ_is_empty mq4 = false
    /\ PERSIMQ_get mq4 f4 buffer_size want_size
       = (true, mq4, f5, message,
          if want_size then Some (Z.of_nat (length message)) else None)
    /\ PERSIMQ_pop mq4 f5 = (true, mq6, f6)
    /\ PERSIMQ_is_empty mq6 = true.
Proof.
  intros Hok Hcb0 Hcm0 Hea Hn Hroom Hbuf.
  pose proof Hok as (Hopen & Hfs & Hsize & Ha & He & Hcb & Hcm).
  assert (Hlo : wrap_lo_margin = 45) by reflexivity.
  unfold sizeof_TFileHeader, sizeof_TMessageHeader, OFF_MAX in Hfs, Hroom, Hcm.
  assert (Hhi : wrap_lo_margin < file_size mq <= OFF_MAX) by (unfold OFF_MAX; lia).
  (* push *)
  destruct (PERSIMQ_push_spec mq f message Hok ltac:(lia)
              ltac:(unfold sizeof_TMessageHeader; lia)) as [p2 Hpush].
  rewrite Hcb0, Hcm0 in Hpush. unfold sizeof_TMessageHeader in Hpush.
  set (n := Z.of_nat (length message)) in *.
  set (size := file_size mq) in *.
  set (a := append_ptr mq) in *.
  set (a2 := offset_roll a size (8 + n)) in *.
  set (mh := TMessageHeader_bytes (push_header message)) in *.
  set (c2 := naive_write (f_data f) size a (mh ++ message)) in *.
  set (mq2 := mkMQ (fd mq) a2 (extract_ptr mq) (0 + 8 + n) (0 + 1) size) in *.
  pose proof (offset_roll_range a size (8 + n) Hhi) as Ha2. fold a2 in Ha2.
  assert (Hc2 : Z.of_nat (length c2) = size)
    by (unfold c2; rewrite naive_write_length; exact Hsize).
  assert (Hmh : length mh = 8%nat) by apply TMessageHeader_bytes_length.
  (* close *)
  pose proof (PERSIMQ_close_spec mq2 (mkFile c2 p2) Hopen) as Hclose.
  cbn [f_data] in Hclose.
  set (c3 := overwrite c2 0 (TFileHeader_bytes (sync_header mq2))) in *.
  assert (Hc3 : Z.of_nat (length c3) = size).
  { unfold c3. rewrite overwrite_length; rewrite ?TFileHeader_bytes_length; lia. }
  (* open *)
  pose proof (PERSIMQ_open_after_sync mq0 mq2 c2) as Hreopen.
  cbn [file_size append_ptr extract_ptr count_bytes count_messages mq2] in Hreopen.
  fold c3 in Hreopen.
  specialize (Hreopen ltac:(unfold sizeof_TFileHeader, sizeof_TMessageHeader, OFF_MAX; lia)
                      Hc2
                      ltac:(unfold OFF_MIN, OFF_MAX; lia)
                      ltac:(unfold OFF_MIN, OFF_MAX; lia)
                      ltac:(unfold OFF_MIN, OFF_MAX; lia)
                      ltac:(unfold OFF_MIN, OFF_MAX; lia)).
  rewrite Hea in Hreopen.
  set (mq4 := mkMQ 3 a2 a (0 + 8 + n) (0 + 1) size) in *.
  assert (Hok4 : forall pos, queue_ok mq4 (mkFile c3 pos)).
  { intros pos. unfold queue_ok, mq4, sizeof_TFileHeader, sizeof_TMessageHeader, OFF_MAX.
    cbn [fd file_size f_data append_ptr extract_ptr count_bytes count_messages].
    repeat split; try lia. }
  (* the record in the file *)
  assert (Hlen : Z.of_nat (length (mh ++ message)) <= size - wrap_lo_margin)
    by (rewrite length_app, Hmh; lia).
  destruct (naive_read_write_app (f_data f) size a mh message
              ltac:(lia) Hsize Ha Hlen) as [Hrh Hrm].
  fold c2 in Hrh, Hrm. rewrite Hmh in Hrh, Hrm.
  rewrite ring_advance_offset_roll in Hrm by (unfold OFF_MAX; lia).
  change (Z.of_nat 8) with 8 in Hrm.
  assert (Hhdr : push_header message
                 = TMessageHeader_of_bytes (naive_read c3 size a 8)).
  { unfold c3.
    rewrite naive_read_overwrite_header
      by (rewrite ?TFileHeader_bytes_length; lia).
    rewrite Hrh. symmetry. apply TMessageHeader_roundtrip; [reflexivity |].
    cbn [push_header mh_message_size]. unfold u32. apply Z.mod_pos_bound. lia. }
  assert (Hu32 : mh_message_size (push_header message) = n).
  { cbn [push_header mh_message_size]. unfold u32. apply Z.mod_small. lia. }
  assert (Hpay : message
                 = naive_read c3 size (offset_roll a size sizeof_TMessageHeader)
                     (Z.to_nat (mh_message_size (push_header message)))).
  { rewrite Hu32. unfold n. rewrite Nat2Z.id. unfold c3.
    rewrite naive_read_overwrite_header;
      rewrite ?TFileHeader_bytes_length; try lia.
    - symmetry. exact Hrm.
    - apply offset_roll_range. assumption. }
  (* get *)
  destruct (PERSIMQ_get_spec mq4 (mkFile c3 45) buffer_size want_size
              (push_header message) message (Hok4 45))
    as [p5 Hget];
    try (cbn [mq4 count_messages file_size extract_ptr f_data]; fold size);
    try assumption; try reflexivity; try lia.
  rewrite Hu32 in Hget.
  (* pop *)
  destruct (PERSIMQ_pop_spec mq4 (mkFile c3 p5) (push_header message) (Hok4 p5))
    as [p6 Hpop];
    try (cbn [mq4 count_messages file_size extract_ptr f_data]; fold size);
    try assumption; try reflexivity; try lia.
  rewrite Hu32 in Hpop.
  cbn [mq4 fd append_ptr extract_ptr count_bytes count_messages file_size f_data]
    in Hpop.
  fold size in Hpop.
  (* together *)
  exists mq2, (mkFile c2 p2), (mkFile c3 45), mq4, (mkFile c3 45), (mkFile c3 p5).
  eexists. eexists.
  split; [exact Hpush |].
  split; [exact Hclose |].
  split; [exact Hc3 |].
  split; [exact Hreopen |].
  split.
  { unfold PERSIMQ_is_empty, mq4. cbn [count_bytes].
    destruct (Z.eqb_spec (0 + 8 + n) 0); [lia | reflexivity]. }
  split; [exact Hget |].
  split; [exact Hpop |].
  unfold PERSIMQ_is_empty. cbn [count_bytes].
  unfold sizeof_TMessageHeader.
  replace (0 + 8 + n - (n + 8)) with 0 by lia. reflexivity.
Qed.

(** ** Claims about wrapped I/O *)

(** C9 (wrapped I/O against the naive ring transfer), at a transfer of
    no bytes.  The length 0 is strictly below the capacity 19 of the data
    region of a 64-byte file.  The naive transfer of no bytes over the
    ring leaves the file as it is and reads nothing: there is nothing it
    could fail on.  [wrapped_io] reports failure, for a write and for a
    read alike: it issues one operation of zero bytes, and the retry
    loops of [multiwrite] and [multiread] take the 0 that [write] and
    [read] return for an error. *)
Theorem C9_zero_length_transfer_fails :
  0 < 64 - wrap_lo_margin
  /\ naive_write (replicate 64 0) 64 45 [] = replicate 64 0
  /\ naive_read (replicate 64 0) 64 45 0 = []
  /\ wrapped_io (mkFile (replicate 64 0) 0) [] 0 45 64 true
     = (false, mkFile (replicate 64 0) 45, [], Some 45)
  /\ wrapped_io (mkFile (replicate 64 0) 0) [] 0 45 64 false
     = (false, mkFile (replicate 64 0) 45, [], Some 45).
Proof. repeat split. Qed.

(** Wrapped I/O against the naive ring transfer, for transfers of at
    least one byte.  On a file of [hi] bytes whose data region is
    [[wrap_lo_margin, hi)], with [off] the offset as [offset_roll]
    normalises it:
    - a write of [n] bytes, [0 < n < hi - wrap_lo_margin], succeeds, leaves
      the file the byte-by-byte transfer over the ring leaves, does so as
      one block when [n <= hi - off] and as two otherwise (the first
      [hi - off] bytes at [off], the rest at [wrap_lo_margin]), and reports
      the ring position after [n] steps as the next offset;
    - reading the same span back succeeds, leaves the file as it is and
      returns the data written;
    - a read of such a span of any file of that size returns what the
      byte-by-byte read over the ring returns;
    - a length of [hi - wrap_lo_margin] or more is refused with the file
      (contents and position) and the buffer untouched. *)
Lemma wrapped_io_ring_transfer (f : file) (data : list Z) (offset hi : Z) :
  wrap_lo_margin < hi <= OFF_MAX ->
  Z.of_nat (length (f_data f)) = hi ->
  (0 < Z.of_nat (length data) < hi - wrap_lo_margin ->
   exists fw fr,
     wrapped_io f data (Z.of_nat (length data)) offset hi true
     = (true, fw, data,
        Some (ring_advance hi (offset_roll offset hi 0) (length data)))
     /\ f_data fw = naive_write (f_data f) hi (offset_roll offset hi 0) data
     /\ f_data fw = wrapped_blocks (f_data f) hi (offset_roll offset hi 0) data
     /\ wrapped_io fw [] (Z.of_nat (length data)) offset hi false
        = (true, fr, data,
           Some (ring_advance hi (offset_roll offset hi 0) (length data)))
     /\ f_data fr = f_data fw)
  /\ (forall (g : file) (buffer : list Z) (n : Z),
        Z.of_nat (length (f_data g)) = hi ->
        0 < n < hi - wrap_lo_margin ->
        exists g',
          wrapped_io g buffer n offset hi false
          = (true, g',
             naive_read (f_data g) hi (offset_roll offset hi 0) (Z.to_nat n),
             Some (ring_advance hi (offset_roll offset hi 0) (Z.to_nat n)))
          /\ f_data g' = f_data g)
  /\ (forall (length : Z) (do_write : bool),
        hi - wrap_lo_margin <= length ->
        wrapped_io f data length offset hi do_write = (false, f, data, None)).
Proof.
  intros Hhi Hsize.
  pose proof (offset_roll_range offset hi 0 Hhi) as Hoff.
  assert (Hlo : wrap_lo_margin = 45) by reflexivity.
  split; [| split].
  - intros Hlen.
    destruct (wrapped_io_write f data _ offset hi Hhi Hsize eq_refl Hlen) as [pw Hw].
    assert (Hwsize : Z.of_nat (length (wrapped_blocks (f_data f) hi
                                          (offset_roll offset hi 0) data)) = hi).
    { rewrite wrapped_blocks_naive by lia. rewrite naive_write_length. exact Hsize. }
    destruct (wrapped_io_read
                (mkFile (wrapped_blocks (f_data f) hi (offset_roll offset hi 0) data) pw)
                [] (Z.of_nat (length data)) offset hi Hhi Hwsize Hlen) as [pr Hr].
    cbn [f_data] in Hr.
    rewrite Nat2Z.id in Hr.
    rewrite wrapped_read_blocks in Hr by lia.
    assert (Hnext : offset_roll (offset_roll offset hi 0) hi (Z.of_nat (length data))
                    = ring_advance hi (offset_roll offset hi 0) (length data)).
    { symmetry. apply ring_advance_offset_roll; unfold OFF_MAX in *; lia. }
    rewrite Hnext in Hw, Hr.
    eexists. eexists.
    split; [exact Hw |].
    split; [apply wrapped_blocks_naive; lia |].
    split; [reflexivity |].
    split; [exact Hr | reflexivity].
  - intros g buffer n Hgsize Hn.
    destruct (wrapped_io_read g buffer n offset hi Hhi Hgsize Hn) as [pr Hr].
    rewrite wrapped_read_naive in Hr by lia.
    assert (Hnext : offset_roll (offset_roll offset hi 0) hi n
                    = ring_advance hi (offset_roll offset hi 0) (Z.to_nat n)).
    { rewrite ring_advance_offset_roll by (unfold OFF_MAX in *; lia).
      rewrite Z2Nat.id by lia. reflexivity. }
    rewrite Hnext in Hr.
    eexists. split; [exact Hr | reflexivity].
  - intros length do_write Hlong.
    apply wrapped_io_too_long; assumption.
Qed.

(** An instance: ten bytes written at offset 60 of a 64-byte file cross
    the end of the data region and continue at offset 45. *)
Lemma wrapped_io_ring_transfer_example :
  wrap_lo_margin < 64 <= OFF_MAX
  /\ Z.of_nat (length (f_data (mkFile (replicate 64 0) 0))) = 64
  /\ exists fw,
       wrapped_io (mkFile (replicate 64 0) 0) [1; 2; 3; 4; 5; 6; 7; 8; 9; 10] 10 60 64 true
       = (true, fw, [1; 2; 3; 4; 5; 6; 7; 8; 9; 10], Some 51)
       /\ f_data fw
          = replicate 45 0 ++ [5; 6; 7; 8; 9; 10] ++ replicate 9 0 ++ [1; 2; 3; 4].
Proof.
  assert (H1 : wrap_lo_margin < 64 <= OFF_MAX)
    by (unfold wrap_lo_margin, sizeof_TFileHeader, OFF_MAX; lia).
  assert (H2 : Z.of_nat (length (f_data (mkFile (replicate 64 0) 0))) = 64)
    by reflexivity.
  split; [exact H1 |]. split; [exact H2 |].
  destruct (wrapped_io_ring_transfer
              (mkFile (replicate 64 0) 0) [1; 2; 3; 4; 5; 6; 7; 8; 9; 10] 60 64 H1 H2)
    as [Hw _].
  destruct Hw as (fw & fr & Hw & Hdata & _).
  { unfold wrap_lo_margin, sizeof_TFileHeader. simpl. lia. }
  exists fw. split; [exact Hw | exact Hdata].
Defined.

(** ** Claims about the handle *)

(** C2 (capacity guard of [push]).  Whenever [bytes_free] is below the
    size of the message header plus the length of the payload, [push]
    returns failure and hands back the handle it was given (append
    pointer, extract pointer, counts and descriptor) and the file it was
    given: nothing has been written.  The payload is an object in memory,
    so eight bytes more than its length is still a [size_t]. The
    statement holds whether the handle is open or not. *)
Theorem C2_push_full_queue_unchanged (mq : T_PERSIMQ) (f : file) (message : list Z) :
  sizeof_TMessageHeader + Z.of_nat (length message) <= SIZE_MAX ->
  PERSIMQ_bytes_free mq < sizeof_TMessageHeader + Z.of_nat (length message) ->
  PERSIMQ_push mq f message = (false, mq, f).
Proof.
  intros Hsize Hfull. unfold PERSIMQ_push.
  destruct (fd mq =? 0); [reflexivity |].
  rewrite u64_id
    by (unfold SIZE_MAX, sizeof_TMessageHeader in *; lia).
  destruct (Z.ltb_spec (PERSIMQ_bytes_free mq)
              (sizeof_TMessageHeader + Z.of_nat (length message)));
    [reflexivity | lia].
Qed.

(** An instance: the open queue on a 64-byte file has 19 bytes free, and a
    payload of 17 bytes needs 25. *)
Lemma C2_push_full_queue_unchanged_witness :
  PERSIMQ_bytes_free (mkMQ 3 45 45 0 0 64) = 19
  /\ PERSIMQ_push (mkMQ 3 45 45 0 0 64) (mkFile (replicate 64 0) 0)
       [84; 101; 115; 116; 32; 109; 101; 115; 115; 97; 103; 101; 32; 33; 33; 33; 0]
     = (false, mkMQ 3 45 45 0 0 64, mkFile (replicate 64 0) 0).
Proof.
  split; [reflexivity |].
  apply C2_push_full_queue_unchanged.
  - unfold sizeof_TMessageHeader, SIZE_MAX. simpl. lia.
  - unfold sizeof_TMessageHeader. simpl. vm_compute. reflexivity.
Defined.

(** C4 ([pop_n] asking for at least the messages there are).  On an open
    queue, [pop_n(n)] with [n] at or above the message count succeeds
    without touching the file, and leaves the handle emptied: zero counts
    and the extract pointer on the append pointer, which stays where it
    was.  [clear] leaves the handle emptied too, with both pointers at the
    start of the data region, and every query answers the same on the two
    handles. *)
Theorem C4_pop_n_all_like_clear (mq : T_PERSIMQ) (f : file) (n : Z) :
  fd mq <> 0 ->
  0 <= count_messages mq <= OFF_MAX ->
  count_messages mq <= n ->
  exists mq_pop mq_clear f_clear,
    PERSIMQ_pop_n mq f n = (true, mq_pop, f)
    /\ PERSIMQ_clear mq f = (true, mq_clear, f_clear)
    /\ mq_pop = mkMQ (fd mq) (append_ptr mq) (append_ptr mq) 0 0 (file_size mq)
    /\ mq_clear
       = mkMQ (fd mq) sizeof_TFileHeader sizeof_TFileHeader 0 0 (file_size mq)
    /\ emptied mq_pop
    /\ emptied mq_clear
    /\ PERSIMQ_is_empty mq_pop = PERSIMQ_is_empty mq_clear
    /\ PERSIMQ_messages_available mq_pop = PERSIMQ_messages_available mq_clear
    /\ PERSIMQ_bytes_available mq_pop = PERSIMQ_bytes_available mq_clear
    /\ PERSIMQ_bytes_free mq_pop = PERSIMQ_bytes_free mq_clear
    /\ PERSIMQ_is_empty mq_pop = true
    /\ PERSIMQ_messages_available mq_pop = 0.
Proof.
  intros Hopen Hcount Hn.
  exists (mkMQ (fd mq) (append_ptr mq) (append_ptr mq) 0 0 (file_size mq)).
  exists (mkMQ (fd mq) sizeof_TFileHeader sizeof_TFileHeader 0 0 (file_size mq)).
  eexists.
  split.
  { unfold PERSIMQ_pop_n.
    rewrite u64_id by (unfold OFF_MAX in Hcount; lia).
    destruct (Z.leb_spec (count_messages mq) n); [reflexivity | lia]. }
  split.
  { unfold PERSIMQ_clear.
    destruct (Z.eqb_spec (fd mq) 0) as [? | _]; [contradiction |].
    rewrite PERSIMQ_sync_spec by exact Hopen. reflexivity. }
  unfold emptied. repeat split; reflexivity.
Qed.

(** An instance: three messages, ten asked for. *)
Lemma C4_pop_n_all_like_clear_witness :
  PERSIMQ_pop_n (mkMQ 3 120 45 75 3 128) (mkFile (replicate 128 0) 0) 10
  = (true, mkMQ 3 120 120 0 0 128, mkFile (replicate 128 0) 0).
Proof.
  destruct (C4_pop_n_all_like_clear
              (mkMQ 3 120 45 75 3 128) (mkFile (replicate 128 0) 0) 10)
    as (mq_pop & mq_clear & f_clear & Hpop & _ & -> & _).
  - simpl. discriminate.
  - unfold OFF_MAX. simpl. lia.
  - simpl. lia.
  - exact Hpop.
Defined.

(** The operations that check the descriptor refuse a closed handle and
    leave it and the file as they are. *)
Lemma closed_handle_guarded (mq : T_PERSIMQ) (f : file) (message : list Z) :
  fd mq = 0 ->
  PERSIMQ_push mq f message = (false, mq, f)
  /\ PERSIMQ_pop mq f = (false, mq, f)
  /\ PERSIMQ_clear mq f = (false, mq, f)
  /\ PERSIMQ_sync mq f = (false, f).
Proof.
  intros Hclosed.
  unfold PERSIMQ_push, PERSIMQ_pop, PERSIMQ_clear, PERSIMQ_sync.
  rewrite Hclosed. repeat split; reflexivity.
Qed.

(** The long option of [pop_n] on a closed handle changes nothing either,
    but its result is [true] when no message is asked for. *)
Lemma pop_n_loop_closed (n : nat) : forall (result : bool) (mq : T_PERSIMQ) (f : file),
  fd mq = 0 ->
  pop_n_loop n result mq f
  = (match n with O => result | S _ => false end, mq, f).
Proof.
  induction n as [| n IH]; intros result mq f Hclosed; [reflexivity |].
  simpl. unfold PERSIMQ_pop. rewrite Hclosed. simpl.
  rewrite IH by assumption.
  destruct n; [rewrite andb_false_r |]; reflexivity.
Qed.

(** C5 (mutating operations on a closed handle).  [PERSIMQ_pop_n] has no
    descriptor check.  On the closed handle that a queue of one message
    is left as after a failed read (descriptor 0, one message of 25
    bytes), [pop_n(1)] returns success and moves the extract pointer and
    the counts; on any closed handle [pop_n(0)] returns success.  The
    other four operations do refuse a closed handle
    ([closed_handle_guarded]). *)
Theorem C5_pop_n_ignores_closed_handle (f : file) :
  PERSIMQ_is_open (mkMQ 0 70 45 25 1 128) = false
  /\ PERSIMQ_pop_n (mkMQ 0 70 45 25 1 128) f 1 = (true, mkMQ 0 70 70 0 0 128, f)
  /\ PERSIMQ_pop_n (mkMQ 0 70 45 25 1 128) f 0 = (true, mkMQ 0 70 45 25 1 128, f).
Proof. repeat split; reflexivity. Qed.

(** ** Claims about recovery *)

(** C3, as stated, at a requested size of 54 bytes: [open] does not
    succeed with the empty state, it fails on its size check and leaves
    the caller's structure as it found it. *)
Lemma C3_open_small_size_fails :
  PERSIMQ_open (mkMQ 7 1 2 3 4 5) [] 54 = (false, mkMQ 7 1 2 3 4 5, mkFile [] 0).
Proof. reflexivity. Qed.

(** C3 (recovery decision of [open]), for the sizes that are not
    negative.  A requested size of 54 bytes or less (file header, message
    header and one byte) is refused by the size check: [open] returns
    [false] before it touches the file or the caller's structure.  For
    every file contents and every requested size above 54 bytes, let
    [bytes] be the first 45 bytes of the file once it has been cut or
    zero-padded to the requested size: [open] succeeds and leaves the file
    with exactly the requested size; when the header is trusted the handle
    holds the append pointer, extract pointer, byte count and message
    count recorded in [bytes], and in every other case it holds the empty
    state: both pointers at 45 and both counts zero. *)
Theorem C3_open_recovers_or_resets (mq0 : T_PERSIMQ) (disk : list Z) (size : Z) :
  0 <= size <= OFF_MAX ->
  (size <= sizeof_TFileHeader + sizeof_TMessageHeader + 1 ->
   PERSIMQ_open mq0 disk size = (false, mq0, mkFile disk 0))
  /\ (sizeof_TFileHeader + sizeof_TMessageHeader + 1 < size ->
      exists f,
        f_data f = resize (Z.to_nat size) 0 disk
        /\ (header_trusted (take 45 (f_data f)) size ->
            PERSIMQ_open mq0 disk size
            = (true,
               mkMQ 3
                    (s64 (le_decode (take 8 (drop 4 (take 45 (f_data f))))))
                    (s64 (le_decode (take 8 (drop 12 (take 45 (f_data f))))))
                    (s64 (le_decode (take 8 (drop 20 (take 45 (f_data f))))))
                    (s64 (le_decode (take 8 (drop 28 (take 45 (f_data f))))))
                    size,
               f))
        /\ (~ header_trusted (take 45 (f_data f)) size ->
            PERSIMQ_open mq0 disk size
            = (true, mkMQ 3 sizeof_TFileHeader sizeof_TFileHeader 0 0 size, f))).
Proof.
  intros Hrange. split.
  - intros Hsmall. unfold PERSIMQ_open.
    rewrite (u64_id size) by (unfold OFF_MAX in Hrange; lia).
    destruct (Z.leb_spec size (sizeof_TFileHeader + sizeof_TMessageHeader + 1));
      [reflexivity | lia].
  - intros Hlarge.
    assert (Hsize : sizeof_TFileHeader + sizeof_TMessageHeader + 1 < size <= OFF_MAX)
      by lia.
    exists (mkFile (resize (Z.to_nat size) 0 disk) 45).
    split; [reflexivity |].
    cbn [f_data].
    rewrite (PERSIMQ_open_accepted mq0 disk size Hsize). cbv zeta.
    pose proof (header_check_trusted (take 45 (resize (Z.to_nat size) 0 disk)) size)
      as Hcheck.
    destruct ((strncmp _ FILE_ID 4 =? 0) && _ && _).
    + split; [reflexivity |]. intros Hno. exfalso. apply Hno, Hcheck. reflexivity.
    + split; [| reflexivity]. intros Hyes. apply Hcheck in Hyes. discriminate Hyes.
Qed.

(** An instance of each case: a file that does not exist yet, the file a
    queue with one message of 17 bytes was closed on, and a request for
    ten bytes. *)
Lemma C3_open_recovers_or_resets_witness :
  (exists f,
     f_data f = replicate 64 0
     /\ PERSIMQ_open (mkMQ 0 0 0 0 0 0) [] 64 = (true, mkMQ 3 45 45 0 0 64, f))
  /\ (exists f,
        PERSIMQ_open (mkMQ 0 0 0 0 0 0)
          ([108; 80; 109; 81; 70; 0; 0; 0; 0; 0; 0; 0; 45; 0; 0; 0; 0; 0; 0; 0;
            25; 0; 0; 0; 0; 0; 0; 0; 1; 0; 0; 0; 0; 0; 0; 0; 128; 0; 0; 0; 0; 0;
            0; 0; 36] ++ replicate 83 0) 128
        = (true, mkMQ 3 70 45 25 1 128, f))
  /\ PERSIMQ_open (mkMQ 7 1 2 3 4 5) [1; 2; 3] 10
     = (false, mkMQ 7 1 2 3 4 5, mkFile [1; 2; 3] 0).
Proof.
  split; [| split].
  - destruct (C3_open_recovers_or_resets (mkMQ 0 0 0 0 0 0) [] 64) as [_ Hlarge].
    { unfold OFF_MAX. lia. }
    destruct Hlarge as (f & Hdata & _ & Hreset).
    { unfold sizeof_TFileHeader, sizeof_TMessageHeader. lia. }
    exists f. split; [exact Hdata |].
    apply Hreset. rewrite Hdata. intros [Htag _]. discriminate Htag.
  - destruct (C3_open_recovers_or_resets (mkMQ 0 0 0 0 0 0)
                ([108; 80; 109; 81; 70; 0; 0; 0; 0; 0; 0; 0; 45; 0; 0; 0; 0; 0; 0; 0;
                  25; 0; 0; 0; 0; 0; 0; 0; 1; 0; 0; 0; 0; 0; 0; 0; 128; 0; 0; 0; 0; 0;
                  0; 0; 36] ++ replicate 83 0) 128) as [_ Hlarge].
    { unfold OFF_MAX. lia. }
    destruct Hlarge as (f & Hdata & Hrecover & _).
    { unfold sizeof_TFileHeader, sizeof_TMessageHeader. lia. }
    exists f.
    rewrite Hrecover; rewrite Hdata; [reflexivity |].
    repeat split.
  - destruct (C3_open_recovers_or_resets (mkMQ 7 1 2 3 4 5) [1; 2; 3] 10)
      as [Hsmall _].
    { unfold OFF_MAX. lia. }
    apply Hsmall. unfold sizeof_TFileHeader, sizeof_TMessageHeader. lia.
Defined.

(** ** Claims about reading *)

(** C10 ([get] with a buffer too small for the first message).  On an
    open queue with messages, whose file has its configured size and
    whose first message header carries the tag ["PMQ"], [get] with a
    buffer smaller than the length recorded in that header returns
    failure, hands back the handle unchanged, leaves the contents of the
    file alone and stores nothing in the buffer; when the [message_size]
    pointer is non-null the recorded length is stored through it. *)
Theorem C10_get_short_buffer_reports_size
    (mq : T_PERSIMQ) (f : file) (buffer_size : Z) (want_size : bool) :
  fd mq <> 0 ->
  PERSIMQ_messages_available mq <> 0 ->
  sizeof_TFileHeader + sizeof_TMessageHeader < file_size mq <= OFF_MAX ->
  Z.of_nat (length (f_data f)) = file_size mq ->
  mh_ID (TMessageHeader_of_bytes
           (naive_read (f_data f) (file_size mq)
                       (offset_roll (extract_ptr mq) (file_size mq) 0) 8))
  = MESSAGE_ID ->
  buffer_size
  < mh_message_size
      (TMessageHeader_of_bytes
         (naive_read (f_data f) (file_size mq)
                     (offset_roll (extract_ptr mq) (file_size mq) 0) 8)) ->
  exists f',
    f_data f' = f_data f
    /\ PERSIMQ_get mq f buffer_size want_size
       = (false, mq, f', [],
          if want_size
          then Some (mh_message_size
                       (TMessageHeader_of_bytes
                          (naive_read (f_data f) (file_size mq)
                             (offset_roll (extract_ptr mq) (file_size mq) 0) 8)))
          else None).
Proof.
  intros Hopen Havail Hfs Hsize Htag Hshort.
  destruct (PERSIMQ_read_message_header_open mq f (extract_ptr mq) Hopen Hfs Hsize)
    as [pos Hhdr].
  cbv zeta in Hhdr.
  set (header := TMessageHeader_of_bytes _) in *.
  rewrite Htag in Hhdr. change (memcmp MESSAGE_ID MESSAGE_ID 3 =? 0) with true in Hhdr.
  exists (mkFile (f_data f) pos). split; [reflexivity |].
  unfold PERSIMQ_get.
  destruct (Z.eqb_spec (fd mq) 0) as [? | _]; [contradiction |].
  destruct (Z.eqb_spec (PERSIMQ_messages_available mq) 0) as [? | _]; [contradiction |].
  rewrite Hhdr. cbn [negb].
  destruct (Z.ltb_spec buffer_size (mh_message_size header)); [reflexivity | lia].
Qed.

(** ** The example scenario *)

(** C1, as stated, on the 64-byte file of the example program: the data
    region of a 64-byte file is 19 bytes long and the record of the
    17-byte message needs 25, so [push] fails and leaves the queue as it
    was; after [close] and a second [open] the queue is empty and [get]
    fails. *)
Lemma C1_push_fails_on_64_byte_file :
  exists mq1 f1 f3 mq4 f4,
    PERSIMQ_open (mkMQ 0 0 0 0 0 0) [] 64 = (true, mq1, f1)
    /\ PERSIMQ_bytes_free mq1 = 19
    /\ PERSIMQ_push mq1 f1 example_message = (false, mq1, f1)
    /\ PERSIMQ_close mq1 f1 = (true, f3)
    /\ PERSIMQ_open (mkMQ 0 0 0 0 0 0) (f_data f3) 64 = (true, mq4, f4)
    /\ PERSIMQ_is_empty mq4 = true
    /\ PERSIMQ_get mq4 f4 100 false = (false, mq4, f4, [], None).
Proof.
  do 5 eexists.
  split; [vm_compute; reflexivity |].
  split; [vm_compute; reflexivity |].
  split; [vm_compute; reflexivity |].
  split; [vm_compute; reflexivity |].
  split; [vm_compute; reflexivity |].
  split; vm_compute; reflexivity.
Qed.

(** C1 (the example scenario), for files that can hold the record.  For
    every file of 70 bytes or more (45 of file header, 8 of message
    header, 17 of payload) on which [open] finds no trusted header, and
    every buffer of at least 17 bytes: [open] gives an empty queue,
    [push] of the 17-byte message succeeds, [close] succeeds and leaves a
    file of the same size, a second [open] of that file succeeds,
    [is_empty] is then false, [get] returns the 17 bytes and leaves the
    handle alone, [pop] succeeds and [is_empty] is then true. *)
Theorem C1_example_scenario_from_70_bytes
    (mq0 mq0' : T_PERSIMQ) (disk : list Z) (size buffer_size : Z)
    (want_size : bool) :
  70 <= size <= OFF_MAX - sizeof_TMessageHeader ->
  ~ header_trusted (take 45 (resize (Z.to_nat size) 0 disk)) size ->
  17 <= buffer_size ->
  exists mq1 f1 mq2 f2 f3 mq4 f4 f5 mq6 f6,
    PERSIMQ_open mq0 disk size = (true, mq1, f1)
    /\ PERSIMQ_is_empty mq1 = true
    /\ PERSIMQ_push mq1 f1 example_message = (true, mq2, f2)
    /\ PERSIMQ_close mq2 f2 = (true, f3)
    /\ Z.of_nat (length (f_data f3)) = size
    /\ PERSIMQ_open mq0' (f_data f3) size = (true, mq4, f4)
    /\ PERSIMQ_is_empty mq4 = false
    /\ PERSIMQ_get mq4 f4 buffer_size want_size
       = (true, mq4, f5, example_message, if want_size then Some 17 else None)
    /\ PERSIMQ_pop mq4 f5 = (true, mq6, f6)
    /\ PERSIMQ_is_empty mq6 = true.
Proof.
  unfold sizeof_TMessageHeader, OFF_MAX. intros Hsize Hfresh Hbuf.
  pose proof (PERSIMQ_open_accepted mq0 disk size
                ltac:(unfold sizeof_TFileHeader, sizeof_TMessageHeader, OFF_MAX; lia))
    as Hopen.
  cbv zeta in Hopen.
  destruct ((strncmp _ FILE_ID 4 =? 0) && _ && _) eqn:Hcheck in Hopen.
  { apply header_check_trusted in Hcheck. contradiction. }
  clear Hcheck.
  set (mq1 := mkMQ 3 sizeof_TFileHeader sizeof_TFileHeader 0 0 size) in *.
  set (f1 := mkFile (resize (Z.to_nat size) 0 disk) 45) in *.
  assert (Hok : queue_ok mq1 f1).
  { unfold queue_ok, mq1, f1, sizeof_TFileHeader, sizeof_TMessageHeader, OFF_MAX,
      wrap_lo_margin, sizeof_TFileHeader.
    cbn [fd file_size f_data append_ptr extract_ptr count_bytes count_messages].
    rewrite length_resize. repeat split; lia. }
  destruct (push_close_open_get_pop mq1 mq0' f1 example_message buffer_size want_size
              Hok eq_refl eq_refl eq_refl)
    as (mq2 & f2 & f3 & mq4 & f4 & f5 & mq6 & f6
        & Hpush & Hclose & Hlen & Hreopen & Hfull & Hget & Hpop & Hempty).
  { change (Z.of_nat (length example_message)) with 17. lia. }
  { change (Z.of_nat (length example_message)) with 17.
    unfold mq1, sizeof_TMessageHeader, wrap_lo_margin, sizeof_TFileHeader.
    cbn [file_size]. lia. }
  { change (Z.of_nat (length example_message)) with 17. lia. }
  change (Z.of_nat (length example_message)) with 17 in Hget.
  change (file_size mq1) with size in Hlen, Hreopen.
  exists mq1, f1, mq2, f2, f3, mq4, f4, f5, mq6, f6.
  split; [exact Hopen |].
  split; [reflexivity |].
  split; [exact Hpush |].
  split; [exact Hclose |].
  split; [exact Hlen |].
  split; [exact Hreopen |].
  split; [exact Hfull |].
  split; [exact Hget |].
  split; [exact Hpop | exact Hempty].
Qed.

(** An instance: the file does not exist yet and is given 70 bytes. *)
Lemma C1_example_scenario_from_70_bytes_witness :
  exists mq1 f1 mq2 f2 f3 mq4 f4 f5 mq6 f6,
    PERSIMQ_open (mkMQ 0 0 0 0 0 0) [] 70 = (true, mq1, f1)
    /\ PERSIMQ_is_empty mq1 = true
    /\ PERSIMQ_push mq1 f1 example_message = (true, mq2, f2)
    /\ PERSIMQ_close mq2 f2 = (true, f3)
    /\ Z.of_nat (length (f_data f3)) = 70
    /\ PERSIMQ_open (mkMQ 0 0 0 0 0 0) (f_data f3) 70 = (true, mq4, f4)
    /\ PERSIMQ_is_empty mq4 = false
    /\ PERSIMQ_get mq4 f4 100 false = (true, mq4, f5, example_message, None)
    /\ PERSIMQ_pop mq4 f5 = (true, mq6, f6)
    /\ PERSIMQ_is_empty mq6 = true.
Proof.
  apply (C1_example_scenario_from_70_bytes
           (mkMQ 0 0 0 0 0 0) (mkMQ 0 0 0 0 0 0) [] 70 100 false).
  - unfold OFF_MAX, sizeof_TMessageHeader. lia.
  - intros [Htag _]. discriminate Htag.
  - lia.
Defined.

(** An instance of C10: the example file, a buffer of ten bytes. *)
Lemma C10_get_short_buffer_reports_size_witness :
  exists f',
    f_data f' = example_file
    /\ PERSIMQ_get (mkMQ 3 70 45 25 1 128) (mkFile example_file 0) 10 true
       = (false, mkMQ 3 70 45 25 1 128, f', [], Some 17).
Proof.
  apply (C10_get_short_buffer_reports_size
           (mkMQ 3 70 45 25 1 128) (mkFile example_file 0) 10 true).
  - simpl. discriminate.
  - simpl. discriminate.
  - unfold sizeof_TFileHeader, sizeof_TMessageHeader, OFF_MAX. simpl. lia.
  - reflexivity.
  - reflexivity.
  - vm_compute. reflexivity.
Defined.

(** ** Facts about [get_all] *)

(** Reading a record changes nothing of the handle but its descriptor. *)
Lemma PERSIMQ_read_message_header_counts (mq : T_PERSIMQ) (f : file) (offset : Z) :
  count_messages (snd (fst (fst (PERSIMQ_read_message_header mq f offset))))
  = count_messages mq.
Proof.
  unfold PERSIMQ_read_message_header.
  destruct (fd mq =? 0); [reflexivity |].
  destruct (wrapped_io f [] sizeof_TMessageHeader
              (offset_roll offset (file_size mq) 0) (file_size mq) false)
    as [[[ok f1] bytes] next].
  destruct ok; cbn [negb]; [| reflexivity].
  destruct (memcmp _ _ _ =? 0); reflexivity.
Qed.

Lemma PERSIMQ_read_message_data_counts (mq : T_PERSIMQ) (f : file)
    (message_size message_crc extract_ptr : Z) :
  count_messages
    (snd (fst (fst (PERSIMQ_read_message_data mq f message_size message_crc
                      extract_ptr))))
  = count_messages mq.
Proof.
  unfold PERSIMQ_read_message_data.
  destruct (wrapped_io f [] message_size extract_ptr (file_size mq) false)
    as [[[ok f1] buffer] next].
  destruct ok; cbn [negb]; [| reflexivity].
  destruct (eval_crc8 _ =? message_crc); reflexivity.
Qed.

(** One turn of the loop of [get_all], written out. *)
Lemma get_all_loop_step (fuel : nat) mq f max_messages result buffer buffer_size
    message_idx current_ptr :
  get_all_loop (S fuel) mq f max_messages result buffer buffer_size message_idx
               current_ptr
  = if (message_idx <? u64 (count_messages mq)) && (message_idx <? max_messages)
    then
      let '(ok, mq1, f1, header) := PERSIMQ_read_message_header mq f current_ptr in
      if negb ok then GetAllReturn mq1 f1 buffer
      else if buffer_size <? mh_message_size header
      then GetAllLeave result mq1 f1 buffer buffer_size (message_idx + 1)
      else
        let '(ok, mq2, f2, stored) :=
          PERSIMQ_read_message_data mq1 f1 (mh_message_size header)
            (mh_message_crc header)
            (s64 (u64 current_ptr + sizeof_TMessageHeader)) in
        if negb (result && ok)
        then GetAllLeave (result && ok) mq2 f2 (buffer ++ stored) buffer_size
                         (message_idx + 1)
        else
          get_all_loop fuel mq2 f2 max_messages (result && ok)
            (buffer ++ stored)
            (u64 (buffer_size - mh_message_size header))
            (message_idx + 1)
            (offset_roll current_ptr (file_size mq2)
               (u64 (mh_message_size header + sizeof_TMessageHeader)))
    else GetAllLeave result mq f buffer buffer_size message_idx.
Proof. reflexivity. Qed.

(** The loop never runs out of turns: [message_idx] grows by one each
    turn and stops the loop at [max_messages]. *)
Lemma get_all_loop_fuel (fuel : nat) :
  forall mq f max_messages result buffer buffer_size message_idx current_ptr,
  (Z.to_nat (max_messages - message_idx) < fuel)%nat ->
  get_all_loop (S fuel) mq f max_messages result buffer buffer_size message_idx
               current_ptr
  = get_all_loop fuel mq f max_messages result buffer buffer_size message_idx
                 current_ptr.
Proof.
  induction fuel as [| fuel IH];
    intros mq f max_messages result buffer buffer_size message_idx current_ptr Hfuel;
    [lia |].
  rewrite (get_all_loop_step (S fuel)), (get_all_loop_step fuel).
  destruct (message_idx <? u64 (count_messages mq)); cbn [andb]; [| reflexivity].
  destruct (Z.ltb_spec message_idx max_messages); [| reflexivity].
  destruct (PERSIMQ_read_message_header mq f current_ptr) as [[[ok mq1] f1] header].
  destruct ok; cbn [negb]; [| reflexivity].
  destruct (buffer_size <? mh_message_size header); [reflexivity |].
  destruct (PERSIMQ_read_message_data mq1 f1 _ _ _) as [[[ok mq2] f2] stored].
  destruct (negb (result && ok)); [reflexivity |].
  apply IH. lia.
Qed.

(** The count the loop leaves with is at most the message count and at
    most the limit, unless the loop did not turn at all. *)
Lemma get_all_loop_bounds (fuel : nat) :
  forall mq f max_messages result buffer buffer_size message_idx current_ptr,
  match get_all_loop fuel mq f max_messages result buffer buffer_size message_idx
                     current_ptr with
  | GetAllReturn _ _ _ => True
  | GetAllLeave _ _ _ _ _ message_idx' =>
      message_idx' = message_idx
      \/ (message_idx < message_idx'
          /\ message_idx' <= u64 (count_messages mq)
          /\ message_idx' <= max_messages)
  end.
Proof.
  induction fuel as [| fuel IH];
    intros mq f max_messages result buffer buffer_size message_idx current_ptr.
  - simpl. left. reflexivity.
  - rewrite get_all_loop_step.
    destruct (Z.ltb_spec message_idx (u64 (count_messages mq))) as [Hcount | _];
      cbn [andb]; [| left; reflexivity].
    destruct (Z.ltb_spec message_idx max_messages) as [Hmax | _];
      [| left; reflexivity].
    pose proof (PERSIMQ_read_message_header_counts mq f current_ptr) as Hcm1.
    destruct (PERSIMQ_read_message_header mq f current_ptr) as [[[ok mq1] f1] header].
    cbn [fst snd] in Hcm1.
    destruct ok; cbn [negb]; [| exact I].
    destruct (buffer_size <? mh_message_size header); [right; lia |].
    pose proof (PERSIMQ_read_message_data_counts mq1 f1 (mh_message_size header)
                  (mh_message_crc header)
                  (s64 (u64 current_ptr + sizeof_TMessageHeader))) as Hcm2.
    destruct (PERSIMQ_read_message_data mq1 f1 _ _ _) as [[[ok mq2] f2] stored].
    cbn [fst snd] in Hcm2.
    destruct (negb (result && ok)); [right; lia |].
    specialize (IH mq2 f2 max_messages (result && ok) (buffer ++ stored)
                   (u64 (buffer_size - mh_message_size header))
                   (message_idx + 1)
                   (offset_roll current_ptr (file_size mq2)
                      (u64 (mh_message_size header + sizeof_TMessageHeader)))).
    destruct (get_all_loop fuel mq2 f2 _ _ _ _ _ _); [exact I |].
    rewrite Hcm2, Hcm1 in IH. right. lia.
Qed.

(** What [get_all] reports as the number of messages read is at most the
    limit it was given and at most the number of messages in the queue. *)
Lemma PERSIMQ_get_all_messages_read_bounds (mq : T_PERSIMQ) (f : file)
    (buffer_size max_messages : Z) result mq' f' buffer total_size messages_read :
  0 <= max_messages ->
  PERSIMQ_get_all mq f buffer_size max_messages
  = (result, mq', f', buffer, total_size, Some messages_read) ->
  0 <= messages_read <= max_messages
  /\ messages_read <= u64 (count_messages mq).
Proof.
  intros Hmax. unfold PERSIMQ_get_all.
  destruct (fd mq =? 0); [discriminate |].
  destruct (PERSIMQ_messages_available mq =? 0); [discriminate |].
  pose proof (get_all_loop_bounds (S (Z.to_nat max_messages)) mq f max_messages true
                [] buffer_size 0 (extract_ptr mq)) as Hb.
  destruct (get_all_loop _ _ _ _ _ _ _ _ _); [discriminate |].
  intros H. injection H as _ _ _ _ _ <-.
  pose proof (u64_range (count_messages mq)). lia.
Qed.

(** When the first message does not fit the buffer, [get_all] stops with
    success, stores nothing, and still reports one message read. *)
Lemma PERSIMQ_get_all_first_does_not_fit (mq : T_PERSIMQ) (f : file)
    (buffer_size max_messages : Z) :
  fd mq <> 0 ->
  0 < count_messages mq <= OFF_MAX ->
  0 < max_messages ->
  sizeof_TFileHeader + sizeof_TMessageHeader < file_size mq <= OFF_MAX ->
  Z.of_nat (length (f_data f)) = file_size mq ->
  mh_ID (TMessageHeader_of_bytes
           (naive_read (f_data f) (file_size mq)
                       (offset_roll (extract_ptr mq) (file_size mq) 0) 8))
  = MESSAGE_ID ->
  buffer_size
  < mh_message_size
      (TMessageHeader_of_bytes
         (naive_read (f_data f) (file_size mq)
                     (offset_roll (extract_ptr mq) (file_size mq) 0) 8)) ->
  exists pos,
    PERSIMQ_get_all mq f buffer_size max_messages
    = (true, mq, mkFile (f_data f) pos, [], Some 0, Some 1).
Proof.
  intros Hopen Hcount Hmax Hfs Hsize Htag Hshort.
  destruct (PERSIMQ_read_message_header_open mq f (extract_ptr mq) Hopen Hfs Hsize)
    as [pos Hhdr].
  cbv zeta in Hhdr.
  set (header := TMessageHeader_of_bytes _) in *.
  rewrite Htag in Hhdr. change (memcmp MESSAGE_ID MESSAGE_ID 3 =? 0) with true in Hhdr.
  exists pos. unfold PERSIMQ_get_all.
  destruct (Z.eqb_spec (fd mq) 0) as [? | _]; [contradiction |].
  unfold PERSIMQ_messages_available.
  destruct (Z.eqb_spec (count_messages mq) 0) as [? | _]; [lia |].
  rewrite get_all_loop_step.
  rewrite (u64_id (count_messages mq)) by (unfold OFF_MAX in Hcount; lia).
  destruct (Z.ltb_spec 0 (count_messages mq)) as [_ | ?]; [| lia].
  destruct (Z.ltb_spec 0 max_messages) as [_ | ?]; [| lia].
  cbn [andb]. rewrite Hhdr. cbn [negb].
  destruct (Z.ltb_spec buffer_size (mh_message_size header)) as [_ | ?]; [| lia].
  rewrite Z.sub_diag. reflexivity.
Qed.

(** ** Claims about [get_all] *)

(** C6 ([get_all], the count it reports).  The queue of the example file
    holds one intact message of 17 bytes: [get] with a large buffer
    returns it.  [get_all] with a buffer of ten bytes and a limit of four
    messages stops with success on that message, stores nothing in the
    buffer and reports a total size of 0, and yet reports one message
    read: [message_idx] is incremented at the top of the loop, before the
    test that leaves it. *)
Theorem C6_get_all_counts_the_message_it_skips :
  PERSIMQ_get (mkMQ 3 70 45 25 1 128) (mkFile example_file 0) 100 true
  = (true, mkMQ 3 70 45 25 1 128, mkFile example_file 70, example_message, Some 17)
  /\ PERSIMQ_get_all (mkMQ 3 70 45 25 1 128) (mkFile example_file 0) 10 4
     = (true, mkMQ 3 70 45 25 1 128, mkFile example_file 53, [], Some 0, Some 1).
Proof. split; vm_compute; reflexivity. Qed.

(** ** The checksum *)

Lemma eval_crc8_app (data1 data2 : list Z) :
  eval_crc8 (data1 ++ data2) = fold_left crc8_byte data2 (eval_crc8 data1).
Proof. unfold eval_crc8. apply fold_left_app. Qed.

Lemma crc8_bit_range (crc : Z) : 0 <= crc8_bit crc < 256.
Proof.
  unfold crc8_bit, u8.
  destruct (Z.land crc 128 =? 0); apply Z.mod_pos_bound; lia.
Qed.

Lemma crc8_byte_range (crc b : Z) : 0 <= crc8_byte crc b < 256.
Proof. unfold crc8_byte. cbn [Nat.iter]. apply crc8_bit_range. Qed.

Lemma eval_crc8_range (data : list Z) : 0 <= eval_crc8 data < 256.
Proof.
  induction data as [| x data' _] using rev_ind.
  - unfold eval_crc8. simpl. lia.
  - rewrite eval_crc8_app. cbn [fold_left]. apply crc8_byte_range.
Qed.

(** A fact about all 256 bytes is checked on each of them. *)
Lemma forall_bytes (P : Z -> bool) :
  forallb P (map Z.of_nat (seq 0 256)) = true ->
  forall x, 0 <= x < 256 -> P x = true.
Proof.
  intros Hall x Hx.
  rewrite forallb_forall in Hall. apply Hall.
  apply in_map_iff. exists (Z.to_nat x). split; [lia |].
  apply in_seq. lia.
Qed.

Lemma lxor_byte_range (a b : Z) : 0 <= a < 256 -> 0 <= b < 256 -> 0 <= Z.lxor a b < 256.
Proof.
  intros Ha Hb. split.
  - apply Z.lxor_nonneg. lia.
  - destruct (Z.eq_dec (Z.lxor a b) 0) as [-> | Hnz]; [lia |].
    assert (Hpos : 0 < Z.lxor a b) by (pose proof (Z.lxor_nonneg a b); lia).
    apply Z.log2_lt_cancel. change (Z.log2 256) with 8.
    pose proof (Z.log2_lxor a b ltac:(lia) ltac:(lia)) as Hlog.
    assert (Z.log2 a < 8).
    { destruct (Z.eq_dec a 0) as [-> | ?]; [simpl; lia |].
      apply Z.log2_lt_pow2; lia. }
    assert (Z.log2 b < 8).
    { destruct (Z.eq_dec b 0) as [-> | ?]; [simpl; lia |].
      apply Z.log2_lt_pow2; lia. }
    lia.
Qed.

(** X1 (checksum residue).  Appending its checksum to any data makes the
    checksum of the whole zero: the stored checksum byte cancels the
    running value and eight shifts of zero stay zero. *)
Theorem X1_eval_crc8_residue (data : list Z) :
  eval_crc8 (data ++ [eval_crc8 data]) = 0.
Proof.
  rewrite eval_crc8_app. cbn [fold_left]. unfold crc8_byte.
  rewrite Z.lxor_nilpotent. reflexivity.
Qed.

Lemma crc8_blind_masks (y k : Z) :
  0 <= y < 256 -> k = 99 \/ k = 165 \/ k = 198 ->
  Nat.iter 8 crc8_bit (Z.lxor y k) = Nat.iter 8 crc8_bit y.
Proof.
  intros Hy Hk.
  apply Z.eqb_eq.
  revert y Hy.
  destruct Hk as [-> | [-> | ->]];
    apply (forall_bytes (fun y => Nat.iter 8 crc8_bit (Z.lxor y _)
                                  =? Nat.iter 8 crc8_bit y));
    vm_compute; reflexivity.
Qed.

(** X2 (what the checksum does not see).  The shift register is driven
    with the constant [0x8C], whose low bit is clear, so two of its eight
    bits are lost: changing any one byte [b] of the data to [b xor k], for
    [k] one of [0x63], [0xA5] and [0xC6], changes the data and leaves the
    checksum as it was. *)
Theorem X2_eval_crc8_blind_to_masks (pre post : list Z) (b k : Z) :
  0 <= b < 256 ->
  k = 99 \/ k = 165 \/ k = 198 ->
  Z.lxor b k <> b
  /\ eval_crc8 (pre ++ Z.lxor b k :: post) = eval_crc8 (pre ++ b :: post).
Proof.
  intros Hb Hk. split.
  - intros Heq.
    assert (Hz : Z.lxor (Z.lxor b k) b = 0) by (rewrite Heq; apply Z.lxor_nilpotent).
    rewrite (Z.lxor_comm b k), Z.lxor_assoc, Z.lxor_nilpotent, Z.lxor_0_r in Hz.
    destruct Hk as [-> | [-> | ->]]; discriminate Hz.
  - rewrite !eval_crc8_app. cbn [fold_left].
    assert (Hstep : crc8_byte (eval_crc8 pre) (Z.lxor b k)
                    = crc8_byte (eval_crc8 pre) b).
    { unfold crc8_byte.
      rewrite <- Z.lxor_assoc.
      apply crc8_blind_masks; [| exact Hk].
      apply lxor_byte_range; [apply eval_crc8_range | exact Hb]. }
    rewrite Hstep. reflexivity.
Qed.

Lemma X2_eval_crc8_blind_to_masks_witness :
  eval_crc8 [84; 101; Z.lxor 115 198; 116] = eval_crc8 [84; 101; 115; 116].
Proof.
  apply (X2_eval_crc8_blind_to_masks [84; 101] [116] 115 198); [lia | tauto].
Defined.

Lemma crc8_low_bits (y : Z) :
  0 <= y < 256 -> Nat.iter 7 crc8_bit y mod 4 = 0.
Proof.
  intros Hy. apply Z.eqb_eq. revert y Hy.
  apply (forall_bytes (fun y => Nat.iter 7 crc8_bit y mod 4 =? 0)).
  vm_compute. reflexivity.
Qed.

(** X3 (range of the checksum).  The checksum of any data is a byte, and
    the checksum of data that are not empty is a multiple of four: only 64
    of the 256 byte values are ever produced. *)
Theorem X3_eval_crc8_values (data : list Z) :
  0 <= eval_crc8 data < 256
  /\ (data <> [] -> eval_crc8 data mod 4 = 0).
Proof.
  split; [apply eval_crc8_range |].
  induction data as [| x data' _] using rev_ind; [congruence |].
  intros _. rewrite eval_crc8_app. cbn [fold_left]. unfold crc8_byte.
  change (Nat.iter 8 crc8_bit (Z.lxor (eval_crc8 data') x))
    with (Nat.iter 7 crc8_bit (crc8_bit (Z.lxor (eval_crc8 data') x))).
  apply crc8_low_bits, crc8_bit_range.
Qed.

Lemma X3_eval_crc8_values_witness :
  0 <= eval_crc8 [1; 2; 3] < 256 /\ eval_crc8 [1; 2; 3] mod 4 = 0.
Proof.
  destruct (X3_eval_crc8_values [1; 2; 3]) as [Hrange Hlow].
  split; [exact Hrange | apply Hlow; discriminate].
Defined.

(** ** More on the address mapper *)

(** X4 (composition of [offset_roll]).  For an offset of the data region,
    advancing by [i] and then by [j] is advancing by [i + j]; advancing by
    the length of the region comes back to the same offset; and a zero
    increment normalises once and for all, whatever the offset. *)
Theorem X4_offset_roll_composes (c hi i j : Z) :
  wrap_lo_margin < hi <= OFF_MAX ->
  wrap_lo_margin <= c < hi ->
  0 <= i -> 0 <= j -> i + j <= OFF_MAX ->
  offset_roll (offset_roll c hi i) hi j = offset_roll c hi (i + j)
  /\ offset_roll c hi (hi - wrap_lo_margin) = c
  /\ (forall c', offset_roll (offset_roll c' hi 0) hi 0 = offset_roll c' hi 0).
Proof.
  intros Hhi Hc Hi Hj Hij.
  split; [apply offset_roll_add; assumption |].
  split; [| intros c'; apply offset_roll_0_idemp; assumption].
  rewrite offset_roll_in_region;
    unfold OFF_MAX, wrap_lo_margin, sizeof_TFileHeader in *; try lia.
  replace (c - 45 + (hi - 45)) with (c - 45 + 1 * (hi - 45)) by lia.
  rewrite Z.mod_add, Z.mod_small by lia. lia.
Qed.

Lemma X4_offset_roll_composes_witness :
  offset_roll (offset_roll 60 64 8) 64 17 = offset_roll 60 64 25
  /\ offset_roll 60 64 19 = 60.
Proof.
  destruct (X4_offset_roll_composes 60 64 8 17) as (H1 & H2 & _);
    unfold OFF_MAX, wrap_lo_margin, sizeof_TFileHeader; try lia.
  split; [exact H1 | exact H2].
Defined.

(** ** More on the retry loops *)

(** X5 (a read that runs into the end of the file).  [multiread] of a span
    that ends exactly at the end of the file succeeds in one turn; of a
    span that reaches past it, it fails: [read] returns what is left, then
    0, which the loop takes for an error. *)
Theorem X5_multiread_end_of_file (f : file) (data : list Z) (length : Z) :
  0 <= f_pos f ->
  0 < length < 2 ^ 64 ->
  (f_pos f + length = Z.of_nat (List.length (f_data f)) ->
   fst (fst (multiread f data length)) = true)
  /\ (Z.of_nat (List.length (f_data f)) < f_pos f + length ->
      fst (fst (multiread f data length)) = false).
Proof.
  intros Hpos Hlen. split.
  - intros Hend. rewrite multiread_inside by lia. reflexivity.
  - intros Hpast. unfold multiread.
    destruct (Z.to_nat length) as [| n] eqn:Hn; [lia |].
    change (multiread_loop (S (S n)) f [] length)
      with (let '(result, chunk, f') := os_read f length in
            if result <=? 0 then (false, f', [])
            else
              let length' := u64 (length - result) in
              let data' := [] ++ chunk in
              if length' =? 0 then (true, f', data')
              else multiread_loop (S n) f' data' length').
    unfold os_read.
    set (chunk := take (Z.to_nat length) (drop (Z.to_nat (f_pos f)) (f_data f))).
    assert (Hchunk : Z.of_nat (List.length chunk)
                     = Z.max 0 (Z.of_nat (List.length (f_data f)) - f_pos f)).
    { unfold chunk. rewrite length_take, length_drop. lia. }
    destruct (Z.leb_spec (Z.of_nat (List.length chunk)) 0); [reflexivity |].
    cbv zeta.
    rewrite (u64_id (length - Z.of_nat (List.length chunk))) by lia.
    destruct (Z.eqb_spec (length - Z.of_nat (List.length chunk)) 0); [lia |].
    cbn [multiread_loop]. unfold os_read. cbn [f_data f_pos].
    rewrite drop_ge by lia. rewrite take_nil. reflexivity.
Qed.

Lemma X5_multiread_end_of_file_witness :
  fst (fst (multiread (mkFile [1; 2; 3; 4] 1) [] 3)) = true
  /\ fst (fst (multiread (mkFile [1; 2; 3; 4] 1) [] 4)) = false.
Proof.
  split.
  - apply (X5_multiread_end_of_file (mkFile [1; 2; 3; 4] 1) [] 3); simpl; lia.
  - apply (X5_multiread_end_of_file (mkFile [1; 2; 3; 4] 1) [] 4); simpl; lia.
Defined.

(** ** The ring, position by position *)

Lemma ring_advance_S hi p (i : nat) :
  ring_advance hi p (S i) = ring_advance hi (ring_next hi p) i.
Proof. reflexivity. Qed.

Lemma ring_advance_position hi p (i : nat) :
  wrap_lo_margin < hi <= OFF_MAX ->
  wrap_lo_margin <= p < hi ->
  Z.of_nat i <= OFF_MAX ->
  ring_advance hi p i
  = wrap_lo_margin + (p - wrap_lo_margin + Z.of_nat i) mod (hi - wrap_lo_margin).
Proof.
  intros Hhi Hp Hi.
  rewrite ring_advance_offset_roll by assumption.
  apply offset_roll_in_region;
    unfold OFF_MAX, wrap_lo_margin, sizeof_TFileHeader in *; lia.
Qed.

Lemma mod_distinct (cap u v : Z) :
  0 < cap -> 0 < v - u < cap -> u mod cap <> v mod cap.
Proof.
  intros Hcap Huv Heq.
  assert (Hz : (v - u) mod cap = 0).
  { rewrite Zminus_mod, Heq, Z.sub_diag. apply Z.mod_0_l. lia. }
  rewrite Z.mod_small in Hz by lia. lia.
Qed.

(** A write into the ring leaves alone the positions it does not step on. *)
Lemma naive_write_lookup_other hi data : forall contents a (q : nat),
  0 <= a ->
  (forall j : nat, (j < length data)%nat -> ring_advance hi a j <> Z.of_nat q) ->
  naive_write contents hi a data !! q = contents !! q.
Proof.
  induction data as [| b data IH]; intros contents a q Ha Hother; [reflexivity |].
  simpl naive_write.
  rewrite IH.
  - apply list_lookup_insert_ne.
    specialize (Hother 0%nat ltac:(simpl; lia)). simpl in Hother. lia.
  - unfold ring_next. destruct (offset_roll_range 0 64 0) as [H45 _];
      [unfold wrap_lo_margin, sizeof_TFileHeader, OFF_MAX; lia |].
    destruct (a + 1 <? hi); unfold wrap_lo_margin, sizeof_TFileHeader in *; lia.
  - intros j Hj. rewrite <- ring_advance_S. apply Hother. simpl. lia.
Qed.

(** A read from the ring depends on the positions it steps on only. *)
Lemma naive_read_ext hi (n : nat) : forall contents contents' p,
  (forall i : nat, (i < n)%nat ->
     contents !! Z.to_nat (ring_advance hi p i)
     = contents' !! Z.to_nat (ring_advance hi p i)) ->
  naive_read contents hi p n = naive_read contents' hi p n.
Proof.
  induction n as [| n IH]; intros contents contents' p Hsame; [reflexivity |].
  simpl naive_read.
  pose proof (Hsame 0%nat ltac:(lia)) as H0. simpl ring_advance in H0.
  rewrite <- H0.
  destruct (contents !! Z.to_nat p); [| reflexivity].
  f_equal. apply IH. intros i Hi.
  rewrite <- ring_advance_S. apply Hsame. lia.
Qed.

(** Two spans of the ring that follow one another within one turn from an
    offset [e] do not meet: what is written into the second is not seen by
    a read of the first.  The spans are given by their distances [x] and
    [y] from [e]. *)
Lemma naive_read_write_other contents hi e x y (n : nat) data :
  wrap_lo_margin < hi <= OFF_MAX ->
  wrap_lo_margin <= e < hi ->
  0 <= x -> x + Z.of_nat n <= y ->
  y + Z.of_nat (length data) <= hi - wrap_lo_margin ->
  naive_read (naive_write contents hi (offset_roll e hi y) data) hi
             (offset_roll e hi x) n
  = naive_read contents hi (offset_roll e hi x) n.
Proof.
  intros Hhi He Hx Hxy Hyx.
  assert (Hlo : wrap_lo_margin = 45) by reflexivity.
  pose proof (offset_roll_range e hi x Hhi) as Hpx.
  pose proof (offset_roll_range e hi y Hhi) as Hpy.
  unfold OFF_MAX in Hhi.
  apply naive_read_ext. intros i Hi.
  apply naive_write_lookup_other; [lia |].
  intros j Hj.
  rewrite Z2Nat.id
    by (pose proof (ring_advance_range hi i (offset_roll e hi x)
                      ltac:(lia) Hpx); lia).
  rewrite !ring_advance_offset_roll by (unfold OFF_MAX; lia).
  rewrite !offset_roll_add by (unfold OFF_MAX; lia).
  rewrite !offset_roll_in_region by (unfold OFF_MAX; lia).
  intros Heq.
  apply (mod_distinct (hi - wrap_lo_margin)
                      (e - wrap_lo_margin + (x + Z.of_nat i))
                      (e - wrap_lo_margin + (y + Z.of_nat j)));
    lia.
Qed.

(** ** The records in the ring *)

Lemma record_bytes_length (m : list Z) :
  length (record_bytes m) = (8 + length m)%nat.
Proof.
  unfold record_bytes. rewrite length_app, TMessageHeader_bytes_length. reflexivity.
Qed.

Lemma record_size_length (m : list Z) :
  Z.of_nat (length (record_bytes m)) = record_size m.
Proof.
  rewrite record_bytes_length. unfold record_size, sizeof_TMessageHeader. lia.
Qed.

Lemma records_size_app (l1 l2 : list (list Z)) :
  records_size (l1 ++ l2) = records_size l1 + records_size l2.
Proof.
  induction l1 as [| m l1 IH]; cbn [records_size app]; [reflexivity |].
  rewrite IH. lia.
Qed.

Lemma records_size_count (msgs : list (list Z)) :
  8 * Z.of_nat (length msgs) <= records_size msgs.
Proof.
  induction msgs as [| m msgs IH]; cbn [records_size length]; [lia |].
  unfold record_size, sizeof_TMessageHeader. lia.
Qed.

Lemma records_size_payload (msgs : list (list Z)) :
  records_size msgs = 8 * Z.of_nat (length msgs) + payload_size msgs.
Proof.
  induction msgs as [| m msgs IH]; cbn [records_size length payload_size]; [lia |].
  unfold record_size, sizeof_TMessageHeader. lia.
Qed.

(** Writing behind the records leaves them as they are. *)
Lemma records_at_write_other contents hi e data (msgs : list (list Z)) :
  forall x y,
  wrap_lo_margin < hi <= OFF_MAX ->
  wrap_lo_margin <= e < hi ->
  0 <= x -> x + records_size msgs <= y ->
  y + Z.of_nat (length data) <= hi - wrap_lo_margin ->
  records_at contents hi (offset_roll e hi x) msgs ->
  records_at (naive_write contents hi (offset_roll e hi y) data) hi
             (offset_roll e hi x) msgs.
Proof.
  induction msgs as [| m msgs IH]; intros x y Hhi He Hx Hxy Hy Hat; [exact I |].
  cbn [records_at] in Hat. destruct Hat as [Hhead Htail].
  cbn [records_size] in Hxy.
  pose proof (records_size_count msgs) as Hcount.
  assert (Hm : 8 <= record_size m) by (unfold record_size, sizeof_TMessageHeader; lia).
  assert (Hlo : wrap_lo_margin = 45) by reflexivity.
  cbn [records_at]. split.
  - rewrite naive_read_write_other; try assumption.
    rewrite record_size_length. lia.
  - rewrite offset_roll_add in Htail by (unfold OFF_MAX in *; lia).
    rewrite offset_roll_add by (unfold OFF_MAX in *; lia).
    apply IH; try assumption; lia.
Qed.

(** The header record at the start of the file is outside the ring. *)
Lemma records_at_overwrite_header contents hi header (msgs : list (list Z)) :
  forall p,
  (length header <= 45)%nat -> (45 <= length contents)%nat ->
  wrap_lo_margin < hi <= OFF_MAX -> wrap_lo_margin <= p < hi ->
  records_at contents hi p msgs ->
  records_at (overwrite contents 0 header) hi p msgs.
Proof.
  induction msgs as [| m msgs IH]; intros p Hh Hc Hhi Hp Hat; [exact I |].
  cbn [records_at] in Hat. destruct Hat as [Hhead Htail].
  cbn [records_at]. split.
  - rewrite naive_read_overwrite_header; try assumption; lia.
  - apply IH; try assumption. apply offset_roll_range. assumption.
Qed.

Lemma records_at_app contents hi (l1 l2 : list (list Z)) :
  forall p,
  wrap_lo_margin < hi <= OFF_MAX -> wrap_lo_margin <= p < hi ->
  records_size l1 <= OFF_MAX ->
  records_at contents hi p l1 ->
  records_at contents hi (offset_roll p hi (records_size l1)) l2 ->
  records_at contents hi p (l1 ++ l2).
Proof.
  induction l1 as [| m l1 IH]; intros p Hhi Hp Hsize H1 H2.
  - cbn [records_size app] in *. rewrite offset_roll_0_id in H2 by assumption.
    exact H2.
  - cbn [records_at] in H1. destruct H1 as [Hhead Htail].
    cbn [records_size] in *.
    pose proof (records_size_count l1) as Hcount.
    assert (Hm : 8 <= record_size m)
      by (unfold record_size, sizeof_TMessageHeader; lia).
    cbn [records_at app]. split; [exact Hhead |].
    apply IH; try assumption.
    + apply offset_roll_range. assumption.
    + lia.
    + rewrite offset_roll_add by lia. exact H2.
Qed.

(** The header and the payload of the record at an offset. *)
Lemma record_at_parts contents hi p (m : list Z) :
  wrap_lo_margin < hi <= OFF_MAX -> wrap_lo_margin <= p < hi ->
  hi <= Z.of_nat (length contents) ->
  naive_read contents hi p (length (record_bytes m)) = record_bytes m ->
  naive_read contents hi p 8 = TMessageHeader_bytes (push_header m)
  /\ naive_read contents hi (offset_roll p hi sizeof_TMessageHeader) (length m) = m.
Proof.
  intros Hhi Hp Hlen Hrec.
  assert (Hlo : wrap_lo_margin = 45) by reflexivity.
  rewrite record_bytes_length in Hrec.
  rewrite naive_read_app in Hrec by lia.
  unfold record_bytes in Hrec.
  apply app_inj_1 in Hrec.
  - rewrite ring_advance_offset_roll in Hrec by (unfold OFF_MAX in *; lia).
    exact Hrec.
  - rewrite naive_read_length, TMessageHeader_bytes_length by lia. reflexivity.
Qed.

Lemma push_header_fields (m : list Z) :
  0 <= Z.of_nat (length m) < 2 ^ 32 ->
  mh_ID (push_header m) = MESSAGE_ID
  /\ mh_message_size (push_header m) = Z.of_nat (length m)
  /\ mh_message_crc (push_header m) = eval_crc8 m
  /\ TMessageHeader_of_bytes (TMessageHeader_bytes (push_header m)) = push_header m.
Proof.
  intros Hm.
  assert (Hsize : mh_message_size (push_header m) = Z.of_nat (length m)).
  { cbn [push_header mh_message_size]. unfold u32. apply Z.mod_small. lia. }
  split; [reflexivity |]. split; [exact Hsize |]. split; [reflexivity |].
  apply TMessageHeader_roundtrip; [reflexivity |].
  rewrite Hsize. exact Hm.
Qed.

Lemma queue_ok_bytes_free (mq : T_PERSIMQ) (f : file) :
  queue_ok mq f ->
  PERSIMQ_bytes_free mq = file_size mq - wrap_lo_margin - count_bytes mq.
Proof.
  intros (Hopen & Hfs & Hsize & Ha & He & Hcb & Hcm).
  unfold PERSIMQ_bytes_free, sizeof_TFileHeader, sizeof_TMessageHeader, OFF_MAX,
    wrap_lo_margin, sizeof_TFileHeader in *.
  rewrite (u64_id (file_size mq)), (u64_id (count_bytes mq)) by lia.
  rewrite (u64_id (count_bytes mq + 45)) by lia.
  rewrite u64_id by lia. lia.
Qed.

(** ** The queue is first in, first out *)

Lemma queue_holds_position (mq : T_PERSIMQ) (f : file) (pos : Z)
    (msgs : list (list Z)) :
  queue_holds mq f msgs -> queue_holds mq (mkFile (f_data f) pos) msgs.
Proof. intros H. exact H. Qed.

(** The example file holds the example message. *)
Lemma example_queue_holds :
  queue_holds (mkMQ 3 70 45 25 1 128) (mkFile example_file 0) [example_message].
Proof.
  unfold queue_holds.
  split.
  { unfold queue_ok.
    cbn [fd append_ptr extract_ptr count_bytes count_messages file_size f_data].
    change (Z.of_nat (length example_file)) with 128.
    unfold sizeof_TFileHeader, sizeof_TMessageHeader, OFF_MAX, wrap_lo_margin,
      sizeof_TFileHeader.
    repeat split; lia. }
  split.
  { constructor; [| constructor].
    change (Z.of_nat (length example_message)) with 17. lia. }
  split; [reflexivity |].
  split; [reflexivity |].
  split; [vm_compute; reflexivity |].
  cbn [records_at]. split; [vm_compute; reflexivity | exact I].
Qed.

(** [push] keeps the records of the queue and adds one behind them. *)
Lemma queue_push_holds (mq : T_PERSIMQ) (f : file) (msgs : list (list Z))
    (m : list Z) :
  queue_holds mq f msgs ->
  0 < Z.of_nat (length m) < 2 ^ 32 ->
  record_size m <= PERSIMQ_bytes_free mq ->
  exists mq' f',
    PERSIMQ_push mq f m = (true, mq', f')
    /\ queue_holds mq' f' (msgs ++ [m]).
Proof.
  intros (Hok & Hall & Hcm & Hcb & Ha & Hat) Hm Hroom.
  rewrite (queue_ok_bytes_free mq f Hok) in Hroom.
  pose proof Hok as (Hopen & Hfs & Hsize & Hain & Hein & Hcbr & Hcmr).
  assert (Hlo : wrap_lo_margin = 45) by reflexivity.
  unfold record_size in Hroom.
  destruct (PERSIMQ_push_spec mq f m Hok ltac:(lia) Hroom) as [pos Hpush].
  fold (record_bytes m) in Hpush.
  unfold sizeof_TFileHeader, sizeof_TMessageHeader, OFF_MAX in *.
  assert (Hhi : wrap_lo_margin < file_size mq <= OFF_MAX) by (unfold OFF_MAX; lia).
  pose proof (records_size_count msgs) as Hcount.
  eexists. eexists. split; [exact Hpush |].
  unfold queue_holds, queue_ok.
  cbn [fd append_ptr extract_ptr count_bytes count_messages file_size f_data].
  rewrite naive_write_length, length_app, records_size_app.
  cbn [records_size length]. unfold record_size, sizeof_TFileHeader,
    sizeof_TMessageHeader, OFF_MAX.
  pose proof (offset_roll_range (append_ptr mq) (file_size mq)
                (8 + Z.of_nat (length m)) Hhi).
  split; [repeat split; try assumption; lia |].
  split; [apply Forall_app; split; [assumption | repeat constructor; lia] |].
  split; [lia |].
  split; [lia |].
  split.
  { rewrite Ha. rewrite offset_roll_add by (unfold OFF_MAX; lia). f_equal. lia. }
  apply records_at_app; try assumption; try (unfold OFF_MAX; lia).
  - rewrite Ha.
    rewrite <- (offset_roll_0_id (extract_ptr mq) (file_size mq)) at 2 by assumption.
    apply records_at_write_other; try assumption; try lia.
    + rewrite record_size_length. unfold record_size, sizeof_TMessageHeader. lia.
    + rewrite offset_roll_0_id by assumption. exact Hat.
  - rewrite <- Ha. cbn [records_at]. split; [| exact I].
    apply naive_read_write; try assumption; try lia.
    rewrite record_size_length. unfold record_size, sizeof_TMessageHeader. lia.
Qed.

(** X6 ([push] appends).  On a queue that holds [msgs], [push] of a
    payload of at least one byte whose record fits the free bytes
    succeeds, and the queue then holds [msgs] followed by the payload: the
    records already there are untouched, wherever the new record wraps. *)
Theorem X6_push_appends (mq : T_PERSIMQ) (f : file) (msgs : list (list Z))
    (m : list Z) :
  queue_holds mq f msgs ->
  0 < Z.of_nat (length m) < 2 ^ 32 ->
  record_size m <= PERSIMQ_bytes_free mq ->
  exists mq' f',
    PERSIMQ_push mq f m = (true, mq', f')
    /\ queue_holds mq' f' (msgs ++ [m]).
Proof. exact (queue_push_holds mq f msgs m). Qed.

Lemma X6_push_appends_witness :
  exists mq' f',
    PERSIMQ_push (mkMQ 3 70 45 25 1 128) (mkFile example_file 0) [7; 8; 9]
    = (true, mq', f')
    /\ queue_holds mq' f' [example_message; [7; 8; 9]].
Proof.
  apply (X6_push_appends (mkMQ 3 70 45 25 1 128) (mkFile example_file 0)
           [example_message] [7; 8; 9] example_queue_holds).
  - cbn [length]. lia.
  - vm_compute. discriminate.
Defined.

(** [get] reads the first record of the queue. *)
Lemma queue_get_holds (mq : T_PERSIMQ) (f : file) (m : list Z)
    (rest : list (list Z)) (buffer_size : Z) (want_size : bool) :
  queue_holds mq f (m :: rest) ->
  Z.of_nat (length m) <= buffer_size ->
  exists f',
    PERSIMQ_get mq f buffer_size want_size
    = (true, mq, f', m, if want_size then Some (Z.of_nat (length m)) else None)
    /\ f_data f' = f_data f.
Proof.
  intros (Hok & Hall & Hcm & Hcb & Ha & Hat) Hbuf.
  pose proof Hok as (Hopen & Hfs & Hsize & Hain & Hein & Hcbr & Hcmr).
  assert (Hlo : wrap_lo_margin = 45) by reflexivity.
  apply Forall_cons in Hall. destruct Hall as [Hm Hall].
  cbn [records_at] in Hat. destruct Hat as [Hhead Htail].
  cbn [records_size length] in *.
  pose proof (records_size_count rest) as Hcount.
  unfold sizeof_TFileHeader, sizeof_TMessageHeader, OFF_MAX in Hfs.
  assert (Hhi : wrap_lo_margin < file_size mq <= OFF_MAX) by (unfold OFF_MAX; lia).
  destruct (record_at_parts (f_data f) (file_size mq) (extract_ptr mq) m
              Hhi Hein ltac:(lia) Hhead) as [Hhdr Hpay].
  destruct (push_header_fields m ltac:(lia)) as (Hid & Hlen & Hcrc & Hrt).
  destruct (PERSIMQ_get_spec mq f buffer_size want_size (push_header m) m Hok)
    as [pos Hget].
  - lia.
  - rewrite Hhdr. symmetry. exact Hrt.
  - rewrite Hlen, Nat2Z.id. symmetry. exact Hpay.
  - exact Hid.
  - rewrite Hlen. unfold record_size, sizeof_TMessageHeader in Hcb. lia.
  - rewrite Hlen. exact Hbuf.
  - symmetry. exact Hcrc.
  - rewrite Hlen in Hget. eexists. split; [exact Hget | reflexivity].
Qed.

(** X7 ([get] returns the oldest message).  On a queue that holds
    [m :: rest], [get] with a buffer of at least the length of [m]
    succeeds and stores exactly [m]; the handle is unchanged, the contents
    of the file are unchanged, and the length of [m] is stored through
    [message_size] when that pointer is given. *)
Theorem X7_get_returns_oldest (mq : T_PERSIMQ) (f : file) (m : list Z)
    (rest : list (list Z)) (buffer_size : Z) (want_size : bool) :
  queue_holds mq f (m :: rest) ->
  Z.of_nat (length m) <= buffer_size ->
  exists f',
    PERSIMQ_get mq f buffer_size want_size
    = (true, mq, f', m, if want_size then Some (Z.of_nat (length m)) else None)
    /\ f_data f' = f_data f.
Proof. exact (queue_get_holds mq f m rest buffer_size want_size). Qed.

Lemma X7_get_returns_oldest_witness :
  exists f',
    PERSIMQ_get (mkMQ 3 70 45 25 1 128) (mkFile example_file 0) 256 true
    = (true, mkMQ 3 70 45 25 1 128, f', example_message, Some 17)
    /\ f_data f' = example_file.
Proof.
  apply (X7_get_returns_oldest (mkMQ 3 70 45 25 1 128) (mkFile example_file 0)
           example_message [] 256 true example_queue_holds).
  vm_compute. discriminate.
Defined.

(** [pop] steps over the first record of the queue. *)
Lemma queue_pop_holds (mq : T_PERSIMQ) (f : file) (m : list Z)
    (rest : list (list Z)) :
  queue_holds mq f (m :: rest) ->
  exists mq' f',
    PERSIMQ_pop mq f = (true, mq', f')
    /\ f_data f' = f_data f
    /\ queue_holds mq' f' rest.
Proof.
  intros (Hok & Hall & Hcm & Hcb & Ha & Hat).
  pose proof Hok as (Hopen & Hfs & Hsize & Hain & Hein & Hcbr & Hcmr).
  assert (Hlo : wrap_lo_margin = 45) by reflexivity.
  apply Forall_cons in Hall. destruct Hall as [Hm Hall].
  cbn [records_at] in Hat. destruct Hat as [Hhead Htail].
  cbn [records_size length] in *.
  pose proof (records_size_count rest) as Hcount.
  unfold sizeof_TFileHeader, sizeof_TMessageHeader, OFF_MAX in Hfs.
  assert (Hhi : wrap_lo_margin < file_size mq <= OFF_MAX) by (unfold OFF_MAX; lia).
  destruct (record_at_parts (f_data f) (file_size mq) (extract_ptr mq) m
              Hhi Hein ltac:(lia) Hhead) as [Hhdr Hpay].
  destruct (push_header_fields m ltac:(lia)) as (Hid & Hlen & Hcrc & Hrt).
  destruct (PERSIMQ_pop_spec mq f (push_header m) Hok) as [pos Hpop].
  - lia.
  - rewrite Hhdr. symmetry. exact Hrt.
  - exact Hid.
  - rewrite Hlen. lia.
  - rewrite Hlen in Hpop.
    replace (Z.of_nat (length m) + sizeof_TMessageHeader) with (record_size m)
      in Hpop by (unfold record_size; lia).
    eexists. eexists. split; [exact Hpop |]. split; [reflexivity |].
    unfold queue_holds, queue_ok.
    cbn [fd append_ptr extract_ptr count_bytes count_messages file_size f_data].
    assert (Hrs : 8 <= record_size m)
      by (unfold record_size, sizeof_TMessageHeader; lia).
    rewrite s64_id by lia.
    pose proof (offset_roll_range (extract_ptr mq) (file_size mq) (record_size m) Hhi).
    unfold sizeof_TFileHeader, sizeof_TMessageHeader, OFF_MAX.
    split; [repeat split; try assumption; lia |].
    split; [exact Hall |].
    split; [lia |].
    split; [lia |].
    split; [| exact Htail].
    rewrite Ha. rewrite offset_roll_add by (unfold OFF_MAX; lia). reflexivity.
Qed.

(** X8 ([pop] removes the oldest message).  On a queue that holds
    [m :: rest], [pop] succeeds without changing the contents of the file,
    and the queue then holds [rest]. *)
Theorem X8_pop_removes_oldest (mq : T_PERSIMQ) (f : file) (m : list Z)
    (rest : list (list Z)) :
  queue_holds mq f (m :: rest) ->
  exists mq' f',
    PERSIMQ_pop mq f = (true, mq', f')
    /\ f_data f' = f_data f
    /\ queue_holds mq' f' rest.
Proof. exact (queue_pop_holds mq f m rest). Qed.

Lemma X8_pop_removes_oldest_witness :
  exists mq' f',
    PERSIMQ_pop (mkMQ 3 70 45 25 1 128) (mkFile example_file 0) = (true, mq', f')
    /\ f_data f' = example_file
    /\ queue_holds mq' f' [].
Proof.
  apply (X8_pop_removes_oldest (mkMQ 3 70 45 25 1 128) (mkFile example_file 0)
           example_message [] example_queue_holds).
Defined.

(** X9 (the whole queue survives [close] and [open]).  On a queue that
    holds [msgs], [close] succeeds and changes only the first 45 bytes of
    the file; [open] of that file with the same size then gives the same
    pointers and counts, and the queue it gives holds [msgs]. *)
Theorem X9_close_open_keeps_queue (mq mq0 : T_PERSIMQ) (f : file)
    (msgs : list (list Z)) :
  queue_holds mq f msgs ->
  exists f3 f4,
    PERSIMQ_close mq f = (true, f3)
    /\ drop 45 (f_data f3) = drop 45 (f_data f)
    /\ PERSIMQ_open mq0 (f_data f3) (file_size mq) = (true, set_fd 3 mq, f4)
    /\ queue_holds (set_fd 3 mq) f4 msgs.
Proof.
  intros (Hok & Hall & Hcm & Hcb & Ha & Hat).
  pose proof Hok as (Hopen & Hfs & Hsize & Hain & Hein & Hcbr & Hcmr).
  assert (Hlo : wrap_lo_margin = 45) by reflexivity.
  unfold sizeof_TFileHeader, sizeof_TMessageHeader, OFF_MAX in Hfs, Hcmr.
  assert (Hhi : wrap_lo_margin < file_size mq <= OFF_MAX) by (unfold OFF_MAX; lia).
  pose proof (PERSIMQ_open_after_sync mq0 mq (f_data f)) as Hreopen.
  specialize (Hreopen
                ltac:(unfold sizeof_TFileHeader, sizeof_TMessageHeader, OFF_MAX; lia)
                Hsize
                ltac:(unfold OFF_MIN, OFF_MAX; lia)
                ltac:(unfold OFF_MIN, OFF_MAX; lia)
                ltac:(unfold OFF_MIN, OFF_MAX; lia)
                ltac:(unfold OFF_MIN, OFF_MAX; lia)).
  eexists. eexists.
  split; [apply PERSIMQ_close_spec; exact Hopen |].
  cbn [f_data].
  split.
  { apply list_eq. intros i. rewrite !lookup_drop.
    rewrite lookup_overwrite by (rewrite TFileHeader_bytes_length; lia).
    rewrite TFileHeader_bytes_length. case_decide; [lia | reflexivity]. }
  split; [exact Hreopen |].
  unfold queue_holds, queue_ok, set_fd.
  cbn [fd append_ptr extract_ptr count_bytes count_messages file_size f_data].
  rewrite overwrite_length by (rewrite TFileHeader_bytes_length; lia).
  split.
  { unfold sizeof_TFileHeader, sizeof_TMessageHeader, OFF_MAX.
    repeat split; try assumption; lia. }
  split; [exact Hall |].
  split; [exact Hcm |].
  split; [exact Hcb |].
  split; [exact Ha |].
  apply records_at_overwrite_header; try assumption;
    rewrite ?TFileHeader_bytes_length; lia.
Qed.

Lemma X9_close_open_keeps_queue_witness :
  exists f3 f4,
    PERSIMQ_close (mkMQ 3 70 45 25 1 128) (mkFile example_file 0) = (true, f3)
    /\ drop 45 (f_data f3) = drop 45 example_file
    /\ PERSIMQ_open (mkMQ 0 0 0 0 0 0) (f_data f3) 128
       = (true, mkMQ 3 70 45 25 1 128, f4)
    /\ queue_holds (mkMQ 3 70 45 25 1 128) f4 [example_message].
Proof.
  apply (X9_close_open_keeps_queue (mkMQ 3 70 45 25 1 128) (mkMQ 0 0 0 0 0 0)
           (mkFile example_file 0) [example_message] example_queue_holds).
Defined.

(** X10 (what the queries report).  On a queue that holds [msgs]:
    [messages_available] is the number of messages, [bytes_available] the
    sum of the payload lengths without the eight bytes of each header,
    [bytes_free] the length of the data region less the records, and
    [is_empty] says whether there is no message. *)
Theorem X10_queries_report (mq : T_PERSIMQ) (f : file) (msgs : list (list Z)) :
  queue_holds mq f msgs ->
  PERSIMQ_messages_available mq = Z.of_nat (length msgs)
  /\ PERSIMQ_bytes_available mq = payload_size msgs
  /\ PERSIMQ_bytes_free mq
     = file_size mq - sizeof_TFileHeader - records_size msgs
  /\ (PERSIMQ_is_empty mq = true <-> msgs = []).
Proof.
  intros (Hok & Hall & Hcm & Hcb & Ha & Hat).
  pose proof (queue_ok_bytes_free mq f Hok) as Hfree.
  destruct Hok as (Hopen & Hfs & Hsize & Hain & Hein & Hcbr & Hcmr).
  pose proof (records_size_count msgs) as Hcount.
  pose proof (records_size_payload msgs) as Hpay.
  unfold sizeof_TFileHeader, sizeof_TMessageHeader, OFF_MAX, wrap_lo_margin,
    sizeof_TFileHeader in *.
  split; [exact Hcm |].
  split.
  { unfold PERSIMQ_bytes_available, sizeof_TMessageHeader.
    rewrite (u64_id (count_messages mq)), (u64_id (count_bytes mq)) by lia.
    rewrite (u64_id (8 * count_messages mq)) by lia.
    rewrite u64_id by lia. lia. }
  split; [lia |].
  unfold PERSIMQ_is_empty. rewrite Z.eqb_eq. split.
  - intros Hzero. destruct msgs as [| m msgs]; [reflexivity |].
    cbn [records_size length] in *. unfold record_size, sizeof_TMessageHeader in *.
    lia.
  - intros ->. exact Hcb.
Qed.

Lemma X10_queries_report_witness :
  PERSIMQ_messages_available (mkMQ 3 70 45 25 1 128) = 1
  /\ PERSIMQ_bytes_available (mkMQ 3 70 45 25 1 128) = 17
  /\ PERSIMQ_bytes_free (mkMQ 3 70 45 25 1 128) = 58.
Proof.
  destruct (X10_queries_report (mkMQ 3 70 45 25 1 128) (mkFile example_file 0)
              [example_message] example_queue_holds) as (H1 & H2 & H3 & _).
  split; [exact H1 |]. split; [exact H2 | exact H3].
Defined.

(** The long option of [pop_n] pops the messages one after the other. *)
Lemma pop_n_loop_holds (n : nat) :
  forall (mq : T_PERSIMQ) (f : file) (msgs : list (list Z)),
  queue_holds mq f msgs ->
  (n <= length msgs)%nat ->
  exists mq' f',
    pop_n_loop n true mq f = (true, mq', f')
    /\ f_data f' = f_data f
    /\ queue_holds mq' f' (drop n msgs).
Proof.
  induction n as [| n IH]; intros mq f msgs Hholds Hn.
  - exists mq, f. split; [reflexivity |]. split; [reflexivity | exact Hholds].
  - destruct msgs as [| m rest]; [cbn [length] in Hn; lia |].
    destruct (queue_pop_holds mq f m rest Hholds) as (mq1 & f1 & Hpop & Hdata & Hrest).
    destruct (IH mq1 f1 rest Hrest ltac:(cbn [length] in Hn; lia))
      as (mq' & f' & Hloop & Hdata' & Hfinal).
    exists mq', f'. cbn [pop_n_loop]. rewrite Hpop. cbn [andb].
    split; [exact Hloop |]. split; [congruence | exact Hfinal].
Qed.

(** X11 ([pop_n] removes the [n] oldest messages).  On a queue that holds
    [msgs], [pop_n(n)] succeeds, leaves the contents of the file alone,
    and the queue then holds [msgs] without its first [n] messages: none
    when [n] is the number of messages or more.  The loop that pops one
    message at a time counts in an [int], so a count that does not empty
    the queue is taken below 2^31. *)
Theorem X11_pop_n_removes_oldest (mq : T_PERSIMQ) (f : file)
    (msgs : list (list Z)) (n : Z) :
  queue_holds mq f msgs ->
  0 <= n ->
  n < 2 ^ 31 \/ Z.of_nat (length msgs) <= n ->
  exists mq' f',
    PERSIMQ_pop_n mq f n = (true, mq', f')
    /\ f_data f' = f_data f
    /\ queue_holds mq' f' (drop (Z.to_nat n) msgs).
Proof.
  intros Hholds Hn _.
  pose proof Hholds as (Hok & Hall & Hcm & Hcb & Ha & Hat).
  pose proof Hok as (Hopen & Hfs & Hsize & Hain & Hein & Hcbr & Hcmr).
  unfold PERSIMQ_pop_n.
  rewrite (u64_id (count_messages mq)) by (unfold OFF_MAX in Hcmr; lia).
  destruct (Z.leb_spec (count_messages mq) n) as [Hall_n | Hsome].
  - eexists. eexists. split; [reflexivity |]. split; [reflexivity |].
    rewrite drop_ge by lia.
    unfold queue_holds, queue_ok.
    cbn [fd append_ptr extract_ptr count_bytes count_messages file_size f_data
         records_size length records_at].
    assert (Hlo : wrap_lo_margin = 45) by reflexivity.
    unfold sizeof_TFileHeader, sizeof_TMessageHeader, OFF_MAX in *.
    split; [repeat split; try assumption; lia |].
    split; [constructor |].
    split; [reflexivity |]. split; [reflexivity |].
    split; [| exact I].
    symmetry. apply offset_roll_0_id; [unfold OFF_MAX; lia | assumption].
  - apply pop_n_loop_holds; [exact Hholds | lia].
Qed.

Lemma X11_pop_n_removes_oldest_witness :
  exists mq' f',
    PERSIMQ_pop_n (mkMQ 3 70 45 25 1 128) (mkFile example_file 0) 10 = (true, mq', f')
    /\ f_data f' = example_file
    /\ queue_holds mq' f' [].
Proof.
  apply (X11_pop_n_removes_oldest (mkMQ 3 70 45 25 1 128) (mkFile example_file 0)
           [example_message] 10 example_queue_holds); lia.
Defined.

(** ** Clearing and corruption *)

(** X12 ([clear] empties and checkpoints).  On an open handle whose file
    has its configured size, whatever the pointers and counts were,
    [clear] succeeds, the queue then holds no message, and the header it
    wrote is the one [open] finds again: opening the file afterwards gives
    the empty state, without any [sync] or [close] in between. *)
Theorem X12_clear_empties_and_checkpoints (mq mq0 : T_PERSIMQ) (f : file) :
  fd mq <> 0 ->
  sizeof_TFileHeader + sizeof_TMessageHeader + 1 < file_size mq
    <= OFF_MAX - sizeof_TMessageHeader ->
  Z.of_nat (length (f_data f)) = file_size mq ->
  exists mq' f' f'',
    PERSIMQ_clear mq f = (true, mq', f')
    /\ queue_holds mq' f' []
    /\ drop 45 (f_data f') = drop 45 (f_data f)
    /\ PERSIMQ_open mq0 (f_data f') (file_size mq)
       = (true, mkMQ 3 sizeof_TFileHeader sizeof_TFileHeader 0 0 (file_size mq), f'').
Proof.
  intros Hopen Hfs Hsize.
  unfold PERSIMQ_clear.
  destruct (Z.eqb_spec (fd mq) 0) as [? | _]; [contradiction |].
  rewrite PERSIMQ_sync_spec by exact Hopen.
  pose proof (PERSIMQ_open_after_sync mq0
                (mkMQ (fd mq) sizeof_TFileHeader sizeof_TFileHeader 0 0 (file_size mq))
                (f_data f)) as Hreopen.
  cbn [file_size append_ptr extract_ptr count_bytes count_messages] in Hreopen.
  unfold sizeof_TFileHeader, sizeof_TMessageHeader, OFF_MAX in Hfs.
  assert (Hfs' : sizeof_TFileHeader + sizeof_TMessageHeader + 1 < file_size mq
                 <= OFF_MAX)
    by (unfold sizeof_TFileHeader, sizeof_TMessageHeader, OFF_MAX; lia).
  assert (H45 : OFF_MIN <= sizeof_TFileHeader <= OFF_MAX)
    by (unfold OFF_MIN, OFF_MAX, sizeof_TFileHeader; lia).
  assert (H0 : OFF_MIN <= 0 <= OFF_MAX) by (unfold OFF_MIN, OFF_MAX; lia).
  specialize (Hreopen Hfs' Hsize H45 H45 H0 H0).
  eexists. eexists. eexists.
  split; [reflexivity |].
  cbn [f_data].
  split.
  { unfold queue_holds, queue_ok.
    cbn [fd append_ptr extract_ptr count_bytes count_messages file_size f_data
         records_size length records_at].
    rewrite overwrite_length by (rewrite TFileHeader_bytes_length; lia).
    unfold sizeof_TFileHeader, sizeof_TMessageHeader, OFF_MAX, wrap_lo_margin,
      sizeof_TFileHeader.
    split; [repeat split; try assumption; lia |].
    split; [constructor |].
    split; [reflexivity |]. split; [reflexivity |].
    split; [| exact I].
    symmetry. apply offset_roll_0_id;
      unfold OFF_MAX, wrap_lo_margin, sizeof_TFileHeader; lia. }
  split.
  { apply list_eq. intros i. rewrite !lookup_drop.
    rewrite lookup_overwrite by (rewrite TFileHeader_bytes_length; lia).
    rewrite TFileHeader_bytes_length. case_decide; [lia | reflexivity]. }
  exact Hreopen.
Qed.

Lemma X12_clear_empties_and_checkpoints_witness :
  exists mq' f' f'',
    PERSIMQ_clear (mkMQ 3 70 45 25 1 128) (mkFile example_file 0) = (true, mq', f')
    /\ queue_holds mq' f' []
    /\ drop 45 (f_data f') = drop 45 example_file
    /\ PERSIMQ_open (mkMQ 0 0 0 0 0 0) (f_data f') 128
       = (true, mkMQ 3 45 45 0 0 128, f'').
Proof.
  apply (X12_clear_empties_and_checkpoints (mkMQ 3 70 45 25 1 128)
           (mkMQ 0 0 0 0 0 0) (mkFile example_file 0)).
  - cbn. discriminate.
  - unfold sizeof_TFileHeader, sizeof_TMessageHeader, OFF_MAX. cbn [file_size]. lia.
  - reflexivity.
Defined.

(** What [PERSIMQ_read_message_data] does on a file of the configured
    size: it reads the payload at the normalised offset, around the end of
    the data region if need be, and closes the queue when the checksum of
    what it read is not the one given. *)
Lemma PERSIMQ_read_message_data_open (mq : T_PERSIMQ) (f : file)
    (message_size message_crc offset : Z) :
  wrap_lo_margin < file_size mq <= OFF_MAX ->
  Z.of_nat (length (f_data f)) = file_size mq ->
  0 < message_size < file_size mq - wrap_lo_margin ->
  exists pos,
    PERSIMQ_read_message_data mq f message_size message_crc offset
    = let payload :=
        naive_read (f_data f) (file_size mq) (offset_roll offset (file_size mq) 0)
                   (Z.to_nat message_size) in
      if eval_crc8 payload =? message_crc
      then (true, mq, mkFile (f_data f) pos, payload)
      else (false, set_fd 0 mq, mkFile (f_data f) pos, payload).
Proof.
  intros Hhi Hsize Hm.
  assert (Hlo : wrap_lo_margin = 45) by reflexivity.
  unfold PERSIMQ_read_message_data.
  destruct (wrapped_io_read f [] message_size offset (file_size mq) Hhi Hsize Hm)
    as [pos Hread].
  rewrite Hread. clear Hread. cbn [negb].
  pose proof (offset_roll_range offset (file_size mq) 0 Hhi).
  rewrite wrapped_read_naive by lia.
  rewrite take_ge by (rewrite naive_read_length; lia).
  exists pos. cbv zeta.
  destruct (eval_crc8 _ =? message_crc); reflexivity.
Qed.

(** X13 (a record without its tag).  On an open queue with messages whose
    file has its configured size, when the three bytes at the extract
    pointer are not ["PMQ"], [pop] and [get] both fail and hand back the
    handle closed (descriptor 0) with its pointers and counts as they
    were; the contents of the file are not changed and nothing is stored
    for the caller. *)
Theorem X13_bad_tag_closes_queue (mq : T_PERSIMQ) (f : file) (buffer_size : Z)
    (want_size : bool) :
  fd mq <> 0 ->
  PERSIMQ_messages_available mq <> 0 ->
  sizeof_TFileHeader + sizeof_TMessageHeader < file_size mq <= OFF_MAX ->
  Z.of_nat (length (f_data f)) = file_size mq ->
  mh_ID (TMessageHeader_of_bytes
           (naive_read (f_data f) (file_size mq)
                       (offset_roll (extract_ptr mq) (file_size mq) 0) 8))
  <> MESSAGE_ID ->
  exists f',
    f_data f' = f_data f
    /\ PERSIMQ_pop mq f = (false, set_fd 0 mq, f')
    /\ PERSIMQ_get mq f buffer_size want_size = (false, set_fd 0 mq, f', [], None).
Proof.
  intros Hopen Havail Hfs Hsize Htag.
  destruct (PERSIMQ_read_message_header_open mq f (extract_ptr mq) Hopen Hfs Hsize)
    as [pos Hhdr].
  cbv zeta in Hhdr.
  set (header := TMessageHeader_of_bytes _) in *.
  destruct (Z.eqb_spec (memcmp (mh_ID header) MESSAGE_ID 3) 0) as [Hcmp | _] in Hhdr.
  { apply memcmp_MESSAGE_ID in Hcmp.
    unfold header, TMessageHeader_of_bytes in Hcmp, Htag. cbn [mh_ID] in Hcmp, Htag.
    rewrite take_idemp in Hcmp. contradiction. }
  exists (mkFile (f_data f) pos). split; [reflexivity |].
  unfold PERSIMQ_pop, PERSIMQ_get.
  destruct (Z.eqb_spec (fd mq) 0) as [? | _]; [contradiction |].
  destruct (Z.eqb_spec (PERSIMQ_messages_available mq) 0) as [? | _]; [contradiction |].
  rewrite Hhdr. split; reflexivity.
Qed.

Lemma X13_bad_tag_closes_queue_witness :
  exists f',
    f_data f' = <[45%nat := 0]> example_file
    /\ PERSIMQ_pop (mkMQ 3 70 45 25 1 128) (mkFile (<[45%nat := 0]> example_file) 0)
       = (false, mkMQ 0 70 45 25 1 128, f')
    /\ PERSIMQ_get (mkMQ 3 70 45 25 1 128) (mkFile (<[45%nat := 0]> example_file) 0)
                   256 true
       = (false, mkMQ 0 70 45 25 1 128, f', [], None).
Proof.
  apply (X13_bad_tag_closes_queue (mkMQ 3 70 45 25 1 128)
           (mkFile (<[45%nat := 0]> example_file) 0) 256 true).
  - cbn. discriminate.
  - cbn. discriminate.
  - unfold sizeof_TFileHeader, sizeof_TMessageHeader, OFF_MAX. cbn [file_size]. lia.
  - vm_compute. reflexivity.
  - vm_compute. discriminate.
Defined.

(** X14 (a payload that does not match its checksum).  On a queue in
    order whose first record carries the tag, a length that fits the
    buffer and the data region, and a checksum that is not the checksum of
    the payload bytes in the file, [get] fails and hands back the handle
    closed (descriptor 0); by then the payload read has been stored in the
    buffer and its length through [message_size]. *)
Theorem X14_bad_checksum_closes_queue (mq : T_PERSIMQ) (f : file)
    (buffer_size : Z) (want_size : bool) (header : TMessageHeader)
    (payload : list Z) :
  queue_ok mq f ->
  count_messages mq <> 0 ->
  header = TMessageHeader_of_bytes
             (naive_read (f_data f) (file_size mq) (extract_ptr mq) 8) ->
  payload = naive_read (f_data f) (file_size mq)
              (offset_roll (extract_ptr mq) (file_size mq) sizeof_TMessageHeader)
              (Z.to_nat (mh_message_size header)) ->
  mh_ID header = MESSAGE_ID ->
  0 < mh_message_size header < file_size mq - wrap_lo_margin ->
  mh_message_size header <= buffer_size ->
  eval_crc8 payload <> mh_message_crc header ->
  exists f',
    f_data f' = f_data f
    /\ PERSIMQ_get mq f buffer_size want_size
       = (false, set_fd 0 mq, f', payload,
          if want_size then Some (mh_message_size header) else None).
Proof.
  intros Hok Havail Hheader Hpayload Htag Hm Hbuf Hcrc.
  pose proof Hok as (Hopen & Hfs & Hsize & Ha & He & Hcb & Hcm).
  assert (Hlo : wrap_lo_margin = 45) by reflexivity.
  unfold sizeof_TFileHeader, sizeof_TMessageHeader, OFF_MAX in Hfs.
  assert (Hhi : wrap_lo_margin < file_size mq <= OFF_MAX) by (unfold OFF_MAX; lia).
  destruct (PERSIMQ_read_message_header_open mq f (extract_ptr mq) Hopen
              ltac:(unfold sizeof_TFileHeader, sizeof_TMessageHeader, OFF_MAX; lia)
              Hsize) as [p1 Hhdr].
  cbv zeta in Hhdr.
  rewrite (offset_roll_0_id (extract_ptr mq)) in Hhdr by assumption.
  rewrite <- Hheader in Hhdr.
  rewrite Htag in Hhdr.
  change (memcmp MESSAGE_ID MESSAGE_ID 3 =? 0) with true in Hhdr.
  unfold PERSIMQ_get.
  destruct (Z.eqb_spec (fd mq) 0) as [? | _]; [contradiction |].
  unfold PERSIMQ_messages_available.
  destruct (Z.eqb_spec (count_messages mq) 0) as [? | _]; [contradiction |].
  rewrite Hhdr. cbn [negb].
  destruct (Z.ltb_spec buffer_size (mh_message_size header)) as [? | _]; [lia |].
  unfold sizeof_TMessageHeader in *.
  rewrite (u64_id (extract_ptr mq)) by lia.
  rewrite (s64_id (extract_ptr mq + 8)) by lia.
  destruct (PERSIMQ_read_message_data_open mq (mkFile (f_data f) p1)
              (mh_message_size header) (mh_message_crc header)
              (extract_ptr mq + 8) Hhi Hsize Hm) as [p2 Hdata].
  rewrite Hdata. clear Hdata. cbv zeta. cbn [f_data].
  rewrite offset_roll_shift by (unfold OFF_MAX; lia).
  rewrite <- Hpayload.
  destruct (Z.eqb_spec (eval_crc8 payload) (mh_message_crc header)) as [? | _];
    [contradiction |].
  exists (mkFile (f_data f) p2). split; reflexivity.
Qed.

Lemma X14_bad_checksum_closes_queue_witness :
  exists f',
    f_data f' = <[48%nat := 8]> example_file
    /\ PERSIMQ_get (mkMQ 3 70 45 25 1 128) (mkFile (<[48%nat := 8]> example_file) 0)
                   256 true
       = (false, mkMQ 0 70 45 25 1 128, f', example_message, Some 17).
Proof.
  pose proof (X14_bad_checksum_closes_queue (mkMQ 3 70 45 25 1 128)
                (mkFile (<[48%nat := 8]> example_file) 0) 256 true
                (mkMessageHeader MESSAGE_ID 8 17) example_message) as H.
  destruct H as [f' [Hdata Hget]].
  - unfold queue_ok.
    cbn [fd append_ptr extract_ptr count_bytes count_messages file_size f_data].
    change (Z.of_nat (length (<[48%nat := 8]> example_file))) with 128.
    unfold sizeof_TFileHeader, sizeof_TMessageHeader, OFF_MAX, wrap_lo_margin,
      sizeof_TFileHeader.
    repeat split; lia.
  - cbn. discriminate.
  - vm_compute. reflexivity.
  - vm_compute. reflexivity.
  - reflexivity.
  - cbn [mh_message_size file_size]. unfold wrap_lo_margin, sizeof_TFileHeader. lia.
  - cbn [mh_message_size]. lia.
  - vm_compute. discriminate.
  - exists f'. split; [exact Hdata | exact Hget].
Defined.

(** ** Edge cases of the transfers *)

(** A transfer of no bytes: the seek is done, the loop around [read] or
    [write] gives up at once, and the offset is still handed out. *)
Lemma wrapped_io_zero f data offset hi do_write :
  wrap_lo_margin < hi <= OFF_MAX ->
  exists pos buf,
    wrapped_io f data 0 offset hi do_write
    = (false, mkFile (f_data f) pos, buf, Some (offset_roll offset hi 0)).
Proof.
  intros Hhi.
  assert (Hlo : wrap_lo_margin = 45) by reflexivity.
  pose proof (offset_roll_range offset hi 0 Hhi) as Hoff.
  unfold wrapped_io.
  rewrite (u64_id (hi - wrap_lo_margin)) by (unfold OFF_MAX in *; lia).
  destruct (Z.leb_spec (hi - wrap_lo_margin) 0) as [? | _]; [lia |].
  pose proof (u64_range (hi - offset_roll offset hi 0)) as Hchunk.
  destruct (Z.leb_spec 0 (u64 (hi - offset_roll offset hi 0))) as [_ | ?]; [| lia].
  rewrite os_lseek_ok by lia.
  rewrite offset_roll_0_idemp by exact Hhi.
  destruct do_write.
  - rewrite multiwrite_zero, andb_false_r. eexists. eexists. reflexivity.
  - rewrite multiread_zero, andb_false_r. eexists. eexists. reflexivity.
Qed.

(** X15 (pushing a message of no bytes).  On a queue in order with room
    for a record header, [push] of an empty message fails and hands back
    the handle closed (descriptor 0): the record header has been written
    at the append pointer by then, the append pointer has moved past it,
    and the counts are as they were. *)
Theorem X15_push_empty_message_closes_queue (mq : T_PERSIMQ) (f : file) :
  queue_ok mq f ->
  sizeof_TMessageHeader <= PERSIMQ_bytes_free mq ->
  exists f',
    PERSIMQ_push mq f []
    = (false,
       mkMQ 0 (offset_roll (append_ptr mq) (file_size mq) sizeof_TMessageHeader)
            (extract_ptr mq) (count_bytes mq) (count_messages mq) (file_size mq),
       f')
    /\ f_data f'
       = naive_write (f_data f) (file_size mq) (append_ptr mq)
                     (TMessageHeader_bytes (push_header [])).
Proof.
  intros Hok Hroom.
  rewrite (queue_ok_bytes_free mq f Hok) in Hroom.
  destruct Hok as (Hopen & Hfs & Hsize & Ha & He & Hcb & Hcm).
  assert (Hlo : wrap_lo_margin = 45) by reflexivity.
  unfold sizeof_TFileHeader, sizeof_TMessageHeader, OFF_MAX in *.
  assert (Hhi : wrap_lo_margin < file_size mq <= OFF_MAX) by (unfold OFF_MAX; lia).
  unfold PERSIMQ_push.
  destruct (Z.eqb_spec (fd mq) 0) as [? | _]; [contradiction |].
  unfold PERSIMQ_bytes_free, sizeof_TFileHeader, sizeof_TMessageHeader.
  change (Z.of_nat (@length Z [])) with 0.
  rewrite (u64_id (file_size mq)), (u64_id (count_bytes mq)) by lia.
  rewrite (u64_id (count_bytes mq + 45)) by lia.
  rewrite (u64_id (file_size mq - (count_bytes mq + 45))) by lia.
  rewrite (u64_id (8 + 0)) by lia.
  destruct (Z.ltb_spec (file_size mq - (count_bytes mq + 45)) (8 + 0)) as [? | _];
    [lia |].
  destruct (wrapped_io_write f (TMessageHeader_bytes (push_header [])) 8
              (append_ptr mq) (file_size mq) Hhi Hsize)
    as [p1 H1];
    [rewrite TMessageHeader_bytes_length; reflexivity | lia |].
  rewrite H1. clear H1. cbn [negb].
  rewrite (offset_roll_0_id (append_ptr mq)) by lia.
  pose proof (offset_roll_range (append_ptr mq) (file_size mq) 8 Hhi) as Hb.
  destruct (wrapped_io_zero
              (mkFile (wrapped_blocks (f_data f) (file_size mq) (append_ptr mq)
                         (TMessageHeader_bytes (push_header []))) p1)
              [] (offset_roll (append_ptr mq) (file_size mq) 8) (file_size mq) true Hhi)
    as (p2 & buf & H2).
  rewrite H2. clear H2. cbn [negb f_data].
  rewrite (offset_roll_0_id (offset_roll (append_ptr mq) (file_size mq) 8)) by lia.
  exists (mkFile (wrapped_blocks (f_data f) (file_size mq) (append_ptr mq)
                    (TMessageHeader_bytes (push_header []))) p2).
  split; [reflexivity |].
  cbn [f_data].
  apply wrapped_blocks_naive; rewrite ?TMessageHeader_bytes_length; lia.
Qed.

Lemma X15_push_empty_message_closes_queue_witness :
  exists f',
    PERSIMQ_push (mkMQ 3 70 45 25 1 128) (mkFile example_file 0) []
    = (false, mkMQ 0 78 45 25 1 128, f')
    /\ f_data f'
       = naive_write example_file 128 70 (TMessageHeader_bytes (push_header [])).
Proof.
  apply (X15_push_empty_message_closes_queue (mkMQ 3 70 45 25 1 128)
           (mkFile example_file 0)).
  - unfold queue_ok.
    cbn [fd append_ptr extract_ptr count_bytes count_messages file_size f_data].
    change (Z.of_nat (length example_file)) with 128.
    unfold sizeof_TFileHeader, sizeof_TMessageHeader, OFF_MAX, wrap_lo_margin,
      sizeof_TFileHeader.
    repeat split; lia.
  - vm_compute. discriminate.
Defined.

(** X16 (sizes [open] does not take).  For a requested size of 54 bytes
    or less, [open] fails and leaves the contents of the file alone.  From
    0 to 54 it gives up before touching anything, and the caller's
    structure is as it was.  A negative size passes the size check, which
    compares unsigned; the file is opened, [ftruncate] refuses the size,
    and [open] returns [false] with the descriptor still in the handle,
    which [is_open] then reports as open. *)
Theorem X16_open_refuses_small_and_negative_sizes (mq : T_PERSIMQ) (disk : list Z)
    (size : Z) :
  is_off_t size ->
  size <= sizeof_TFileHeader + sizeof_TMessageHeader + 1 ->
  exists mq',
    PERSIMQ_open mq disk size = (false, mq', mkFile disk 0)
    /\ (0 <= size -> mq' = mq)
    /\ (size < 0 -> mq' = set_fd 3 mq /\ PERSIMQ_is_open mq' = true).
Proof.
  intros [Hmin Hmax] Hsmall.
  unfold OFF_MIN, OFF_MAX, sizeof_TFileHeader, sizeof_TMessageHeader in *.
  unfold PERSIMQ_open, sizeof_TFileHeader, sizeof_TMessageHeader.
  destruct (Z.neg_nonneg_cases size) as [Hneg | Hpos].
  - assert (Hu : u64 size = size + 2 ^ 64).
    { unfold u64. symmetry. apply (Z.mod_unique_pos _ _ (-1)); lia. }
    rewrite Hu.
    destruct (Z.leb_spec (size + 2 ^ 64) (45 + 8 + 1)) as [? | _]; [lia |].
    unfold os_open, os_ftruncate.
    destruct (Z.ltb_spec size 0) as [_ | ?]; [| lia].
    cbn [negb Z.eqb].
    exists (set_fd 3 mq). split; [reflexivity |].
    split; [lia |]. intros _. split; reflexivity.
  - rewrite (u64_id size) by lia.
    destruct (Z.leb_spec size (45 + 8 + 1)) as [_ | ?]; [| lia].
    exists mq. split; [reflexivity |].
    split; [reflexivity | lia].
Qed.

Lemma X16_open_refuses_small_and_negative_sizes_witness :
  exists mq',
    PERSIMQ_open (mkMQ 0 0 0 0 0 0) example_file (-1)
    = (false, mq', mkFile example_file 0)
    /\ (0 <= -1 -> mq' = mkMQ 0 0 0 0 0 0)
    /\ (-1 < 0 -> mq' = set_fd 3 (mkMQ 0 0 0 0 0 0) /\ PERSIMQ_is_open mq' = true).
Proof.
  apply (X16_open_refuses_small_and_negative_sizes (mkMQ 0 0 0 0 0 0)
           example_file (-1)).
  - unfold is_off_t, OFF_MIN, OFF_MAX. lia.
  - unfold sizeof_TFileHeader, sizeof_TMessageHeader. lia.
Defined.

(** X17 (what a transfer never touches).  On a file of [wrap_hi_margin]
    bytes, whatever the offset, the length and the direction, and whether
    it succeeds or not, [wrapped_io] leaves the file with the same length
    and the same first 45 bytes: the file header is out of its reach. *)
Theorem X17_wrapped_io_keeps_file_header (f : file) (data : list Z)
    (n offset hi : Z) (do_write : bool) :
  wrap_lo_margin < hi <= OFF_MAX ->
  Z.of_nat (length (f_data f)) = hi ->
  0 <= n ->
  (do_write = true -> n = Z.of_nat (length data)) ->
  let '(_, f', _, _) := wrapped_io f data n offset hi do_write in
  length (f_data f') = length (f_data f)
  /\ take 45 (f_data f') = take 45 (f_data f).
Proof.
  intros Hhi Hsize Hn Hdata.
  assert (Hlo : wrap_lo_margin = 45) by reflexivity.
  destruct (Z_le_gt_dec (hi - wrap_lo_margin) n) as [Hlong | Hshort].
  { rewrite wrapped_io_too_long by assumption. split; reflexivity. }
  destruct (Z.eq_dec n 0) as [-> | Hpos].
  { destruct (wrapped_io_zero f data offset hi do_write Hhi) as (pos & buf & Hio).
    rewrite Hio. split; reflexivity. }
  destruct do_write.
  - destruct (wrapped_io_write f data n offset hi Hhi Hsize (Hdata eq_refl)
                ltac:(lia)) as [pos Hio].
    rewrite Hio. cbn [f_data].
    pose proof (offset_roll_range offset hi 0 Hhi) as Hoff.
    rewrite wrapped_blocks_naive by lia.
    split; [apply naive_write_length |].
    apply list_eq. intros q.
    destruct (Nat.lt_ge_cases q 45) as [Hq | Hq].
    + rewrite !lookup_take_lt by exact Hq.
      apply naive_write_lookup_other; [lia |].
      intros j _.
      pose proof (ring_advance_range hi j (offset_roll offset hi 0) ltac:(lia) Hoff).
      lia.
    + rewrite !lookup_take_ge by exact Hq. reflexivity.
  - destruct (wrapped_io_read f data n offset hi Hhi Hsize ltac:(lia)) as [pos Hio].
    rewrite Hio. split; reflexivity.
Qed.

Lemma X17_wrapped_io_keeps_file_header_witness :
  let '(_, f', _, _) :=
    wrapped_io (mkFile example_file 0) example_message 17 120 128 true in
  length (f_data f') = length example_file
  /\ take 45 (f_data f') = take 45 example_file.
Proof.
  apply (X17_wrapped_io_keeps_file_header (mkFile example_file 0) example_message
           17 120 128 true).
  - unfold wrap_lo_margin, sizeof_TFileHeader, OFF_MAX. lia.
  - reflexivity.
  - lia.
  - intros _. reflexivity.
Defined.

(** ** Reading several messages at once *)

Lemma records_at_prefix contents hi (l1 l2 : list (list Z)) :
  forall p, records_at contents hi p (l1 ++ l2) -> records_at contents hi p l1.
Proof.
  induction l1 as [| m l1 IH]; intros p H; cbn [records_at app] in *; [exact I |].
  destruct H as [Hhead Htail]. split; [exact Hhead | exact (IH _ Htail)].
Qed.

Lemma records_size_nonneg (msgs : list (list Z)) : 0 <= records_size msgs.
Proof. pose proof (records_size_count msgs). lia. Qed.

Lemma payload_size_nonneg (msgs : list (list Z)) : 0 <= payload_size msgs.
Proof. induction msgs as [| m msgs IH]; cbn [payload_size]; lia. Qed.

(** The turns of the loop of [PERSIMQ_get_all] over records that are in
    order and fit the room left: each one is appended to the buffer, and
    the loop is left through its condition. *)
Lemma get_all_loop_reads (mq : T_PERSIMQ) (contents : list Z) (max_messages : Z)
    (batch : list (list Z)) :
  forall (fuel : nat) (pos : Z) (buffer : list Z) (buffer_size message_idx ptr : Z),
  fd mq <> 0 ->
  sizeof_TFileHeader + sizeof_TMessageHeader < file_size mq
    <= OFF_MAX - sizeof_TMessageHeader ->
  Z.of_nat (length contents) = file_size mq ->
  wrap_lo_margin <= ptr < file_size mq ->
  Forall (fun m => 0 < Z.of_nat (length m) < 2 ^ 32) batch ->
  records_size batch <= file_size mq - wrap_lo_margin ->
  records_at contents (file_size mq) ptr batch ->
  payload_size batch <= buffer_size < 2 ^ 64 ->
  message_idx + Z.of_nat (length batch) = Z.min (u64 (count_messages mq)) max_messages ->
  (length batch <= fuel)%nat ->
  exists pos',
    get_all_loop fuel mq (mkFile contents pos) max_messages true buffer buffer_size
                 message_idx ptr
    = GetAllLeave true mq (mkFile contents pos') (buffer ++ concat batch)
                  (buffer_size - payload_size batch)
                  (message_idx + Z.of_nat (length batch)).
Proof.
  assert (Hlo : wrap_lo_margin = 45) by reflexivity.
  induction batch as [| m batch IH];
    intros fuel pos buffer buffer_size message_idx ptr Hopen Hfs Hsize Hptr Hall
           Hrec Hat Hbuf Hidx Hfuel.
  - cbn [length concat payload_size] in *.
    rewrite app_nil_r, Z.sub_0_r, Z.add_0_r in *.
    exists pos. destruct fuel as [| fuel]; [reflexivity |].
    rewrite get_all_loop_step.
    destruct (Z.ltb_spec message_idx (u64 (count_messages mq)));
      destruct (Z.ltb_spec message_idx max_messages); cbn [andb]; try reflexivity.
    lia.
  - destruct fuel as [| fuel]; [cbn [length] in Hfuel; lia |].
    apply Forall_cons in Hall. destruct Hall as [Hm Hall].
    cbn [records_at] in Hat. destruct Hat as [Hhead Htail].
    cbn [records_size payload_size length concat] in *.
    pose proof (records_size_nonneg batch) as Hrs.
    pose proof (payload_size_nonneg batch) as Hps.
    unfold sizeof_TFileHeader, sizeof_TMessageHeader, OFF_MAX in Hfs.
    assert (Hhi : wrap_lo_margin < file_size mq <= OFF_MAX) by (unfold OFF_MAX; lia).
    unfold record_size, sizeof_TMessageHeader in Hrec.
    destruct (record_at_parts contents (file_size mq) ptr m Hhi Hptr ltac:(lia) Hhead)
      as [Hheader Hpayload].
    destruct (push_header_fields m ltac:(lia)) as (Hid & Hms & Hcrc & Hround).
    rewrite get_all_loop_step.
    destruct (Z.ltb_spec message_idx (u64 (count_messages mq))) as [_ | ?]; [| lia].
    destruct (Z.ltb_spec message_idx max_messages) as [_ | ?]; [| lia].
    cbn [andb].
    destruct (PERSIMQ_read_message_header_open mq (mkFile contents pos) ptr Hopen
                ltac:(unfold sizeof_TFileHeader, sizeof_TMessageHeader, OFF_MAX; lia)
                Hsize) as [p1 Hhdr].
    cbv zeta in Hhdr. cbn [f_data] in Hhdr.
    rewrite (offset_roll_0_id ptr) in Hhdr by assumption.
    rewrite Hheader, Hround, Hid in Hhdr.
    change (memcmp MESSAGE_ID MESSAGE_ID 3 =? 0) with true in Hhdr.
    rewrite Hhdr. clear Hhdr. cbn [negb].
    rewrite Hms, Hcrc.
    destruct (Z.ltb_spec buffer_size (Z.of_nat (length m))) as [? | _]; [lia |].
    unfold sizeof_TMessageHeader.
    rewrite (u64_id ptr) by lia.
    rewrite (s64_id (ptr + 8)) by lia.
    destruct (PERSIMQ_read_message_data_open mq (mkFile contents p1)
                (Z.of_nat (length m)) (eval_crc8 m) (ptr + 8) Hhi Hsize
                ltac:(lia)) as [p2 Hdata].
    cbv zeta in Hdata. cbn [f_data] in Hdata.
    rewrite offset_roll_shift in Hdata by (unfold OFF_MAX; lia).
    rewrite Nat2Z.id in Hdata.
    unfold sizeof_TMessageHeader in Hpayload.
    rewrite Hpayload, Z.eqb_refl in Hdata.
    rewrite Hdata. clear Hdata. cbn [andb negb].
    rewrite (u64_id (buffer_size - Z.of_nat (length m))) by lia.
    rewrite (u64_id (Z.of_nat (length m) + 8)) by lia.
    pose proof (offset_roll_range ptr (file_size mq) (Z.of_nat (length m) + 8) Hhi)
      as Hnext.
    unfold record_size, sizeof_TMessageHeader in Htail.
    rewrite (Z.add_comm 8) in Htail.
    destruct (IH fuel p2 (buffer ++ m) (buffer_size - Z.of_nat (length m))
                (message_idx + 1)
                (offset_roll ptr (file_size mq) (Z.of_nat (length m) + 8))
                Hopen
                ltac:(unfold sizeof_TFileHeader, sizeof_TMessageHeader, OFF_MAX; lia)
                Hsize Hnext Hall ltac:(lia) Htail ltac:(lia) ltac:(lia)
                ltac:(cbn [length] in Hfuel; lia)) as [pos' Hloop].
    rewrite Hloop. exists pos'.
    rewrite <- app_assoc.
    f_equal; lia.
Qed.

(** X18 ([get_all] when everything asked for fits).  On a queue in order
    that holds [msgs], at least one, [get_all] with room in the buffer for
    the first [max_messages] of them (all of them when there are fewer)
    succeeds and stores these messages one behind the other, oldest
    first; [total_size] is the sum of their lengths and [messages_read]
    their number.  The handle and the contents of the file are as they
    were: nothing is removed. *)
Theorem X18_get_all_returns_oldest_first (mq : T_PERSIMQ) (f : file)
    (msgs : list (list Z)) (buffer_size max_messages : Z) :
  queue_holds mq f msgs ->
  msgs <> [] ->
  0 <= max_messages ->
  payload_size (take (Z.to_nat max_messages) msgs) <= buffer_size <= SIZE_MAX ->
  exists f',
    PERSIMQ_get_all mq f buffer_size max_messages
    = (true, mq, f', concat (take (Z.to_nat max_messages) msgs),
       Some (payload_size (take (Z.to_nat max_messages) msgs)),
       Some (Z.of_nat (length (take (Z.to_nat max_messages) msgs))))
    /\ f_data f' = f_data f.
Proof.
  intros (Hok & Hall & Hcm & Hcb & Ha & Hat) Hne Hmax Hbuf.
  pose proof Hok as (Hopen & Hfs & Hsize & Hain & Hein & Hcbr & Hcmr).
  assert (Hlo : wrap_lo_margin = 45) by reflexivity.
  set (batch := take (Z.to_nat max_messages) msgs) in *.
  assert (Hsplit : msgs = batch ++ drop (Z.to_nat max_messages) msgs)
    by (symmetry; apply take_drop).
  assert (Hlen : length batch = Nat.min (Z.to_nat max_messages) (length msgs))
    by apply length_take.
  pose proof (records_size_nonneg (drop (Z.to_nat max_messages) msgs)) as Hrest.
  pose proof (payload_size_nonneg batch) as Hps.
  assert (Hrs : records_size msgs
                = records_size batch + records_size (drop (Z.to_nat max_messages) msgs))
    by (rewrite Hsplit at 1; apply records_size_app).
  unfold PERSIMQ_get_all, PERSIMQ_messages_available.
  destruct (Z.eqb_spec (fd mq) 0) as [? | _]; [contradiction |].
  destruct (Z.eqb_spec (count_messages mq) 0) as [Hzero | _].
  { destruct msgs; [contradiction | cbn [length] in Hcm; lia]. }
  destruct f as [contents pos]. cbn [f_data] in *.
  unfold SIZE_MAX in Hbuf.
  destruct (get_all_loop_reads mq contents max_messages batch
              (S (Z.to_nat max_messages)) pos [] buffer_size 0 (extract_ptr mq)
              Hopen
              ltac:(unfold sizeof_TFileHeader, sizeof_TMessageHeader, OFF_MAX in *; lia)
              Hsize ltac:(lia)) as [pos' Hloop].
  - unfold batch. apply Forall_take. exact Hall.
  - lia.
  - apply (records_at_prefix _ _ batch (drop (Z.to_nat max_messages) msgs)).
    rewrite <- Hsplit. exact Hat.
  - lia.
  - rewrite (u64_id (count_messages mq)) by (unfold OFF_MAX in *; lia).
    rewrite Hcm, Hlen. lia.
  - lia.
  - rewrite Hloop. exists (mkFile contents pos').
    cbn [f_data app]. split; [| reflexivity].
    replace (buffer_size - (buffer_size - payload_size batch))
      with (payload_size batch) by lia.
    rewrite (u64_id (payload_size batch)) by lia.
    reflexivity.
Qed.

Lemma X18_get_all_returns_oldest_first_witness :
  exists f',
    PERSIMQ_get_all (mkMQ 3 70 45 25 1 128) (mkFile example_file 0) 256 5
    = (true, mkMQ 3 70 45 25 1 128, f',
       concat (take (Z.to_nat 5) [example_message]),
       Some (payload_size (take (Z.to_nat 5) [example_message])),
       Some (Z.of_nat (length (take (Z.to_nat 5) [example_message]))))
    /\ f_data f' = example_file.
Proof.
  apply (X18_get_all_returns_oldest_first (mkMQ 3 70 45 25 1 128)
           (mkFile example_file 0) [example_message] 256 5 example_queue_holds).
  - discriminate.
  - lia.
  - unfold SIZE_MAX. vm_compute. split; discriminate.
Defined.

(** ** The reader program *)

(** Opening the file a queue was checkpointed on gives the queue back. *)
Lemma queue_reopen_holds (mq mq0 : T_PERSIMQ) (f : file) (msgs : list (list Z)) :
  queue_holds mq f msgs ->
  let disk := overwrite (f_data f) 0 (TFileHeader_bytes (sync_header mq)) in
  PERSIMQ_open mq0 disk (file_size mq) = (true, set_fd 3 mq, mkFile disk 45)
  /\ queue_holds (set_fd 3 mq) (mkFile disk 45) msgs
  /\ Z.of_nat (length disk) = file_size mq.
Proof.
  intros (Hok & Hall & Hcm & Hcb & Ha & Hat) disk. subst disk.
  pose proof Hok as (Hopen & Hfs & Hsize & Hain & Hein & Hcbr & Hcmr).
  assert (Hlo : wrap_lo_margin = 45) by reflexivity.
  unfold sizeof_TFileHeader, sizeof_TMessageHeader, OFF_MAX in Hfs, Hcmr.
  assert (Hhi : wrap_lo_margin < file_size mq <= OFF_MAX) by (unfold OFF_MAX; lia).
  pose proof (PERSIMQ_open_after_sync mq0 mq (f_data f)) as Hreopen.
  specialize (Hreopen
                ltac:(unfold sizeof_TFileHeader, sizeof_TMessageHeader, OFF_MAX; lia)
                Hsize
                ltac:(unfold OFF_MIN, OFF_MAX; lia)
                ltac:(unfold OFF_MIN, OFF_MAX; lia)
                ltac:(unfold OFF_MIN, OFF_MAX; lia)
                ltac:(unfold OFF_MIN, OFF_MAX; lia)).
  split; [exact Hreopen |].
  assert (Hlen : Z.of_nat (length (overwrite (f_data f) 0
                                     (TFileHeader_bytes (sync_header mq))))
                 = file_size mq).
  { rewrite overwrite_length by (rewrite TFileHeader_bytes_length; lia).
    exact Hsize. }
  split; [| exact Hlen].
  unfold queue_holds, queue_ok, set_fd.
  cbn [fd append_ptr extract_ptr count_bytes count_messages file_size f_data].
  split.
  { unfold sizeof_TFileHeader, sizeof_TMessageHeader, OFF_MAX.
    repeat split; try assumption; lia. }
  split; [exact Hall |].
  split; [exact Hcm |].
  split; [exact Hcb |].
  split; [exact Ha |].
  apply records_at_overwrite_header; try assumption;
    rewrite ?TFileHeader_bytes_length; lia.
Qed.

(** The loop of the reader prints the messages of the queue, oldest
    first, each one removed after it is printed, and ends with the queue
    empty; one turn more than there are messages is enough. *)
Lemma reader_loop_drains (msgs : list (list Z)) :
  forall (fuel : nat) (mq : T_PERSIMQ) (f : file) (printed : list (list Z)),
  queue_holds mq f msgs ->
  Forall (fun m => Z.of_nat (length m) <= 256) msgs ->
  (length msgs < fuel)%nat ->
  exists mq' f',
    reader_loop fuel mq f printed = Some (true, mq', f', printed ++ msgs)
    /\ queue_holds mq' f' []
    /\ f_data f' = f_data f.
Proof.
  induction msgs as [| m rest IH]; intros fuel mq f printed Hholds Hfit Hfuel.
  - destruct fuel as [| fuel]; [cbn [length] in Hfuel; lia |].
    pose proof Hholds as (_ & _ & _ & Hcb & _).
    cbn [records_size] in Hcb.
    cbn [reader_loop]. unfold PERSIMQ_is_empty. rewrite Hcb.
    change (0 =? 0) with true. cbv iota.
    exists mq, f. rewrite app_nil_r. split; [reflexivity |].
    split; [exact Hholds | reflexivity].
  - destruct fuel as [| fuel]; [cbn [length] in Hfuel; lia |].
    apply Forall_cons in Hfit. destruct Hfit as [Hm Hfit].
    pose proof Hholds as (_ & _ & _ & Hcb & _).
    cbn [records_size] in Hcb.
    pose proof (records_size_nonneg rest) as Hrs.
    unfold record_size, sizeof_TMessageHeader in Hcb.
    cbn [reader_loop]. unfold PERSIMQ_is_empty.
    destruct (Z.eqb_spec (count_bytes mq) 0) as [? | _]; [lia |].
    destruct (queue_get_holds mq f m rest 256 true Hholds Hm) as (f1 & Hget & Hdata1).
    rewrite Hget. cbn [negb].
    rewrite Nat2Z.id, firstn_all.
    assert (Hholds1 : queue_holds mq f1 (m :: rest)).
    { destruct Hholds as (Hok & Hrest). split; [| rewrite Hdata1; exact Hrest].
      unfold queue_ok in *. rewrite Hdata1. exact Hok. }
    destruct (queue_pop_holds mq f1 m rest Hholds1) as (mq2 & f2 & Hpop & Hdata2 & Hholds2).
    rewrite Hpop. cbn [negb].
    destruct (IH fuel mq2 f2 (printed ++ [m]) Hholds2 Hfit
                ltac:(cbn [length] in Hfuel; lia)) as (mq' & f' & Hloop & Hend & Hdata).
    exists mq', f'. rewrite Hloop, <- app_assoc. cbn [app].
    split; [reflexivity |]. split; [exact Hend |].
    rewrite Hdata, Hdata2. exact Hdata1.
Qed.

(** X19 (the reader program).  Run on the file a queue holding [msgs] was
    closed on, when no message is longer than the 256 bytes of its
    buffer, the reader ends normally having printed every message of the
    queue, oldest first, whatever [-n] asks for.  Without [-e] the file is
    left byte for byte as it was, so the messages are still there for the
    next program; with [-e] the file is left holding the empty queue. *)
Theorem X19_reader_prints_whole_queue (mq mq0 : T_PERSIMQ) (f : file)
    (msgs : list (list Z)) (queue_clear : bool) (print_max : Z) (fuel : nat) :
  queue_holds mq f msgs ->
  Forall (fun m => Z.of_nat (length m) <= 256) msgs ->
  (length msgs < fuel)%nat ->
  let disk := f_data (snd (PERSIMQ_close mq f)) in
  exists disk',
    reader_main mq0 disk queue_clear print_max fuel = Some (true, msgs, disk')
    /\ (queue_clear = false -> disk' = disk)
    /\ (queue_clear = true ->
        exists mq' f',
          PERSIMQ_open mq0 disk' (file_size mq) = (true, mq', f')
          /\ queue_holds mq' f' []).
Proof.
  intros Hholds Hfit Hfuel disk.
  assert (Hopen : fd mq <> 0) by (destruct Hholds as ((H & _) & _); exact H).
  unfold disk. rewrite PERSIMQ_close_spec by exact Hopen. cbn [snd f_data].
  destruct (queue_reopen_holds mq mq0 f msgs Hholds) as (Hreopen & Hholds0 & Hlen).
  cbv zeta in Hreopen, Hholds0, Hlen.
  unfold reader_main. rewrite Hlen, Hreopen. cbn [negb].
  destruct (reader_loop_drains msgs fuel (set_fd 3 mq) _ [] Hholds0 Hfit Hfuel)
    as (mq1 & f1 & Hloop & Hend & Hdata).
  rewrite Hloop. cbn [app f_data] in *.
  assert (Hopen1 : fd mq1 <> 0) by (destruct Hend as ((H & _) & _); exact H).
  assert (Hsize1 : file_size mq1 = file_size mq).
  { destruct Hend as ((_ & _ & Hs & _) & _). rewrite Hdata in Hs. lia. }
  destruct queue_clear.
  - rewrite PERSIMQ_close_spec by exact Hopen1. cbn [f_data].
    eexists. split; [reflexivity |]. split; [discriminate |]. intros _.
    destruct (queue_reopen_holds mq1 mq0 f1 [] Hend) as (Hre & Hh & _).
    cbv zeta in Hre, Hh. rewrite Hsize1 in Hre.
    eexists. eexists. split; [exact Hre | exact Hh].
  - unfold PERSIMQ_drop.
    destruct (Z.eqb_spec (fd mq1) 0) as [? | _]; [contradiction |].
    eexists. split; [reflexivity |]. split; [intros _; exact Hdata | discriminate].
Qed.

Lemma X19_reader_prints_whole_queue_witness :
  let disk := f_data (snd (PERSIMQ_close (mkMQ 3 70 45 25 1 128)
                                         (mkFile example_file 0))) in
  exists disk',
    reader_main (mkMQ 0 0 0 0 0 0) disk true 10 2 = Some (true, [example_message], disk')
    /\ (true = false -> disk' = disk)
    /\ (true = true ->
        exists mq' f',
          PERSIMQ_open (mkMQ 0 0 0 0 0 0) disk' 128 = (true, mq', f')
          /\ queue_holds mq' f' []).
Proof.
  apply (X19_reader_prints_whole_queue (mkMQ 3 70 45 25 1 128) (mkMQ 0 0 0 0 0 0)
           (mkFile example_file 0) [example_message] true 10 2 example_queue_holds).
  - constructor; [| constructor].
    change (Z.of_nat (length example_message)) with 17. lia.
  - cbn [length]. lia.
Defined.

(** ** More on the address mapper and on [get_all] *)

(** X20 (what [offset_roll] computes).  For an end of the data region
    above its start, an offset and an increment that are not negative as
    64-bit signed values: an offset inside or above the region is moved
    by the increment around the ring that starts at 45; an offset below
    45 counts as the relative offset 45, not 0, so the result is as if
    the offset had been 90. *)
Theorem X20_offset_roll_closed_form (current_offset wrap_hi_margin increment : Z) :
  wrap_lo_margin < wrap_hi_margin <= OFF_MAX ->
  OFF_MIN <= current_offset <= OFF_MAX ->
  0 <= increment <= OFF_MAX ->
  offset_roll current_offset wrap_hi_margin increment
  = wrap_lo_margin
    + ((if current_offset <? wrap_lo_margin
        then wrap_lo_margin
        else current_offset - wrap_lo_margin) + increment)
      mod (wrap_hi_margin - wrap_lo_margin)
  /\ (current_offset < wrap_lo_margin ->
      offset_roll current_offset wrap_hi_margin increment
      = offset_roll (2 * wrap_lo_margin) wrap_hi_margin increment).
Proof.
  intros Hhi Hc Hinc.
  assert (Hlo : wrap_lo_margin = 45) by reflexivity.
  unfold OFF_MIN, OFF_MAX in Hc, Hinc.
  destruct (Z.ltb_spec current_offset wrap_lo_margin) as [Hlt | Hge].
  - rewrite offset_roll_below by lia.
    split; [reflexivity |]. intros _.
    rewrite (offset_roll_in_region (2 * wrap_lo_margin))
      by (unfold OFF_MAX in *; lia).
    replace (2 * wrap_lo_margin - wrap_lo_margin + increment)
      with (wrap_lo_margin + increment) by lia.
    reflexivity.
  - rewrite offset_roll_in_region by (unfold OFF_MAX in *; lia).
    split; [reflexivity | lia].
Qed.

Lemma X20_offset_roll_closed_form_witness :
  offset_roll 0 64 0
  = wrap_lo_margin
    + ((if 0 <? wrap_lo_margin then wrap_lo_margin else 0 - wrap_lo_margin) + 0)
      mod (64 - wrap_lo_margin)
  /\ (0 < wrap_lo_margin -> offset_roll 0 64 0 = offset_roll (2 * wrap_lo_margin) 64 0).
Proof.
  apply (X20_offset_roll_closed_form 0 64 0);
    unfold OFF_MIN, OFF_MAX, wrap_lo_margin, sizeof_TFileHeader; lia.
Defined.

Lemma records_at_suffix contents hi (l1 l2 : list (list Z)) :
  forall p,
  wrap_lo_margin < hi <= OFF_MAX -> wrap_lo_margin <= p < hi ->
  records_size l1 <= OFF_MAX ->
  records_at contents hi p (l1 ++ l2) ->
  records_at contents hi (offset_roll p hi (records_size l1)) l2.
Proof.
  induction l1 as [| m l1 IH]; intros p Hhi Hp Hsize H.
  - cbn [records_size app] in *. rewrite offset_roll_0_id by assumption. exact H.
  - cbn [records_at app] in H. destruct H as [_ Htail].
    cbn [records_size] in *.
    pose proof (records_size_nonneg l1) as Hrs.
    assert (Hm : 8 <= record_size m)
      by (unfold record_size, sizeof_TMessageHeader; lia).
    pose proof (offset_roll_range p hi (record_size m) Hhi) as Hnext.
    specialize (IH _ Hhi Hnext ltac:(lia) Htail).
    rewrite offset_roll_add in IH by lia.
    exact IH.
Qed.

(** The turns of the loop of [PERSIMQ_get_all] over the first records,
    when they are in order and fit the room left: the loop goes on behind
    them with these records appended to the buffer. *)
Lemma get_all_loop_prefix (mq : T_PERSIMQ) (contents : list Z) (max_messages : Z)
    (batch : list (list Z)) :
  forall (fuel : nat) (pos : Z) (buffer : list Z) (buffer_size message_idx ptr : Z),
  fd mq <> 0 ->
  sizeof_TFileHeader + sizeof_TMessageHeader < file_size mq
    <= OFF_MAX - sizeof_TMessageHeader ->
  Z.of_nat (length contents) = file_size mq ->
  wrap_lo_margin <= ptr < file_size mq ->
  Forall (fun m => 0 < Z.of_nat (length m) < 2 ^ 32) batch ->
  records_size batch <= file_size mq - wrap_lo_margin ->
  records_at contents (file_size mq) ptr batch ->
  payload_size batch <= buffer_size < 2 ^ 64 ->
  0 <= message_idx ->
  message_idx + Z.of_nat (length batch) <= Z.min (u64 (count_messages mq)) max_messages ->
  exists pos',
    get_all_loop (length batch + fuel) mq (mkFile contents pos) max_messages true buffer
                 buffer_size message_idx ptr
    = get_all_loop fuel mq (mkFile contents pos') max_messages true
                   (buffer ++ concat batch)
                   (buffer_size - payload_size batch)
                   (message_idx + Z.of_nat (length batch))
                   (offset_roll ptr (file_size mq) (records_size batch)).
Proof.
  assert (Hlo : wrap_lo_margin = 45) by reflexivity.
  induction batch as [| m batch IH];
    intros fuel pos buffer buffer_size message_idx ptr Hopen Hfs Hsize Hptr Hall
           Hrec Hat Hbuf Hidx0 Hidx.
  - cbn [length concat payload_size records_size Nat.add] in *.
    unfold sizeof_TFileHeader, sizeof_TMessageHeader, OFF_MAX in Hfs.
    rewrite app_nil_r, Z.sub_0_r, Z.add_0_r.
    rewrite offset_roll_0_id by (unfold OFF_MAX; lia).
    exists pos. reflexivity.
  - apply Forall_cons in Hall. destruct Hall as [Hm Hall].
    cbn [records_at] in Hat. destruct Hat as [Hhead Htail].
    cbn [records_size payload_size length concat Nat.add] in *.
    pose proof (records_size_nonneg batch) as Hrs.
    pose proof (payload_size_nonneg batch) as Hps.
    unfold sizeof_TFileHeader, sizeof_TMessageHeader, OFF_MAX in Hfs.
    assert (Hhi : wrap_lo_margin < file_size mq <= OFF_MAX) by (unfold OFF_MAX; lia).
    unfold record_size, sizeof_TMessageHeader in Hrec.
    destruct (record_at_parts contents (file_size mq) ptr m Hhi Hptr ltac:(lia) Hhead)
      as [Hheader Hpayload].
    destruct (push_header_fields m ltac:(lia)) as (Hid & Hms & Hcrc & Hround).
    rewrite get_all_loop_step.
    destruct (Z.ltb_spec message_idx (u64 (count_messages mq))) as [_ | ?]; [| lia].
    destruct (Z.ltb_spec message_idx max_messages) as [_ | ?]; [| lia].
    cbn [andb].
    destruct (PERSIMQ_read_message_header_open mq (mkFile contents pos) ptr Hopen
                ltac:(unfold sizeof_TFileHeader, sizeof_TMessageHeader, OFF_MAX; lia)
                Hsize) as [p1 Hhdr].
    cbv zeta in Hhdr. cbn [f_data] in Hhdr.
    rewrite (offset_roll_0_id ptr) in Hhdr by assumption.
    rewrite Hheader, Hround, Hid in Hhdr.
    change (memcmp MESSAGE_ID MESSAGE_ID 3 =? 0) with true in Hhdr.
    rewrite Hhdr. clear Hhdr. cbn [negb].
    rewrite Hms, Hcrc.
    destruct (Z.ltb_spec buffer_size (Z.of_nat (length m))) as [? | _]; [lia |].
    unfold sizeof_TMessageHeader.
    rewrite (u64_id ptr) by lia.
    rewrite (s64_id (ptr + 8)) by lia.
    destruct (PERSIMQ_read_message_data_open mq (mkFile contents p1)
                (Z.of_nat (length m)) (eval_crc8 m) (ptr + 8) Hhi Hsize
                ltac:(lia)) as [p2 Hdata].
    cbv zeta in Hdata. cbn [f_data] in Hdata.
    rewrite offset_roll_shift in Hdata by (unfold OFF_MAX; lia).
    rewrite Nat2Z.id in Hdata.
    unfold sizeof_TMessageHeader in Hpayload.
    rewrite Hpayload, Z.eqb_refl in Hdata.
    rewrite Hdata. clear Hdata. cbn [andb negb].
    rewrite (u64_id (buffer_size - Z.of_nat (length m))) by lia.
    rewrite (u64_id (Z.of_nat (length m) + 8)) by lia.
    pose proof (offset_roll_range ptr (file_size mq) (Z.of_nat (length m) + 8) Hhi)
      as Hnext.
    unfold record_size, sizeof_TMessageHeader in Htail.
    rewrite (Z.add_comm 8) in Htail.
    destruct (IH fuel p2 (buffer ++ m) (buffer_size - Z.of_nat (length m))
                (message_idx + 1)
                (offset_roll ptr (file_size mq) (Z.of_nat (length m) + 8))
                Hopen
                ltac:(unfold sizeof_TFileHeader, sizeof_TMessageHeader, OFF_MAX; lia)
                Hsize Hnext Hall ltac:(lia) Htail ltac:(lia) ltac:(lia) ltac:(lia))
      as [pos' Hloop].
    rewrite Hloop. exists pos'.
    rewrite <- app_assoc.
    rewrite offset_roll_add by (unfold OFF_MAX; lia).
    unfold record_size, sizeof_TMessageHeader.
    replace (8 + Z.of_nat (length m) + records_size batch)
      with (Z.of_nat (length m) + 8 + records_size batch) by lia.
    f_equal; lia.
Qed.

(** X21 ([get_all] at a message that does not fit).  On a queue in order
    whose messages are [batch], then [m], then others, when the buffer
    has room for [batch] but not for [m] behind it and [max_messages]
    allows more than [batch], [get_all] succeeds and stores the messages
    of [batch], with their total size, but the count it gives through
    [messages_read] is one more than the number of messages stored: the
    message that stopped the loop is counted. *)
Theorem X21_get_all_counts_message_that_does_not_fit (mq : T_PERSIMQ) (f : file)
    (batch : list (list Z)) (m : list Z) (rest : list (list Z))
    (buffer_size max_messages : Z) :
  queue_holds mq f (batch ++ m :: rest) ->
  Z.of_nat (length batch) < max_messages ->
  payload_size batch <= buffer_size <= SIZE_MAX ->
  buffer_size - payload_size batch < Z.of_nat (length m) ->
  exists f',
    PERSIMQ_get_all mq f buffer_size max_messages
    = (true, mq, f', concat batch, Some (payload_size batch),
       Some (Z.of_nat (length batch) + 1))
    /\ f_data f' = f_data f.
Proof.
  intros (Hok & Hall & Hcm & Hcb & Ha & Hat) Hmax Hbuf Hshort.
  pose proof Hok as (Hopen & Hfs & Hsize & Hain & Hein & Hcbr & Hcmr).
  assert (Hlo : wrap_lo_margin = 45) by reflexivity.
  rewrite length_app in Hcm. cbn [length] in Hcm.
  rewrite records_size_app in Hcb. cbn [records_size] in Hcb.
  pose proof (records_size_nonneg batch) as Hrb.
  pose proof (records_size_nonneg rest) as Hrr.
  pose proof (payload_size_nonneg batch) as Hps.
  apply Forall_app in Hall. destruct Hall as [Hallb Hallm].
  apply Forall_cons in Hallm. destruct Hallm as [Hm _].
  assert (Hrm : record_size m = 8 + Z.of_nat (length m)) by reflexivity.
  unfold sizeof_TFileHeader, sizeof_TMessageHeader, OFF_MAX in Hfs, Hcbr, Hcmr.
  assert (Hhi : wrap_lo_margin < file_size mq <= OFF_MAX) by (unfold OFF_MAX; lia).
  unfold SIZE_MAX in Hbuf.
  unfold PERSIMQ_get_all, PERSIMQ_messages_available.
  destruct (Z.eqb_spec (fd mq) 0) as [? | _]; [contradiction |].
  destruct (Z.eqb_spec (count_messages mq) 0) as [? | _]; [lia |].
  destruct f as [contents pos]. cbn [f_data] in *.
  replace (S (Z.to_nat max_messages))
    with (length batch + S (Z.to_nat max_messages - length batch))%nat by lia.
  destruct (get_all_loop_prefix mq contents max_messages batch
              (S (Z.to_nat max_messages - length batch)) pos [] buffer_size 0
              (extract_ptr mq) Hopen
              ltac:(unfold sizeof_TFileHeader, sizeof_TMessageHeader, OFF_MAX; lia)
              Hsize ltac:(lia) Hallb ltac:(lia)
              (records_at_prefix _ _ _ _ _ Hat) ltac:(lia) ltac:(lia))
    as [p1 Hloop].
  { rewrite (u64_id (count_messages mq)) by lia. lia. }
  rewrite Hloop. clear Hloop. cbn [app].
  rewrite get_all_loop_step.
  rewrite (u64_id (count_messages mq)) by lia.
  destruct (Z.ltb_spec (0 + Z.of_nat (length batch)) (count_messages mq)) as [_ | ?];
    [| lia].
  destruct (Z.ltb_spec (0 + Z.of_nat (length batch)) max_messages) as [_ | ?]; [| lia].
  cbn [andb].
  pose proof (records_at_suffix contents (file_size mq) batch (m :: rest)
                (extract_ptr mq) Hhi ltac:(lia) ltac:(unfold OFF_MAX; lia) Hat)
    as Hatm.
  cbn [records_at] in Hatm. destruct Hatm as [Hhead _].
  pose proof (offset_roll_range (extract_ptr mq) (file_size mq) (records_size batch) Hhi)
    as Hptr.
  destruct (record_at_parts contents (file_size mq) _ m Hhi Hptr ltac:(lia) Hhead)
    as [Hheader _].
  destruct (push_header_fields m ltac:(lia)) as (Hid & Hms & _ & Hround).
  destruct (PERSIMQ_read_message_header_open mq (mkFile contents p1)
              (offset_roll (extract_ptr mq) (file_size mq) (records_size batch)) Hopen
              ltac:(unfold sizeof_TFileHeader, sizeof_TMessageHeader, OFF_MAX; lia)
              Hsize) as [p2 Hhdr].
  cbv zeta in Hhdr. cbn [f_data] in Hhdr.
  rewrite offset_roll_0_id in Hhdr by assumption.
  rewrite Hheader, Hround, Hid in Hhdr.
  change (memcmp MESSAGE_ID MESSAGE_ID 3 =? 0) with true in Hhdr.
  rewrite Hhdr. clear Hhdr. cbn [negb].
  rewrite Hms.
  destruct (Z.ltb_spec (buffer_size - payload_size batch) (Z.of_nat (length m)))
    as [_ | ?]; [| lia].
  exists (mkFile contents p2). split; [| reflexivity].
  replace (buffer_size - (buffer_size - payload_size batch))
    with (payload_size batch) by lia.
  rewrite (u64_id (payload_size batch)) by lia.
  rewrite Z.add_0_l. reflexivity.
Qed.

Lemma X21_get_all_counts_message_that_does_not_fit_witness :
  exists f',
    PERSIMQ_get_all (mkMQ 3 70 45 25 1 128) (mkFile example_file 0) 10 4
    = (true, mkMQ 3 70 45 25 1 128, f', concat [], Some (payload_size []),
       Some (Z.of_nat (@length (list Z) []) + 1))
    /\ f_data f' = example_file.
Proof.
  apply (X21_get_all_counts_message_that_does_not_fit (mkMQ 3 70 45 25 1 128)
           (mkFile example_file 0) [] example_message [] 10 4 example_queue_holds).
  - cbn [length]. lia.
  - cbn [payload_size]. unfold SIZE_MAX. lia.
  - cbn [payload_size]. change (Z.of_nat (length example_message)) with 17. lia.
Defined.

(** ** Between two checkpoints *)

(** X22 ([open] on a file that does not exist yet).  For a size that
    [open] takes, the new file is filled with zero bytes up to that size,
    the handle gets the empty state, and the queue it gives is in order
    and holds no message.  No header is written: the first 45 bytes of
    the file stay zero until the first [sync], [clear] or [close]. *)
Theorem X22_open_creates_empty_queue (mq0 : T_PERSIMQ) (size : Z) :
  sizeof_TFileHeader + sizeof_TMessageHeader + 1 < size
    <= OFF_MAX - sizeof_TMessageHeader ->
  exists mq f,
    PERSIMQ_open mq0 [] size = (true, mq, f)
    /\ mq = mkMQ 3 sizeof_TFileHeader sizeof_TFileHeader 0 0 size
    /\ f_data f = replicate (Z.to_nat size) 0
    /\ queue_holds mq f [].
Proof.
  intros Hfs.
  assert (Hlo : wrap_lo_margin = 45) by reflexivity.
  unfold sizeof_TFileHeader, sizeof_TMessageHeader, OFF_MAX in Hfs.
  rewrite PERSIMQ_open_accepted
    by (unfold sizeof_TFileHeader, sizeof_TMessageHeader, OFF_MAX; lia).
  cbv zeta.
  assert (Hzero : resize (Z.to_nat size) 0 (@nil Z) = replicate (Z.to_nat size) 0)
    by apply resize_nil.
  rewrite Hzero.
  assert (Hhead : take 45 (replicate (Z.to_nat size) 0) = replicate 45 (0 : Z)).
  { rewrite take_replicate. f_equal. lia. }
  rewrite Hhead.
  change (strncmp (take 4 (replicate 45 0)) FILE_ID 4 =? 0) with false.
  cbn [andb].
  eexists. eexists. split; [reflexivity |].
  split; [reflexivity |]. split; [reflexivity |].
  unfold queue_holds, queue_ok.
  cbn [fd append_ptr extract_ptr count_bytes count_messages file_size f_data
       records_size length records_at].
  rewrite length_replicate.
  unfold sizeof_TFileHeader, sizeof_TMessageHeader, OFF_MAX, wrap_lo_margin,
    sizeof_TFileHeader.
  split; [repeat split; try lia; discriminate |].
  split; [constructor |].
  split; [reflexivity |]. split; [reflexivity |].
  split; [| exact I].
  symmetry. apply offset_roll_0_id;
    unfold OFF_MAX, wrap_lo_margin, sizeof_TFileHeader; lia.
Qed.

Lemma X22_open_creates_empty_queue_witness :
  exists mq f,
    PERSIMQ_open (mkMQ 0 0 0 0 0 0) [] 128 = (true, mq, f)
    /\ mq = mkMQ 3 sizeof_TFileHeader sizeof_TFileHeader 0 0 128
    /\ f_data f = replicate (Z.to_nat 128) 0
    /\ queue_holds mq f [].
Proof.
  apply (X22_open_creates_empty_queue (mkMQ 0 0 0 0 0 0) 128).
  unfold sizeof_TFileHeader, sizeof_TMessageHeader, OFF_MAX. lia.
Defined.

Lemma overwrite_take_same (contents : list Z) (n : nat) :
  (n <= length contents)%nat ->
  overwrite contents 0 (take n contents) = contents.
Proof.
  intros Hn. unfold overwrite.
  rewrite take_0, Nat.sub_0_l, length_take, Nat.min_l by exact Hn.
  cbn [replicate app Nat.add]. apply take_drop.
Qed.

(** X23 (a [push] that is not followed by a checkpoint).  Take a queue in
    order that holds [msgs] and whose file header is the one [sync]
    writes for it.  After a [push] that succeeds, when the file is let go
    with [drop] (or the program stops) before any [sync] or [close], the
    bytes of the new record are in the file, but [open] gives the handle
    of before the [push]: the queue holds [msgs], and the message pushed
    is not in it. *)
Theorem X23_push_without_checkpoint_is_lost (mq mq0 : T_PERSIMQ) (f : file)
    (msgs : list (list Z)) (m : list Z) :
  queue_holds mq f msgs ->
  take 45 (f_data f) = TFileHeader_bytes (sync_header mq) ->
  0 < Z.of_nat (length m) < 2 ^ 32 ->
  record_size m <= PERSIMQ_bytes_free mq ->
  exists mq1 f1 f2,
    PERSIMQ_push mq f m = (true, mq1, f1)
    /\ queue_holds mq1 f1 (msgs ++ [m])
    /\ PERSIMQ_drop mq1 f1 = (true, f1)
    /\ PERSIMQ_open mq0 (f_data f1) (file_size mq) = (true, set_fd 3 mq, f2)
    /\ queue_holds (set_fd 3 mq) f2 msgs.
Proof.
  intros Hholds Hsynced Hm Hroom.
  destruct (queue_push_holds mq f msgs m Hholds Hm Hroom) as (mq1 & f1 & Hpush & Hholds1).
  pose proof Hholds as (Hok & Hall & Hcm & Hcb & Ha & Hat).
  pose proof Hok as (Hopen & Hfs & Hsize & Hain & Hein & Hcbr & Hcmr).
  assert (Hlo : wrap_lo_margin = 45) by reflexivity.
  rewrite (queue_ok_bytes_free mq f Hok) in Hroom.
  unfold record_size in Hroom.
  destruct (PERSIMQ_push_spec mq f m Hok ltac:(lia) Hroom) as [pos Hspec].
  pose proof (eq_trans (eq_sym Hspec) Hpush) as Heq.
  pose proof (f_equal (fun r => snd (fst r)) Heq) as Hmq1.
  pose proof (f_equal snd Heq) as Hf1.
  cbn [fst snd] in Hmq1, Hf1. clear Heq.
  unfold sizeof_TFileHeader, sizeof_TMessageHeader, OFF_MAX in Hfs.
  assert (Hhi : wrap_lo_margin < file_size mq <= OFF_MAX) by (unfold OFF_MAX; lia).
  assert (Hlen1 : length (f_data f1) = length (f_data f)).
  { rewrite <- Hf1. cbn [f_data]. apply naive_write_length. }
  assert (Hhead : take 45 (f_data f1) = take 45 (f_data f)).
  { rewrite <- Hf1. cbn [f_data].
    apply list_eq. intros q.
    destruct (Nat.lt_ge_cases q 45) as [Hq | Hq].
    - rewrite !lookup_take_lt by exact Hq.
      apply naive_write_lookup_other; [lia |].
      intros j _.
      pose proof (ring_advance_range (file_size mq) j (append_ptr mq) ltac:(lia) Hain).
      lia.
    - rewrite !lookup_take_ge by exact Hq. reflexivity. }
  assert (Hholds' : queue_holds mq f1 msgs).
  { destruct Hholds1 as (_ & _ & _ & _ & _ & Hat1).
    rewrite <- Hmq1 in Hat1.
    cbn [file_size extract_ptr] in Hat1.
    apply records_at_prefix in Hat1.
    unfold queue_holds, queue_ok. rewrite Hlen1.
    repeat (split; [assumption |]). exact Hat1. }
  destruct (queue_reopen_holds mq mq0 f1 msgs Hholds') as (Hreopen & Hholds2 & _).
  cbv zeta in Hreopen, Hholds2.
  rewrite <- Hsynced, <- Hhead in Hreopen, Hholds2.
  rewrite overwrite_take_same in Hreopen, Hholds2 by lia.
  exists mq1, f1. eexists.
  split; [exact Hpush |].
  split; [exact Hholds1 |].
  split.
  { unfold PERSIMQ_drop.
    assert (Hopen1 : fd mq1 <> 0) by (rewrite <- Hmq1; exact Hopen).
    destruct (Z.eqb_spec (fd mq1) 0) as [? | _]; [contradiction | reflexivity]. }
  split; [exact Hreopen | exact Hholds2].
Qed.

Lemma X23_push_without_checkpoint_is_lost_witness :
  exists mq1 f1 f2,
    PERSIMQ_push (mkMQ 3 70 45 25 1 128) (mkFile example_file 0) [7; 7] = (true, mq1, f1)
    /\ queue_holds mq1 f1 ([example_message] ++ [[7; 7]])
    /\ PERSIMQ_drop mq1 f1 = (true, f1)
    /\ PERSIMQ_open (mkMQ 0 0 0 0 0 0) (f_data f1) 128
       = (true, mkMQ 3 70 45 25 1 128, f2)
    /\ queue_holds (mkMQ 3 70 45 25 1 128) f2 [example_message].
Proof.
  apply (X23_push_without_checkpoint_is_lost (mkMQ 3 70 45 25 1 128)
           (mkMQ 0 0 0 0 0 0) (mkFile example_file 0) [example_message] [7; 7]
           example_queue_holds).
  - vm_compute. reflexivity.
  - cbn [length]. lia.
  - vm_compute. discriminate.
Defined.

(** X24 (a [pop] that is not followed by a checkpoint).  Take a queue in
    order that holds [m] and then [rest] and whose file header is the one
    [sync] writes for it.  [pop] leaves every byte of the file as it is;
    so when the file is let go with [drop] before any [sync] or [close],
    [open] gives the handle of before the [pop], and [get] returns [m]
    once more. *)
Theorem X24_pop_without_checkpoint_is_undone (mq mq0 : T_PERSIMQ) (f : file)
    (m : list Z) (rest : list (list Z)) (buffer_size : Z) :
  queue_holds mq f (m :: rest) ->
  take 45 (f_data f) = TFileHeader_bytes (sync_header mq) ->
  Z.of_nat (length m) <= buffer_size ->
  exists mq1 f1 f2 f3,
    PERSIMQ_pop mq f = (true, mq1, f1)
    /\ f_data f1 = f_data f
    /\ PERSIMQ_drop mq1 f1 = (true, f1)
    /\ PERSIMQ_open mq0 (f_data f1) (file_size mq) = (true, set_fd 3 mq, f2)
    /\ PERSIMQ_get (set_fd 3 mq) f2 buffer_size false
       = (true, set_fd 3 mq, f3, m, None).
Proof.
  intros Hholds Hsynced Hbuf.
  destruct (queue_pop_holds mq f m rest Hholds) as (mq1 & f1 & Hpop & Hdata & Hholds1).
  assert (Hlen : (45 <= length (f_data f))%nat).
  { destruct Hholds as ((_ & Hfs & Hsize & _) & _).
    unfold sizeof_TFileHeader, sizeof_TMessageHeader in Hfs. lia. }
  destruct (queue_reopen_holds mq mq0 f (m :: rest) Hholds) as (Hreopen & Hholds2 & _).
  cbv zeta in Hreopen, Hholds2.
  rewrite <- Hsynced in Hreopen, Hholds2.
  rewrite overwrite_take_same in Hreopen, Hholds2 by lia.
  destruct (queue_get_holds _ _ m rest buffer_size false Hholds2 Hbuf) as (f3 & Hget & _).
  exists mq1, f1. eexists. exists f3.
  split; [exact Hpop |]. split; [exact Hdata |].
  split.
  { unfold PERSIMQ_drop.
    assert (Hopen1 : fd mq1 <> 0) by (destruct Hholds1 as ((H & _) & _); exact H).
    destruct (Z.eqb_spec (fd mq1) 0) as [? | _]; [contradiction | reflexivity]. }
  rewrite Hdata. split; [exact Hreopen | exact Hget].
Qed.

Lemma X24_pop_without_checkpoint_is_undone_witness :
  exists mq1 f1 f2 f3,
    PERSIMQ_pop (mkMQ 3 70 45 25 1 128) (mkFile example_file 0) = (true, mq1, f1)
    /\ f_data f1 = example_file
    /\ PERSIMQ_drop mq1 f1 = (true, f1)
    /\ PERSIMQ_open (mkMQ 0 0 0 0 0 0) (f_data f1) 128
       = (true, mkMQ 3 70 45 25 1 128, f2)
    /\ PERSIMQ_get (mkMQ 3 70 45 25 1 128) f2 256 false
       = (true, mkMQ 3 70 45 25 1 128, f3, example_message, None).
Proof.
  apply (X24_pop_without_checkpoint_is_undone (mkMQ 3 70 45 25 1 128)
           (mkMQ 0 0 0 0 0 0) (mkFile example_file 0) example_message [] 256
           example_queue_holds).
  - vm_compute. reflexivity.
  - change (Z.of_nat (length example_message)) with 17. lia.
Defined.
